(** * Captum attribution core: NoiseTunnel and GradientShap

    A shallow embedding of [captum/attr/_core/noise_tunnel.py] and
    [captum/attr/_core/gradient_shap.py].

    - Python exceptions are an error type; code that may raise returns
      [Result].  Code that also draws random numbers or calls the model
      threads an explicit [World] (the RNG state and whatever the wrapped
      attribution method can observe or change), in the monad [M].
    - Floating point numbers are an abstract type [F] with the operations
      the code uses ([Scalar]); no algebraic law is assumed unless a
      theorem lists it as a hypothesis.
    - A tensor is a matrix: the list of its slices along dimension 0
      (the example axis), each slice the list of its elements.  Two
      tensors have one shape when their slices have the same lengths.
      (A tensor of higher rank can be read as the matrix of its
      flattened examples only as long as the tensors that meet in one
      operation have the same trailing dimensions; the model does not
      tell trailing dimensions of one size apart.)
    - Of torch's broadcasting the model covers one coefficient per
      example, and a baseline that is a constant, has the shape of its
      input, or has one example or one element per example where its
      input has more.  Where the operands of an elementwise operation
      have other shapes, torch broadcasts some and rejects others: the
      model stops there with [OutsideModel], which is no Python
      exception; where a run of the model ends in it, nothing is said
      about what the code does.
    - Functions of torch, numpy and captum that the two files call but
      do not define are fields of [Collaborators], or are modelled from
      the specification where it fixes what they do. *)

From Stdlib Require Import ZArith QArith.
From stdpp Require Import base option list gmap strings.

Open Scope Z_scope.

(** ** Exceptions and results *)

Inductive PyError :=
  | AssertionError
  | UnboundLocalError
  | ZeroDivisionError
  | RuntimeError
  | TypeError
  | ValueError
  | IndexError
  | KeyError
  | AttributeError
  | NotImplementedError
  (** No exception of Python: the run has reached an operation on
      operands whose shapes the model does not cover.  What the code
      does there (torch may broadcast, or raise) is not modelled. *)
  | OutsideModel.

Inductive Result (A : Type) :=
  | Ok (a : A)
  | Err (e : PyError).
Arguments Ok {A} a.
Arguments Err {A} e.

#[global] Instance PyError_eq_dec : EqDecision PyError.
Proof. solve_decision. Defined.

#[global] Instance Result_ret : MRet Result := @Ok.
#[global] Instance Result_bind : MBind Result :=
  λ A B f r, match r with Ok a => f a | Err e => Err e end.
#[global] Instance Result_fmap : FMap Result :=
  λ A B f r, match r with Ok a => Ok (f a) | Err e => Err e end.

(** [assert cond] *)
Definition py_assert (cond : bool) : Result unit :=
  if cond then Ok tt else Err AssertionError.

(** [l[i]] on a list or tuple *)
Definition py_index {A} (l : list A) (i : nat) : Result A :=
  match l !! i with Some a => Ok a | None => Err IndexError end.

(** [a // b] on Python ints: floor division, [ZeroDivisionError] on 0. *)
Definition py_floordiv (a b : Z) : Result Z :=
  if decide (b = 0) then Err ZeroDivisionError else Ok (a `div` b).

(** ** Scalars: the float operations the code performs *)

Class Scalar (F : Type) := {
  fzero : F;
  fone : F;
  fadd : F → F → F;
  fsub : F → F → F;
  fmul : F → F → F;
  fdiv : F → F → F;
  fof_Z : Z → F;
  fnonzero : F → bool;
}.

(** ** Tensors *)

(** A tensor: the list of its slices along dimension 0, each slice the
    list of its elements. *)
Abbreviation Tensor F := (list (list F)) (only parsing).

Section tensors.
Context {F : Type} `{Scalar F}.

(** [t.shape[0]] *)
Definition shape0 (t : Tensor F) : nat := length t.

(** number of elements of [t.shape[1:]] *)
Definition tail_size (t : Tensor F) : nat :=
  match t with [] => 0%nat | r :: _ => length r end.

(** Every torch tensor is rectangular. *)
Definition rectangular (t : Tensor F) : Prop :=
  Forall (λ r, length r = tail_size t) t.

Definition same_shape (a b : Tensor F) : bool :=
  bool_decide (length <$> a = length <$> b).

(** Elementwise binary operation of two tensors of one shape.  On
    unequal shapes torch broadcasts or raises; the model covers neither
    (for a baseline against its input see [broadcast_baseline]). *)
Definition tensor_binop (op : F → F → F) (a b : Tensor F)
  : Result (Tensor F) :=
  if same_shape a b then Ok (zip_with (zip_with op) a b)
  else Err OutsideModel.

Definition tensor_map (f : F → F) (t : Tensor F) : Tensor F :=
  map (map f) t.

(** [torch.tensor(x).repeat((n, *tail))] *)
Definition tensor_full (n m : nat) (x : F) : Tensor F :=
  replicate n (replicate m x).

(** [t.repeat_interleave(k, dim=0)] *)
Definition repeat_interleave (k : nat) (t : Tensor F) : Tensor F :=
  flat_map (replicate k) t.

(** The list of [n] consecutive blocks of [k] slices: the slices of
    [t.view((n, k) + t.shape[1:])] along dimension 0. *)
Fixpoint blocks (n k : nat) (t : Tensor F) : list (Tensor F) :=
  match n with
  | O => []
  | S n' => take k t :: blocks n' k (drop k t)
  end.

(** [attribution.view((bsz, k) + attribution.shape[1:])] with
    [bsz = attribution.shape[0] // k]. *)
Definition view_replicas (k : Z) (t : Tensor F)
  : Result (list (Tensor F)) :=
  bsz ← py_floordiv (Z.of_nat (shape0 t)) k;
  if decide (0 < k ∧ bsz * k = Z.of_nat (shape0 t))
  then Ok (blocks (Z.to_nat bsz) (Z.to_nat k) t)
  else Err RuntimeError.

(** Sum of the slices of one block, elementwise and left to right:
    one slice of [v.sum(dim=1)]. *)
Definition sum_block (b : Tensor F) : list F :=
  match b with
  | [] => []
  | r :: rs => foldl (zip_with fadd) r rs
  end.

(** [v.sum(dim=1, keepdim=False)] *)
Definition sum_dim1 (v : list (Tensor F)) : Tensor F := map sum_block v.

(** [x ** 2] *)
Definition fsquare (x : F) : F := fmul x x.

(** [torch.cat(l, dim=0)]; an empty list is rejected with
    [ValueError]. *)
Definition torch_cat (l : list (Tensor F)) : Result (Tensor F) :=
  match l with
  | [] => Err ValueError
  | _ => Ok (concat l)
  end.
End tensors.

(** ** Python values passed through keyword arguments *)

Unset Elimination Schemes.
Inductive Value (F : Type) :=
| VNone
| VBool (b : bool)
| VInt (z : Z)
| VFloat (x : F)
| VTensor (t : Tensor F)
| VTuple (l : list (Value F)).
Set Elimination Schemes.
Arguments VNone {F}.
Arguments VBool {F} b.
Arguments VInt {F} z.
Arguments VFloat {F} x.
Arguments VTensor {F} t.
Arguments VTuple {F} l.

(** [TensorOrTupleOfTensorsGeneric] *)
Inductive TensorOrTuple (F : Type) :=
| Single (t : Tensor F)
| Tuple (ts : list (Tensor F)).
Arguments Single {F} t.
Arguments Tuple {F} ts.

(** What an [attribute] call returns: attributions, or the pair of
    attributions and convergence delta (a tensor, or [None]). *)
Inductive Output (F : Type) :=
| Bare (a : TensorOrTuple F)
| WithDelta (a : TensorOrTuple F) (delta : option (Tensor F)).
Arguments Bare {F} a.
Arguments WithDelta {F} a delta.

(** A baseline after formatting: a tensor, or an int/float constant. *)
Inductive Baseline (F : Type) :=
| BTensor (t : Tensor F)
| BScalar (x : F).
Arguments BTensor {F} t.
Arguments BScalar {F} x.

Section values.
Context {F : Type} `{Scalar F}.

(** [bool(v)] *)
Definition truthy (v : Value F) : Result bool :=
  match v with
  | VNone => Ok false
  | VBool b => Ok b
  | VInt z => Ok (negb (z =? 0))
  | VFloat x => Ok (fnonzero x)
  | VTensor [[x]] => Ok (fnonzero x)
  | VTensor _ => Err RuntimeError
  | VTuple l => Ok (negb (bool_decide (length l = 0%nat)))
  end.

Definition has_delta (o : Output F) : bool :=
  match o with Bare _ => false | WithDelta _ _ => true end.

Definition attributions_of (o : Output F) : TensorOrTuple F :=
  match o with Bare a => a | WithDelta a _ => a end.

(** Modelled from the spec: the input formatting helper [_is_tuple] of
    [captum._utils.common], which tells a tuple from a single tensor. *)
Definition _is_tuple (x : TensorOrTuple F) : bool :=
  match x with Single _ => false | Tuple _ => true end.

(** Modelled from the spec: the input formatting helper
    [_format_tensor_into_tuples] of [captum._utils.common], which
    normalizes a single tensor to a tuple of one. *)
Definition _format_tensor_into_tuples (x : TensorOrTuple F)
  : list (Tensor F) :=
  match x with Single t => [t] | Tuple ts => ts end.

(** Modelled from the spec: [_format_output] of [captum._utils.common],
    which restores the single-tensor vs. tuple form of the result. *)
Definition _format_output (is_inputs_tuple : bool)
    (output : list (Tensor F)) : Result (TensorOrTuple F) :=
  if is_inputs_tuple then Ok (Tuple output)
  else match output with
       | [t] => Ok (Single t)
       | _ => Err AssertionError
       end.
(** The number of slices of the first tensor of a bundle. *)
Definition first_shape0 (a : TensorOrTuple F) : nat :=
  match _format_tensor_into_tuples a with
  | [] => 0%nat
  | x :: _ => shape0 x
  end.

End values.

(** ** The world monad, and the collaborators outside the two files *)

Section world.
Context {World : Type}.

Definition M (A : Type) : Type := World → Result A * World.

#[global] Instance M_ret : MRet M := λ A a w, (Ok a, w).
#[global] Instance M_bind : MBind M :=
  λ A B f m w,
    match m w with
    | (Ok a, w') => f a w'
    | (Err e, w') => (Err e, w')
    end.

Definition raise {A} (e : PyError) : M A := λ w, (Err e, w).
Definition lift {A} (r : Result A) : M A := λ w, (r, w).
Definition draw {A} (d : World → A * World) : M A :=
  λ w, let (a, w') := d w in (Ok a, w').

(** [for _ in range(n): st = body(st)] *)
Fixpoint for_range {St} (n : nat) (body : St → M St) (st : St) : M St :=
  match n with
  | O => mret st
  | S n' => st' ← body st; for_range n' body st'
  end.
(** [m], when it returns, has appended [l] to the record [calls] keeps
    in the world. *)
Definition logs {Log A} (calls : World → list Log) (m : M A)
    (l : list Log) : Prop :=
  ∀ w a w', m w = (Ok a, w') → calls w' = calls w ++ l.
End world.
Arguments M World A : clear implicits.

Section interfaces.
Context {F : Type} {World Forward : Type}.

(** The gradient engine's signature:
    [gradient_func(forward_fn, inputs, target, additional_forward_args)]. *)
Definition GradientFunc : Type :=
  Forward → list (Tensor F) → Value F → Value F → M World (list (Tensor F)).

(** What [NoiseTunnel] uses of the wrapped [Attribution] object.
    [attribute x kwargs] is [attribute.__wrapped__(self, x, **kwargs)]. *)
Record Attribution := {
  forward_func : Forward;
  attribute : TensorOrTuple F → gmap string (Value F) → M World (Output F);
  has_convergence_delta : bool;
  multiplies_by_inputs : bool;
  is_GradientAttribution : bool;
}.

Record InputBaselineXGradient := {
  ibxg_forward_func : Forward;
  ibxg_gradient_func : GradientFunc;
  ibxg_multiply_by_inputs : bool;
}.

Record GradientShap := {
  gs_forward_func : Forward;
  gs_gradient_func : GradientFunc;
  gs_multiply_by_inputs : bool;
}.

(** The [baselines] argument of [GradientShap.attribute]: a value, or a
    callable taking no argument or the inputs. *)
Inductive BaselineSource :=
  | BaselineValue (v : Value F)
  | BaselineFn0 (f : M World (Value F))
  | BaselineFn1 (f : TensorOrTuple F → M World (Value F)).

(** Functions of torch, numpy and captum that the two files call but do
    not define. *)
Class Collaborators := {
  (** one element of [torch.normal(mean, std)] *)
  torch_normal1 : F → F → M World F;
  (** one element of [np.random.uniform(low, high, n)] *)
  np_random_uniform1 : F → F → World → F * World;
  (** [captum._utils.gradient.compute_gradients], the default
      [gradient_func] of a [GradientAttribution] *)
  compute_gradients : GradientFunc;
  (** [GradientAttribution.compute_convergence_delta] *)
  compute_convergence_delta :
    InputBaselineXGradient → list (Tensor F) → list (Baseline F) →
    list (Tensor F) → Value F → Value F → M World (option (Tensor F));
  (** the four expanders of [captum._utils.common]; each returns the
      updated keyword-argument mapping *)
  _expand_and_update_additional_forward_args :
    Z → gmap string (Value F) → M World (gmap string (Value F));
  _expand_and_update_target :
    Z → gmap string (Value F) → M World (gmap string (Value F));
  _expand_and_update_baselines :
    list (Tensor F) → Z → gmap string (Value F) → bool →
    M World (gmap string (Value F));
  _expand_and_update_feature_mask :
    Z → gmap string (Value F) → M World (gmap string (Value F));
  (** [captum.attr._utils.common._format_input_baseline] *)
  _format_input_baseline :
    TensorOrTuple F → Value F →
    M World (list (Tensor F) * list (Baseline F));
  (** [captum.attr._utils.common._format_callable_baseline] *)
  _format_callable_baseline :
    BaselineSource → TensorOrTuple F → M World (Value F);
}.
End interfaces.
Arguments Attribution : clear implicits.
Arguments InputBaselineXGradient : clear implicits.
Arguments GradientShap : clear implicits.
Arguments GradientFunc : clear implicits.
Arguments BaselineSource : clear implicits.
Arguments Collaborators : clear implicits.

(** ** noise_tunnel.py *)

Inductive NoiseTunnelType := smoothgrad | smoothgrad_sq | vargrad.

#[global] Instance NoiseTunnelType_eq_dec : EqDecision NoiseTunnelType.
Proof. solve_decision. Defined.

Definition SUPPORTED_NOISE_TUNNEL_TYPES : list string :=
  ["smoothgrad"; "smoothgrad_sq"; "vargrad"]%string.

(** [NoiseTunnelType[name]] *)
Definition NoiseTunnelType_getitem (name : string) : Result NoiseTunnelType :=
  if decide (name = "smoothgrad"%string) then Ok smoothgrad
  else if decide (name = "smoothgrad_sq"%string) then Ok smoothgrad_sq
  else if decide (name = "vargrad"%string) then Ok vargrad
  else Err KeyError.

(** Modelled from the spec: [_validate_noise_tunnel_type] of
    [captum.attr._utils.common], which validates the smoothing mode
    against the enumerated set and fails with InvalidArgument (an
    [AssertionError]) otherwise. *)
Definition _validate_noise_tunnel_type (nt_type : string)
    (supported_noise_tunnel_types : list string) : Result unit :=
  py_assert (bool_decide (nt_type ∈ supported_noise_tunnel_types)).

Section noise_tunnel.
Context {F : Type} `{Scalar F} {World Forward : Type}.
Context `{!Collaborators F World Forward}.

Record NoiseTunnel := {
  attribution_method : Attribution F World Forward;
  is_delta_supported : bool;
  _multiply_by_inputs : bool;
  is_gradient_method : bool;
  nt_forward_func : Forward;
}.

(** [NoiseTunnel.__init__] *)
Definition NoiseTunnel_init (attribution_method : Attribution F World Forward)
  : NoiseTunnel :=
  {| attribution_method := attribution_method;
     is_delta_supported := has_convergence_delta attribution_method;
     _multiply_by_inputs := multiplies_by_inputs attribution_method;
     is_gradient_method := is_GradientAttribution attribution_method;
     nt_forward_func := forward_func attribution_method |}.

(** [NoiseTunnel.multiplies_by_inputs] *)
Definition NoiseTunnel_multiplies_by_inputs (self : NoiseTunnel) : bool :=
  _multiply_by_inputs self.

(** [NoiseTunnel.has_convergence_delta] *)
Definition NoiseTunnel_has_convergence_delta (self : NoiseTunnel) : bool :=
  is_delta_supported self.

(** [NoiseTunnel.attribute_future] *)
Definition NoiseTunnel_attribute_future (self : NoiseTunnel) : Result unit :=
  Err NotImplementedError.

(** The test [self.is_delta_supported and return_convergence_delta]:
    the second operand is only evaluated when the first is true. *)
Definition delta_requested (self : NoiseTunnel)
    (return_convergence_delta : Value F) : Result bool :=
  if is_delta_supported self then truthy return_convergence_delta
  else Ok false.

(** [torch.normal(mean, std)] for a tensor [std], element after element *)
Definition torch_normal (mean : F) (std : Tensor F) : M World (Tensor F) :=
  mapM (mapM (torch_normal1 mean)) std.

(** [add_noise_to_input].  A negative [nt_samples_partition] makes the
    expanded size negative, which torch rejects. *)
Definition add_noise_to_input (input : Tensor F) (stdev : F)
    (nt_samples_partition : Z) : M World (Tensor F) :=
  let bsz := shape0 input in
  if decide (nt_samples_partition < 0) then raise RuntimeError
  else
    let reps := Z.to_nat nt_samples_partition in
    let stdev_expanded :=
      tensor_full (bsz * reps) (tail_size input) stdev in
    noise ← torch_normal fzero stdev_expanded;
    lift (tensor_binop fadd (repeat_interleave reps input) noise).

(** [add_noise_to_inputs].  The local [stdevs_] is [None] while it is
    unbound: the tuple branch checks the length and assigns nothing.
    [requires_grad_()] does not change a tensor's values. *)
Definition add_noise_to_inputs (inputs : list (Tensor F)) (stdevs : Value F)
    (nt_samples_partition : Z) : M World (list (Tensor F)) :=
  stdevs_ ← lift
    match stdevs with
    | VTuple l =>
        _ ← py_assert (bool_decide (length l = length inputs));
        Ok None
    | VFloat x => Ok (Some (replicate (length inputs) x))
    | _ => Err AssertionError
    end;
  stdevs_ ← lift
    match stdevs_ with
    | Some s => Ok s
    | None => Err UnboundLocalError
    end;
  mapM (λ '(input, stdev), add_noise_to_input input stdev nt_samples_partition)
       (zip inputs stdevs_).

(** [update_sum_attribution_and_sq]; the two lists are returned instead
    of being updated in place. *)
Definition update_sum_attribution_and_sq
    (sum_attribution sum_attribution_sq : list (option (Tensor F)))
    (attribution : Tensor F) (i : nat) (nt_samples_batch_size_inter : Z)
  : Result (list (option (Tensor F)) * list (option (Tensor F))) :=
  attribution ← view_replicas nt_samples_batch_size_inter attribution;
  let current_attribution_sum := sum_dim1 attribution in
  let current_attribution_sq :=
    sum_dim1 (map (tensor_map fsquare) attribution) in
  old ← py_index sum_attribution i;
  new ← match old with
        | None => Ok current_attribution_sum
        | Some s => tensor_binop fadd s current_attribution_sum
        end;
  let sum_attribution := <[i := Some new]> sum_attribution in
  old_sq ← py_index sum_attribution_sq i;
  new_sq ← match old_sq with
           | None => Ok current_attribution_sq
           | Some s => tensor_binop fadd s current_attribution_sq
           end;
  Ok (sum_attribution, <[i := Some new_sq]> sum_attribution_sq).

(** [attributions, delta = attributions].  A pair is taken apart, and so
    is a tuple of exactly two tensors; a tuple of another length, and a
    single tensor that has not exactly two slices, is a [ValueError].
    A single tensor of exactly two slices is taken apart into its two
    slices, tensors of one rank less: outside the model. *)
Definition unpack_attributions_delta (out : Output F)
  : Result (TensorOrTuple F * option (Tensor F)) :=
  match out with
  | WithDelta a d => Ok (a, d)
  | Bare (Tuple [a; d]) => Ok (Single a, Some d)
  | Bare (Single [_; _]) => Err OutsideModel
  | Bare _ => Err ValueError
  end.

(** The returned object taken as attributions without unpacking: a pair
    of a tensor and a delta tensor is a tuple of two tensors; a pair
    whose first component is itself a tuple has no [shape]. *)
Definition whole_as_attributions (out : Output F)
  : Result (TensorOrTuple F) :=
  match out with
  | Bare a => Ok a
  | WithDelta (Single a) (Some d) => Ok (Tuple [a; d])
  | WithDelta _ _ => Err AttributeError
  end.

(** [compute_partial_attribution] *)
Definition compute_partial_attribution (self : NoiseTunnel)
    (is_inputs_tuple : bool) (return_convergence_delta : Value F)
    (inputs_with_noise_partition : list (Tensor F))
    (kwargs_partition : gmap string (Value F))
  : M World (list (Tensor F) * bool * option (Tensor F)) :=
  arg ← lift (if is_inputs_tuple then Ok (Tuple inputs_with_noise_partition)
              else Single <$> py_index inputs_with_noise_partition 0);
  attributions ← attribute (attribution_method self) arg kwargs_partition;
  wanted ← lift (delta_requested self return_convergence_delta);
  '(attributions, delta) ← lift
    (if wanted : bool then unpack_attributions_delta attributions
     else a ← whole_as_attributions attributions; Ok (a, None));
  let is_attrib_tuple := _is_tuple attributions in
  let attributions := _format_tensor_into_tuples attributions in
  mret (attributions, is_attrib_tuple, delta).

(** [expand_partial]; the updated mapping is returned. *)
Definition expand_partial (inputs : list (Tensor F))
    (draw_baseline_from_distrib : bool) (nt_samples_partition : Z)
    (kwargs_partial : gmap string (Value F))
  : M World (gmap string (Value F)) :=
  kwargs_partial ← _expand_and_update_additional_forward_args
                     nt_samples_partition kwargs_partial;
  kwargs_partial ← _expand_and_update_target nt_samples_partition kwargs_partial;
  kwargs_partial ← _expand_and_update_baselines inputs nt_samples_partition
                     kwargs_partial draw_baseline_from_distrib;
  _expand_and_update_feature_mask nt_samples_partition kwargs_partial.

(** [compute_smoothing] *)
Definition compute_smoothing (nt_type : string)
    (expected_attributions expected_attributions_sq : list (Tensor F))
  : Result (list (Tensor F)) :=
  t ← NoiseTunnelType_getitem nt_type;
  if decide (t = smoothgrad) then Ok expected_attributions
  else
    t ← NoiseTunnelType_getitem nt_type;
    if decide (t = smoothgrad_sq) then Ok expected_attributions_sq
    else
      mapM (λ '(expected_attribution, expected_attribution_sq),
              sq ← tensor_binop fmul expected_attribution expected_attribution;
              tensor_binop fsub expected_attribution_sq sq)
           (zip expected_attributions expected_attributions_sq).

(** The [enumerate] loop of [update_partial_attribution_and_delta],
    from index [i] on. *)
Fixpoint update_sums_from (i : nat) (attributions_partial : list (Tensor F))
    (sum_attributions sum_attributions_sq : list (option (Tensor F)))
    (nt_samples_partial : Z)
  : Result (list (option (Tensor F)) * list (option (Tensor F))) :=
  match attributions_partial with
  | [] => Ok (sum_attributions, sum_attributions_sq)
  | attribution_partial :: rest =>
      '(s, q) ← update_sum_attribution_and_sq sum_attributions
                  sum_attributions_sq attribution_partial i nt_samples_partial;
      update_sums_from (S i) rest s q nt_samples_partial
  end.

(** [update_partial_attribution_and_delta]; the three lists are returned
    instead of being updated in place. *)
Definition update_partial_attribution_and_delta (self : NoiseTunnel)
    (return_convergence_delta : Value F)
    (attributions_partial : list (Tensor F))
    (delta_partial : option (Tensor F))
    (sum_attributions sum_attributions_sq : list (option (Tensor F)))
    (delta_partial_list : list (option (Tensor F)))
    (nt_samples_partial : Z)
  : Result (list (option (Tensor F)) * list (option (Tensor F))
            * list (option (Tensor F))) :=
  '(s, q) ← update_sums_from 0 attributions_partial sum_attributions
              sum_attributions_sq nt_samples_partial;
  wanted ← delta_requested self return_convergence_delta;
  Ok (s, q, if wanted : bool then delta_partial_list ++ [delta_partial]
            else delta_partial_list).

(** [_apply_checks_and_return_attributions] *)
Definition _apply_checks_and_return_attributions (self : NoiseTunnel)
    (attributions : list (Tensor F)) (is_attrib_tuple : bool)
    (return_convergence_delta : Value F) (delta : option (Tensor F))
  : Result (Output F) :=
  attributions ← _format_output is_attrib_tuple attributions;
  wanted ← delta_requested self return_convergence_delta;
  Ok (if wanted : bool then WithDelta attributions delta
      else Bare attributions).

(** The locals of [attribute] that the sub-batches update.
    [is_attrib_tuple] is [None] while it is unbound. *)
Record Locals := {
  sum_attributions : list (option (Tensor F));
  sum_attributions_sq : list (option (Tensor F));
  delta_partial_list : list (option (Tensor F));
  is_attrib_tuple : option bool;
}.

(** The body of [for _ in range(nt_samples_partition)]. *)
Definition whole_batch (self : NoiseTunnel) (is_inputs_tuple : bool)
    (return_convergence_delta : Value F) (inputs : list (Tensor F))
    (stdevs : Value F) (nt_samples_batch_size : Z)
    (kwargs_copy : gmap string (Value F)) (st : Locals) : M World Locals :=
  inputs_with_noise ← add_noise_to_inputs inputs stdevs nt_samples_batch_size;
  '(attributions_partial, is_attrib_tuple, delta_partial) ←
    compute_partial_attribution self is_inputs_tuple return_convergence_delta
      inputs_with_noise kwargs_copy;
  let '(sums, sums_sq) :=
    if decide (length (sum_attributions st) = 0%nat)
    then (replicate (length attributions_partial) None,
          replicate (length attributions_partial) None)
    else (sum_attributions st, sum_attributions_sq st) in
  '(sums, sums_sq, deltas) ← lift
    (update_partial_attribution_and_delta self return_convergence_delta
       attributions_partial delta_partial sums sums_sq
       (delta_partial_list st) nt_samples_batch_size);
  mret {| sum_attributions := sums; sum_attributions_sq := sums_sq;
          delta_partial_list := deltas;
          is_attrib_tuple := Some is_attrib_tuple |}.

(** The body of [if nt_samples_remaining > 0]. *)
Definition remaining_batch (self : NoiseTunnel) (is_inputs_tuple : bool)
    (return_convergence_delta : Value F) (inputs : list (Tensor F))
    (stdevs : Value F) (draw_baseline_from_distrib : bool)
    (nt_samples_remaining : Z)
    (kwargs : gmap string (Value F)) (st : Locals) : M World Locals :=
  inputs_with_noise ← add_noise_to_inputs inputs stdevs nt_samples_remaining;
  kwargs ← expand_partial inputs draw_baseline_from_distrib
             nt_samples_remaining kwargs;
  '(attributions_partial, is_attrib_tuple, delta_partial) ←
    compute_partial_attribution self is_inputs_tuple return_convergence_delta
      inputs_with_noise kwargs;
  '(sums, sums_sq, deltas) ← lift
    (update_partial_attribution_and_delta self return_convergence_delta
       attributions_partial delta_partial (sum_attributions st)
       (sum_attributions_sq st) (delta_partial_list st) nt_samples_remaining);
  mret {| sum_attributions := sums; sum_attributions_sq := sums_sq;
          delta_partial_list := deltas;
          is_attrib_tuple := Some is_attrib_tuple |}.

(** [cast(Tensor, s) * 1 / nt_samples] for every accumulator *)
Definition expected_of (nt_samples : Z) (sums : list (option (Tensor F)))
  : Result (list (Tensor F)) :=
  mapM (λ s : option (Tensor F),
          match s with
          | Some t =>
              Ok (tensor_map
                    (λ x, fdiv (fmul x (fof_Z 1)) (fof_Z nt_samples)) t)
          | None => Err TypeError
          end) sums.

(** The sub-batch size [attribute] works with:
    [nt_samples if nt_samples_batch_size is None
     else min(nt_samples, nt_samples_batch_size)]. *)
Definition sub_batch_size (nt_samples : Z) (nt_samples_batch_size : option Z)
  : Z :=
  match nt_samples_batch_size with
  | None => nt_samples
  | Some s => Z.min nt_samples s
  end.

(** Everything [attribute] does up to the end of the sub-batches: the
    sample counts, the validation of [nt_type], and the trials. *)
Definition run_trials (self : NoiseTunnel) (inputs : TensorOrTuple F)
    (nt_type : string) (nt_samples : Z) (nt_samples_batch_size : option Z)
    (stdevs : Value F) (draw_baseline_from_distrib : bool)
    (return_convergence_delta : Value F)
    (kwargs : gmap string (Value F)) : M World Locals :=
  let nt_samples_batch_size :=
    sub_batch_size nt_samples nt_samples_batch_size in
  nt_samples_partition ← lift (py_floordiv nt_samples nt_samples_batch_size);
  let is_inputs_tuple := _is_tuple inputs in
  let inputs := _format_tensor_into_tuples inputs in
  _ ← lift (_validate_noise_tunnel_type nt_type SUPPORTED_NOISE_TUNNEL_TYPES);
  let kwargs_copy := kwargs in
  kwargs_copy ← expand_partial inputs draw_baseline_from_distrib
                  nt_samples_batch_size kwargs_copy;
  st ← for_range (Z.to_nat nt_samples_partition)
         (whole_batch self is_inputs_tuple return_convergence_delta inputs
            stdevs nt_samples_batch_size kwargs_copy)
         {| sum_attributions := []; sum_attributions_sq := [];
            delta_partial_list := []; is_attrib_tuple := None |};
  let nt_samples_remaining :=
    nt_samples - nt_samples_partition * nt_samples_batch_size in
  if decide (nt_samples_remaining > 0)
  then remaining_batch self is_inputs_tuple return_convergence_delta inputs
         stdevs draw_baseline_from_distrib nt_samples_remaining kwargs st
  else mret st.

(** The end of [attribute], after the sub-batches: the means, the
    smoothing, the concatenated delta and the returned object. *)
Definition smooth_and_return (self : NoiseTunnel) (nt_type : string)
    (nt_samples : Z) (return_convergence_delta : Value F) (st : Locals)
  : Result (Output F) :=
  expected_attributions ← expected_of nt_samples (sum_attributions st);
  expected_attributions_sq ← expected_of nt_samples (sum_attributions_sq st);
  attributions ← compute_smoothing nt_type expected_attributions
                   expected_attributions_sq;
  wanted ← delta_requested self return_convergence_delta;
  delta ← (if wanted : bool
           then ds ← mapM (λ d : option (Tensor F),
                             match d with
                             | Some t => Ok t
                             | None => Err TypeError
                             end) (delta_partial_list st);
                Some <$> torch_cat ds
           else Ok None);
  is_attrib_tuple ← match is_attrib_tuple st with
                    | Some b => Ok b
                    | None => Err UnboundLocalError
                    end;
  _apply_checks_and_return_attributions self attributions is_attrib_tuple
    return_convergence_delta delta.

(** The value of the local [return_convergence_delta]:
    ["return_convergence_delta" in kwargs and kwargs[...]]. *)
Definition return_convergence_delta_of (kwargs : gmap string (Value F))
  : Value F :=
  match kwargs !! "return_convergence_delta"%string with
  | Some v => v
  | None => VBool false
  end.

(** [NoiseTunnel.attribute] *)
Definition NoiseTunnel_attribute (self : NoiseTunnel)
    (inputs : TensorOrTuple F) (nt_type : string) (nt_samples : Z)
    (nt_samples_batch_size : option Z) (stdevs : Value F)
    (draw_baseline_from_distrib : bool) (kwargs : gmap string (Value F))
  : M World (Output F) :=
  let return_convergence_delta := return_convergence_delta_of kwargs in
  st ← run_trials self inputs nt_type nt_samples nt_samples_batch_size stdevs
         draw_baseline_from_distrib return_convergence_delta kwargs;
  lift (smooth_and_return self nt_type nt_samples return_convergence_delta st).

(** Two accumulators of one shape, or both still unset. *)
Definition paired (a b : option (Tensor F)) : Prop :=
  match a, b with
  | Some s, Some q => length <$> s = length <$> q
  | None, None => True
  | _, _ => False
  end.

(** The two accumulator lists of [attribute] agree in shape. *)
Definition paired_locals (st : Locals) : Prop :=
  Forall2 paired (sum_attributions st) (sum_attributions_sq st).

(** The locals of [attribute] after a single sub-batch of one replica in
    which the wrapped method returned [out]. *)
Definition after_single_trial (out : Output F) : Locals :=
  {| sum_attributions :=
       Some <$> _format_tensor_into_tuples (attributions_of out);
     sum_attributions_sq :=
       Some ∘ tensor_map fsquare
         <$> _format_tensor_into_tuples (attributions_of out);
     delta_partial_list :=
       match out with Bare _ => [] | WithDelta _ d => [d] end;
     is_attrib_tuple := Some (_is_tuple (attributions_of out)) |}.
(** The slices of the attribution tensor [a] that belong to example
    [e], when [a] holds [k] consecutive trials per example. *)
Definition example_trials (k e : nat) (a : Tensor F) : Tensor F :=
  take k (drop (e * k) a).

(** The value an accumulator holds for one example after the
    sub-batches whose trials for that example are [blocks], in order:
    [f] of the first block, then for every further block the old value
    plus [f] of the block.  [f] is the sum of the trials of the block,
    or of their squares. *)
Definition running_sum (f : Tensor F → list F) (blocks : list (Tensor F))
  : option (list F) :=
  foldl (λ acc b, Some match acc with
                       | None => f b
                       | Some r => zip_with fadd r (f b)
                       end) None blocks.

(** [aps] and [delta] are the result of one sub-batch of [k] trials:
    the wrapped method was called on the inputs with [k] noisy replicas
    per example, and what it returned was taken apart into the
    attributions [aps] and the delta. *)
Definition sub_batch_result (self : NoiseTunnel)
    (is_inputs_tuple : bool)
    (return_convergence_delta : Value F) (inputs : list (Tensor F))
    (stdevs : Value F) (k : Z) (aps : list (Tensor F))
    (delta : option (Tensor F)) : Prop :=
  ∃ (w1 w2 w3 w4 : World) (noisy : list (Tensor F)) (arg : TensorOrTuple F)
    (kw : gmap string (Value F)) (out : Output F) (wanted : bool)
    (a : TensorOrTuple F),
    add_noise_to_inputs inputs stdevs k w1 = (Ok noisy, w2)
    ∧ (if is_inputs_tuple then Ok (Tuple noisy)
       else Single <$> py_index noisy 0) = Ok arg
    ∧ attribute (attribution_method self) arg kw w3 = (Ok out, w4)
    ∧ delta_requested self return_convergence_delta = Ok wanted
    ∧ (if wanted then unpack_attributions_delta out
       else a ← whole_as_attributions out; Ok (a, None)) = Ok (a, delta)
    ∧ aps = _format_tensor_into_tuples a.

(** The two accumulator lists hold the trials of the sub-batches of
    sizes [sizes] whose attributions were [parts]: for every slot [j]
    that every sub-batch has a tensor for, the slot has one slice per
    example (the tensor of a sub-batch of size [k] has [k] slices per
    example), and for every example [e] the sub-batch of size [k]
    contributes exactly [k] trials, and the slot holds the running sum
    of the trials, resp. of their squares. *)
Definition trials_folded (sizes : list Z) (parts : list (list (Tensor F)))
    (sums sums_sq : list (option (Tensor F))) : Prop :=
  ∀ j : nat, parts ≠ [] → Forall (λ aps, is_Some (aps !! j)) parts →
    ∃ t q : Tensor F,
      sums !! j = Some (Some t) ∧ sums_sq !! j = Some (Some q)
      ∧ length q = length t
      ∧ Forall2 (λ k aps, ∀ a, aps !! j = Some a →
                            length a = (length t * Z.to_nat k)%nat)
          sizes parts
      ∧ ∀ e : nat, (e < length t)%nat →
          let trials :=
            zip_with (λ k aps, example_trials (Z.to_nat k) e
                                 (default [] (aps !! j))) sizes parts in
          Forall2 (λ k b, length b = Z.to_nat k) sizes trials
          ∧ t !! e = running_sum sum_block trials
          ∧ q !! e = running_sum (λ b, sum_block (tensor_map fsquare b))
                       trials.

(** The locals of [attribute] after the sub-batches of sizes [sizes]
    whose results were [parts]. *)
Definition trials_traced (self : NoiseTunnel)
    (is_inputs_tuple : bool)
    (return_convergence_delta : Value F) (inputs : list (Tensor F))
    (stdevs : Value F) (sizes : list Z)
    (parts : list (list (Tensor F) * option (Tensor F))) (st : Locals)
  : Prop :=
  Forall2 (λ k p, sub_batch_result self is_inputs_tuple
                    return_convergence_delta inputs stdevs k p.1 p.2)
    sizes parts
  ∧ (parts = [] →
     sum_attributions st = [] ∧ sum_attributions_sq st = [])
  ∧ trials_folded sizes (fst <$> parts) (sum_attributions st)
      (sum_attributions_sq st)
  ∧ ∀ wanted : bool,
      delta_requested self return_convergence_delta = Ok wanted →
      delta_partial_list st = if wanted then snd <$> parts else [].
End noise_tunnel.
Arguments NoiseTunnel : clear implicits.
Arguments Locals : clear implicits.

(** ** gradient_shap.py *)

Section gradient_shap.
Context {F : Type} `{Scalar F} {World Forward : Type}.
Context `{!Collaborators F World Forward}.

(** One slice of a baseline against a slice of [m] elements of its
    input, as torch's broadcasting sees it: the slice itself when it has
    [m] elements, its element repeated when it has one.  A slice of
    another size is outside the model (torch repeats the input's
    element when the input has one, and raises otherwise). *)
Definition expand_slice (m : nat) (s : list F) : Result (list F) :=
  if decide (length s = m) then Ok s
  else match s with
       | [y] => Ok (replicate m y)
       | _ => Err OutsideModel
       end.

(** A baseline against its [input], as torch's broadcasting sees it in
    [... * baseline] and [input - baseline], where the result has the
    shape of the input: a constant fills the shape; a tensor with as
    many examples as the input is taken example by example, and a
    tensor of one example is repeated along the example axis, each
    slice as [expand_slice] has it.  Numbers of examples that differ
    and are both other than one make torch raise [RuntimeError]; an
    input of one example against a baseline of several (torch repeats
    the input) is outside the model. *)
Definition broadcast_baseline (input : Tensor F) (baseline : Baseline F)
  : Result (Tensor F) :=
  match baseline with
  | BScalar x => Ok (tensor_map (λ _, x) input)
  | BTensor t =>
      if decide (length t = length input) then
        mapM (λ '(r, s), expand_slice (length r) s) (zip input t)
      else match t with
           | [s] => mapM (λ r, expand_slice (length r) s) input
           | _ => if decide (length input = 1%nat) then Err OutsideModel
                  else Err RuntimeError
           end
  end.

(** [c.view((bsz, 1, ..., 1)) * t]: slice [i] of [t] times [c[i]] *)
Definition scale_examples (c : list F) (t : Tensor F) : Tensor F :=
  zip_with (λ ci row, map (fmul ci) row) c t.

(** [_scale_input] *)
Definition _scale_input (input : Tensor F) (baseline : Baseline F)
    (rand_coefficient : list F) : Result (Tensor F) :=
  let bsz := shape0 input in
  if decide (length rand_coefficient = bsz) then
    baseline ← broadcast_baseline input baseline;
    tensor_binop fadd
      (scale_examples rand_coefficient input)
      (scale_examples (map (fsub fone) rand_coefficient) baseline)
  else Err RuntimeError.

(** [np.random.uniform(low, high, n)] *)
Definition np_random_uniform (low high : F) (n : nat) : M World (list F) :=
  mapM (λ _ : unit, draw (np_random_uniform1 low high)) (replicate n tt).

(** [InputBaselineXGradient.__init__]; [GradientAttribution.__init__]
    sets [gradient_func] to [compute_gradients]. *)
Definition InputBaselineXGradient_init (forward_func : Forward)
    (multiply_by_inputs : bool) : InputBaselineXGradient F World Forward :=
  {| ibxg_forward_func := forward_func;
     ibxg_gradient_func := compute_gradients;
     ibxg_multiply_by_inputs := multiply_by_inputs |}.

(** Modelled from the spec: [_compute_conv_delta_and_format_attrs] of
    [captum.attr._utils.common], the convergence-delta helper, which
    returns the reformatted attributions with the delta when the delta
    is requested, and the reformatted attributions otherwise. *)
Definition _compute_conv_delta_and_format_attrs
    (attr_algo : InputBaselineXGradient F World Forward)
    (return_convergence_delta : Value F) (attributions : list (Tensor F))
    (start_point : list (Baseline F)) (end_point : list (Tensor F))
    (additional_forward_args target : Value F) (is_inputs_tuple : bool)
  : M World (Output F) :=
  wanted ← lift (truthy return_convergence_delta);
  if wanted : bool then
    delta ← compute_convergence_delta attr_algo attributions start_point
              end_point additional_forward_args target;
    a ← lift (_format_output is_inputs_tuple attributions);
    mret (WithDelta a delta)
  else
    a ← lift (_format_output is_inputs_tuple attributions);
    mret (Bare a).

(** [input - baseline] *)
Definition input_minus_baseline (input : Tensor F) (baseline : Baseline F)
  : Result (Tensor F) :=
  baseline ← broadcast_baseline input baseline;
  tensor_binop fsub input baseline.

(** [InputBaselineXGradient.attribute] *)
Definition InputBaselineXGradient_attribute
    (self : InputBaselineXGradient F World Forward)
    (inputs : TensorOrTuple F) (baselines target : Value F)
    (additional_forward_args return_convergence_delta : Value F)
  : M World (Output F) :=
  let is_inputs_tuple := _is_tuple inputs in
  '(inputs, baselines) ← _format_input_baseline inputs baselines;
  first ← lift (py_index inputs 0);
  rand_coefficient ← np_random_uniform fzero fone (shape0 first);
  input_baseline_scaled ← lift
    (mapM (λ '(input, baseline), _scale_input input baseline rand_coefficient)
          (zip inputs baselines));
  grads ← ibxg_gradient_func self (ibxg_forward_func self)
            input_baseline_scaled target additional_forward_args;
  attributions ← lift
    (if ibxg_multiply_by_inputs self then
       input_baseline_diffs ←
         mapM (λ '(input, baseline), input_minus_baseline input baseline)
              (zip inputs baselines);
       mapM (λ '(input_baseline_diff, grad),
               tensor_binop fmul input_baseline_diff grad)
            (zip input_baseline_diffs grads)
     else Ok grads);
  _compute_conv_delta_and_format_attrs self return_convergence_delta
    attributions baselines inputs additional_forward_args target
    is_inputs_tuple.

(** The parameters [attribute] of [InputBaselineXGradient] accepts by
    keyword. *)
Definition InputBaselineXGradient_keywords : gset string :=
  {[ "baselines"; "target"; "additional_forward_args";
     "return_convergence_delta" ]}%string.

(** [InputBaselineXGradient.attribute.__wrapped__(self, inputs, **kwargs)]:
    an unknown keyword is a [TypeError], a missing one takes its default. *)
Definition InputBaselineXGradient_call
    (self : InputBaselineXGradient F World Forward)
    (inputs : TensorOrTuple F) (kwargs : gmap string (Value F))
  : M World (Output F) :=
  if decide (dom kwargs ⊆ InputBaselineXGradient_keywords) then
    InputBaselineXGradient_attribute self inputs
      (default VNone (kwargs !! "baselines"%string))
      (default VNone (kwargs !! "target"%string))
      (default VNone (kwargs !! "additional_forward_args"%string))
      (default (VBool false) (kwargs !! "return_convergence_delta"%string))
  else raise TypeError.

(** An [InputBaselineXGradient] object as [NoiseTunnel] sees it. *)
Definition InputBaselineXGradient_as_Attribution
    (self : InputBaselineXGradient F World Forward)
  : Attribution F World Forward :=
  {| forward_func := ibxg_forward_func self;
     attribute := InputBaselineXGradient_call self;
     has_convergence_delta := true;
     multiplies_by_inputs := ibxg_multiply_by_inputs self;
     is_GradientAttribution := true |}.

(** [InputBaselineXGradient.attribute_future] *)
Definition InputBaselineXGradient_attribute_future
    (self : InputBaselineXGradient F World Forward) : Result unit :=
  Err NotImplementedError.

(** [GradientShap.__init__] *)
Definition GradientShap_init (forward_func : Forward)
    (multiply_by_inputs : bool) : GradientShap F World Forward :=
  {| gs_forward_func := forward_func;
     gs_gradient_func := compute_gradients;
     gs_multiply_by_inputs := multiply_by_inputs |}.

(** [baselines[0]] followed by [isinstance(_, torch.Tensor)] *)
Definition first_is_tensor (baselines : Value F) : Result bool :=
  match baselines with
  | VTuple l =>
      b ← py_index l 0;
      Ok (match b with VTensor _ => true | _ => false end)
  | VTensor t => _ ← py_index t 0; Ok true
  | _ => Err TypeError
  end.

(** The attribution method [GradientShap.attribute] builds: a new
    [InputBaselineXGradient] whose [gradient_func] is then set to the
    one of [self]. *)
Definition input_min_baseline_x_grad (self : GradientShap F World Forward)
  : InputBaselineXGradient F World Forward :=
  let fresh :=
    InputBaselineXGradient_init (gs_forward_func self)
      (gs_multiply_by_inputs self) in
  {| ibxg_forward_func := ibxg_forward_func fresh;
     ibxg_gradient_func := gs_gradient_func self;
     ibxg_multiply_by_inputs := ibxg_multiply_by_inputs fresh |}.

(** [GradientShap.attribute] *)
Definition GradientShap_attribute (self : GradientShap F World Forward)
    (inputs : TensorOrTuple F) (baselines : BaselineSource F World)
    (n_samples : Z) (stdevs target : Value F)
    (additional_forward_args return_convergence_delta : Value F)
  : M World (Output F) :=
  baselines ← _format_callable_baseline baselines inputs;
  is_tensor ← lift (first_is_tensor baselines);
  _ ← lift (py_assert is_tensor);
  let nt := NoiseTunnel_init
              (InputBaselineXGradient_as_Attribution
                 (input_min_baseline_x_grad self)) in
  NoiseTunnel_attribute nt inputs "smoothgrad" n_samples None stdevs true
    (<["baselines"%string := baselines]>
       (<["target"%string := target]>
          (<["additional_forward_args"%string := additional_forward_args]>
             (<["return_convergence_delta"%string :=
                  return_convergence_delta]> ∅)))).

(** [GradientShap.attribute_future] *)
Definition GradientShap_attribute_future
    (self : GradientShap F World Forward) : Result unit :=
  Err NotImplementedError.
End gradient_shap.

(** ** A concrete instance: rational scalars and a counting attributor

    Used to run the model on concrete inputs. *)

Module Toy.

#[global] Instance Q_Scalar : Scalar Q := {|
  fzero := 0%Q;
  fone := 1%Q;
  fadd := Qplus;
  fsub := Qminus;
  fmul := Qmult;
  fdiv := Qdiv;
  fof_Z := inject_Z;
  fnonzero := λ x, negb (Qeq_bool x 0%Q);
|}.

(** The world of the toy runs: a seed for the random draws, and the log
    of the calls to the wrapped attribution method (the number of slices
    of the first input tensor of each call). *)
Record World := {
  seed : Z;
  calls : list nat;
}.

Definition next_seed (w : World) : World :=
  {| seed := seed w + 1; calls := calls w |}.

Definition log_call (n : nat) (w : World) : World :=
  {| seed := seed w; calls := calls w ++ [n] |}.

(** A deterministic stand-in for [torch.normal]: [mean + std * seed],
    and an error for a negative [std]. *)
Definition normal1 (mean std : Q) : M World Q :=
  λ w, if Qle_bool 0%Q std
       then (Ok (Qred (mean + std * inject_Z (seed w))%Q), next_seed w)
       else (Err RuntimeError, w).

(** A deterministic stand-in for [np.random.uniform]: alternately a
    quarter and three quarters of the way from [low] to [high]. *)
Definition uniform1 (low high : Q) (w : World) : Q * World :=
  (Qred (low + (high - low) * (if Z.even (seed w) then 1 # 4 else 3 # 4))%Q,
   next_seed w).

(** The gradient of [forward(x) = sum(x)]: ones. *)
Definition ones_gradients : GradientFunc Q World unit :=
  λ _ points _ _, mret (map (tensor_map (λ _, 1%Q)) points).

Definition format_baseline1 (v : Value Q) : Result (Baseline Q) :=
  match v with
  | VTensor t => Ok (BTensor t)
  | VFloat x => Ok (BScalar x)
  | VInt z => Ok (BScalar (inject_Z z))
  | _ => Err AssertionError
  end.

Definition format_input_baseline (inputs : TensorOrTuple Q)
    (baselines : Value Q) : M World (list (Tensor Q) * list (Baseline Q)) :=
  let inputs := _format_tensor_into_tuples inputs in
  bs ← lift match baselines with
            | VNone => Ok (map (λ _, BScalar 0%Q) inputs)
            | VTuple l => mapM format_baseline1 l
            | v => b ← format_baseline1 v; Ok [b]
            end;
  mret (inputs, bs).

Definition format_callable_baseline (baselines : BaselineSource Q World)
    (inputs : TensorOrTuple Q) : M World (Value Q) :=
  v ← match baselines with
      | BaselineValue v => mret v
      | BaselineFn0 f => f
      | BaselineFn1 f => f inputs
      end;
  mret (match v with VTuple _ => v | _ => VTuple [v] end).

(** Baseline expansion: with [draw_baseline_from_distrib], example number
    [(seed + j) mod R] of the pool for slice [j]; otherwise a baseline
    with one slice per example is repeated like the inputs. *)
Definition expand_baseline (inputs : list (Tensor Q)) (n : nat)
    (draw_baseline_from_distrib : bool) (s : Z) (v : Value Q) : Value Q :=
  match v with
  | VTensor t =>
      let bsz := match inputs with [] => 0%nat | x :: _ => shape0 x end in
      if draw_baseline_from_distrib then
        VTensor (omap (λ j, t !! Z.to_nat ((s + Z.of_nat j)
                                            `mod` Z.of_nat (length t)))
                      (seq 0 (n * bsz)))
      else if decide (length t = bsz ∧ (1 < length t)%nat)
           then VTensor (repeat_interleave n t)
           else v
  | _ => v
  end.

Definition expand_and_update_baselines (inputs : list (Tensor Q)) (n : Z)
    (kwargs : gmap string (Value Q)) (draw_baseline_from_distrib : bool)
  : M World (gmap string (Value Q)) :=
  λ w,
    match kwargs !! "baselines"%string with
    | Some (VTuple l) =>
        (Ok (<["baselines"%string :=
                 VTuple (map (expand_baseline inputs (Z.to_nat n)
                                draw_baseline_from_distrib (seed w)) l)]>
               kwargs),
         if draw_baseline_from_distrib then next_seed w else w)
    | _ => (Ok kwargs, w)
    end.

#[global] Instance toy_collaborators : Collaborators Q World unit := {|
  torch_normal1 := normal1;
  np_random_uniform1 := uniform1;
  compute_gradients := ones_gradients;
  compute_convergence_delta := λ _ _ _ inputs _ _,
    mret (Some (map (λ _, [0%Q])
                    (match inputs with [] => [] | x :: _ => x end)));
  _expand_and_update_additional_forward_args := λ _ kwargs, mret kwargs;
  _expand_and_update_target := λ _ kwargs, mret kwargs;
  _expand_and_update_baselines := expand_and_update_baselines;
  _expand_and_update_feature_mask := λ _ kwargs, mret kwargs;
  _format_input_baseline := format_input_baseline;
  _format_callable_baseline := format_callable_baseline;
|}.

(** A counting attributor: it logs the call, and returns its inputs as
    attributions, with a zero delta per slice when
    [return_convergence_delta=True] is passed. *)
Definition counting_attribute (inputs : TensorOrTuple Q)
    (kwargs : gmap string (Value Q)) : M World (Output Q) :=
  λ w,
    let n := match _format_tensor_into_tuples inputs with
             | [] => 0%nat
             | x :: _ => shape0 x
             end in
    (Ok (match kwargs !! "return_convergence_delta"%string with
         | Some (VBool true) => WithDelta inputs (Some (replicate n [0%Q]))
         | _ => Bare inputs
         end),
     log_call n w).

Definition counting_attributor : Attribution Q World unit :=
  {| forward_func := tt;
     attribute := counting_attribute;
     has_convergence_delta := true;
     multiplies_by_inputs := false;
     is_GradientAttribution := false |}.

Definition w0 : World := {| seed := 0; calls := [] |}.

(** One input tensor with two examples of three features. *)
Definition x23 : Tensor Q := [[1; 2; 3]; [4; 5; 6]]%Q.

(** Keyword arguments asking for the convergence delta. *)
Definition rcd_true : gmap string (Value Q) :=
  <["return_convergence_delta"%string := VBool true]> ∅.

(** A baseline of one example, broadcast along the example axis. *)
Definition zeros13 : Tensor Q := [[0; 1; 0]]%Q.

(** A pool of four all-zero baseline examples. *)
Definition pool43 : Tensor Q :=
  [[0; 0; 0]; [0; 0; 0]; [0; 0; 0]; [0; 0; 0]]%Q.

(** Two all-ones examples of three features. *)
Definition ones23 : Tensor Q := [[1; 1; 1]; [1; 1; 1]]%Q.

(** Integer scalars, on which [0 * x = 0], [1 * x = x] and [x + 0 = x]
    hold as equalities of values: used to run the interpolation of
    [_scale_input] on concrete inputs. *)
Definition Z_Scalar : Scalar Z := {|
  fzero := 0;
  fone := 1;
  fadd := Z.add;
  fsub := Z.sub;
  fmul := Z.mul;
  fdiv := Z.div;
  fof_Z := id;
  fnonzero := λ x, negb (x =? 0);
|}.

End Toy.

(** * Properties *)

(** ** The monads *)

Section monad_facts.
Context {World : Type}.

Lemma bind_ok {A B} (m : M World A) (f : A → M World B) w a w' :
  m w = (Ok a, w') → (m ≫= f) w = f a w'.
Proof. intros Hm. unfold mbind, M_bind. by rewrite Hm. Qed.

Lemma bind_err {A B} (m : M World A) (f : A → M World B) w e w' :
  m w = (Err e, w') → (m ≫= f) w = (Err e, w').
Proof. intros Hm. unfold mbind, M_bind. by rewrite Hm. Qed.

Lemma bind_lift_ok {A B} (a : A) (f : A → M World B) w :
  (lift (Ok a) ≫= f) w = f a w.
Proof. reflexivity. Qed.

Lemma bind_lift_err {A B} e (f : A → M World B) w :
  (lift (Err e) ≫= f) w = (Err e, w).
Proof. reflexivity. Qed.

Lemma bind_inv_ok {A B} (m : M World A) (f : A → M World B) w b w'' :
  (m ≫= f) w = (Ok b, w'') →
  ∃ a w', m w = (Ok a, w') ∧ f a w' = (Ok b, w'').
Proof.
  unfold mbind, M_bind. destruct (m w) as [[a|e] w'] eqn:Hm; intros Hf.
  - by exists a, w'.
  - discriminate.
Qed.

Lemma Result_bind_inv_ok {A B} (r : Result A) (f : A → Result B) b :
  r ≫= f = Ok b → ∃ a, r = Ok a ∧ f a = Ok b.
Proof. destruct r as [a|e]; [by exists a | discriminate]. Qed.

Lemma lift_inv_ok {A} (r : Result A) (w w' : World) a :
  lift r w = (Ok a, w') → r = Ok a ∧ w' = w.
Proof. unfold lift. by intros [= -> ->]. Qed.

Lemma mapM_M_length {A B} (f : A → M World B) (l : list A) w l' w' :
  mapM f l w = (Ok l', w') → length l' = length l.
Proof.
  revert w l' w'. induction l as [|x l IH]; intros w l' w' Hm.
  - by injection Hm as <- _.
  - cbn [mapM] in Hm.
    apply bind_inv_ok in Hm as (y & w1 & _ & Hm).
    apply bind_inv_ok in Hm as (k & w2 & Hk & Hm).
    injection Hm as <- _. simpl. f_equal. by eapply IH.
Qed.

Lemma mapM_M_Forall2 {A B} (P : A → B → Prop) (f : A → M World B)
    (l : list A) w l' w' :
  (∀ x y w1 w2, f x w1 = (Ok y, w2) → P x y) →
  mapM f l w = (Ok l', w') → Forall2 P l l'.
Proof.
  intros Hf. revert w l' w'. induction l as [|x l IH]; intros w l' w' Hm.
  - injection Hm as <- _. constructor.
  - cbn [mapM] in Hm.
    apply bind_inv_ok in Hm as (y & w1 & Hy & Hm).
    apply bind_inv_ok in Hm as (k & w2 & Hk & Hm).
    injection Hm as <- _. constructor; [by eapply Hf | by eapply IH].
Qed.

Lemma mapM_M_ok {A B} (f : A → M World B) (g : A → B) (l : list A) :
  (∀ x, x ∈ l → ∀ w, ∃ w', f x w = (Ok (g x), w')) →
  ∀ w, ∃ w', mapM f l w = (Ok (map g l), w').
Proof.
  induction l as [|x l IH]; intros Hf w.
  - by exists w.
  - destruct (Hf x (list_elem_of_here _ _) w) as [w1 Hx].
    destruct (IH (λ y Hy, Hf y (list_elem_of_further _ _ _ Hy)) w1)
      as [w2 Hl].
    exists w2. cbn [mapM]. rewrite (bind_ok _ _ _ _ _ Hx).
    by rewrite (bind_ok _ _ _ _ _ Hl).
Qed.

Lemma for_range_invariant {St} (P : St → Prop) (body : St → M World St)
    (n : nat) (st st' : St) (w w' : World) :
  (∀ s s' w1 w2, P s → body s w1 = (Ok s', w2) → P s') →
  P st → for_range n body st w = (Ok st', w') → P st'.
Proof.
  intros Hbody. revert st w. induction n as [|n IH]; intros st w Hst Hf.
  - by injection Hf as <- _.
  - cbn [for_range] in Hf.
    apply bind_inv_ok in Hf as (s1 & w1 & Hs1 & Hf).
    eapply IH; [|exact Hf]. by eapply Hbody.
Qed.
End monad_facts.

Section result_facts.

Lemma mapM_Result_ok {A B} (f : A → Result B) (g : A → B) (l : list A) :
  (∀ x, x ∈ l → f x = Ok (g x)) → mapM f l = Ok (map g l).
Proof.
  induction l as [|x l IH]; intros Hf; [done|].
  cbn [mapM]. rewrite Hf by apply list_elem_of_here.
  cbn [mbind Result_bind]. rewrite IH; [done|].
  intros y Hy. apply Hf. by apply list_elem_of_further.
Qed.

Lemma mapM_Result_Forall2 {A B} (f : A → Result B) (l : list A)
    (l' : list B) :
  mapM f l = Ok l' ↔ Forall2 (λ x y, f x = Ok y) l l'.
Proof.
  revert l'. induction l as [|x l IH]; intros l'; split.
  - intros [= <-]. constructor.
  - by intros ->%Forall2_nil_inv_l.
  - cbn [mapM]. intros Hm.
    apply Result_bind_inv_ok in Hm as (y & Hy & Hm).
    apply Result_bind_inv_ok in Hm as (k & Hk & [= <-]).
    constructor; [done|]. by apply IH.
  - intros (y & k & Hy & Hk & ->)%Forall2_cons_inv_l.
    cbn [mapM]. rewrite Hy. cbn [mbind Result_bind].
    apply IH in Hk. by rewrite Hk.
Qed.

Lemma mapM_Result_total {A B} (f : A → Result B) (l : list A) :
  (∀ x, x ∈ l → ∃ y, f x = Ok y) → ∃ l', mapM f l = Ok l'.
Proof.
  induction l as [|x l IH]; intros Hf; [by exists []|].
  destruct (Hf x) as [y Hy]; [apply list_elem_of_here|].
  destruct IH as [l' Hl'].
  { intros z Hz. apply Hf. by apply list_elem_of_further. }
  exists (y :: l'). cbn [mapM]. rewrite Hy. cbn [mbind Result_bind].
  by rewrite Hl'.
Qed.

Lemma zip_with_comm {A B} (f : A → A → B) :
  (∀ a b, f a b = f b a) → ∀ l k, zip_with f l k = zip_with f k l.
Proof.
  intros Hf l. induction l as [|a l IH]; intros [|b k]; try done.
  cbn [zip_with]. by rewrite Hf, IH.
Qed.
End result_facts.

(** ** Tensors *)

Section tensor_facts.
Context {F : Type} `{Scalar F}.

Lemma same_shape_true (a b : Tensor F) :
  same_shape a b = true ↔ length <$> a = length <$> b.
Proof. unfold same_shape. apply bool_decide_eq_true. Qed.

Lemma tensor_binop_ok (op : F → F → F) (a b : Tensor F) :
  length <$> a = length <$> b →
  tensor_binop op a b = Ok (zip_with (zip_with op) a b).
Proof.
  intros Hs. unfold tensor_binop. by rewrite (proj2 (same_shape_true a b)).
Qed.

Lemma shape_zip_with (op : F → F → F) (a b : Tensor F) :
  length <$> a = length <$> b →
  length <$> zip_with (zip_with op) a b = length <$> a.
Proof.
  revert b. induction a as [|r a IH]; intros [|s b] Hs; try done.
  rewrite !fmap_cons in Hs. injection Hs as Hr Hs.
  cbn [zip_with]. rewrite !fmap_cons, length_zip_with, IH by done.
  f_equal. lia.
Qed.

Lemma length_repeat_interleave (k : nat) (t : Tensor F) :
  length (repeat_interleave k t) = (shape0 t * k)%nat.
Proof.
  unfold repeat_interleave, shape0. induction t as [|r t IH]; [done|].
  cbn [flat_map length]. rewrite length_app, length_replicate, IH. lia.
Qed.

Lemma lookup_repeat_interleave (k : nat) (t : Tensor F) (e j : nat) :
  (j < k)%nat → repeat_interleave k t !! (e * k + j)%nat = t !! e.
Proof.
  intros Hj. unfold repeat_interleave. revert e.
  induction t as [|r t IH]; intros e; [done|].
  cbn [flat_map]. destruct e as [|e].
  - rewrite lookup_app_l by (rewrite length_replicate; lia).
    by apply lookup_replicate_2.
  - rewrite lookup_app_r by (rewrite length_replicate; lia).
    rewrite length_replicate.
    replace (S e * k + j - k)%nat with (e * k + j)%nat by lia.
    apply IH.
Qed.

Lemma repeat_interleave_1 (t : Tensor F) : repeat_interleave 1 t = t.
Proof.
  unfold repeat_interleave. induction t as [|r t IH]; [done|].
  simpl. by f_equal.
Qed.

Lemma shape_tensor_full (n m : nat) (x : F) :
  length <$> tensor_full n m x = replicate n m.
Proof.
  unfold tensor_full. induction n as [|n IH]; [done|].
  cbn [replicate]. rewrite fmap_cons, length_replicate. by f_equal.
Qed.

Lemma shape_rectangular (t : Tensor F) :
  rectangular t → length <$> t = replicate (shape0 t) (tail_size t).
Proof.
  unfold rectangular, shape0. generalize (tail_size t) as m. intros m Hr.
  induction Hr as [|r t Hl _ IH]; [done|].
  rewrite fmap_cons. cbn [length replicate]. by f_equal.
Qed.

Lemma shape_repeat_interleave (k : nat) (t : Tensor F) :
  rectangular t →
  length <$> repeat_interleave k t = replicate (shape0 t * k) (tail_size t).
Proof.
  unfold rectangular, shape0, repeat_interleave.
  generalize (tail_size t) as m. intros m Hr.
  induction Hr as [|r t Hl _ IH]; [done|].
  cbn [flat_map length]. rewrite fmap_app, IH, fmap_replicate, Hl.
  by rewrite <- replicate_add.
Qed.

Lemma lookup_zip_with_rows (op : F → F → F) (a b : Tensor F) (n : nat)
    (r s : list F) :
  a !! n = Some r → b !! n = Some s →
  zip_with (zip_with op) a b !! n = Some (zip_with op r s).
Proof. intros Ha Hb. rewrite lookup_zip_with, Ha. simpl. by rewrite Hb. Qed.

Lemma length_blocks (n k : nat) (t : Tensor F) : length (blocks n k t) = n.
Proof.
  revert t. induction n as [|n IH]; intros t; simpl; [done|]. by rewrite IH.
Qed.

Lemma lookup_blocks (n k : nat) (t : Tensor F) (e : nat) :
  (e < n)%nat → blocks n k t !! e = Some (take k (drop (e * k) t)).
Proof.
  revert t e. induction n as [|n IH]; intros t e He; [lia|].
  destruct e as [|e]; cbn [blocks]; [done|].
  rewrite lookup_cons_ne_0 by done. cbn [pred].
  rewrite IH by lia. by rewrite drop_drop.
Qed.

Lemma lookup_example_trials (k e j : nat) (t : Tensor F) :
  (j < k)%nat → take k (drop (e * k) t) !! j = t !! (e * k + j)%nat.
Proof. intros Hj. rewrite lookup_take_lt by done. by rewrite lookup_drop. Qed.

Lemma view_replicas_ok (k B : nat) (t : Tensor F) :
  (0 < k)%nat → length t = (B * k)%nat →
  view_replicas (Z.of_nat k) t = Ok (blocks B k t).
Proof.
  intros Hk Hlen. unfold view_replicas, py_floordiv, shape0.
  destruct (decide (Z.of_nat k = 0)) as [?|_]; [lia|].
  assert (Z.of_nat (length t) `div` Z.of_nat k = Z.of_nat B) as Hdiv.
  { rewrite Hlen, Nat2Z.inj_mul. apply Z.div_mul. lia. }
  cbn [mbind Result_bind]. rewrite Hdiv. destruct (decide _) as [_|Hn].
  - by rewrite !Nat2Z.id.
  - exfalso. apply Hn. lia.
Qed.

Lemma lookup_sum_dim1_blocks (B k e : nat) (t : Tensor F) :
  (e < B)%nat →
  sum_dim1 (blocks B k t) !! e = Some (sum_block (take k (drop (e * k) t))).
Proof.
  intros He. unfold sum_dim1.
  rewrite list_lookup_fmap, lookup_blocks by done. done.
Qed.

Lemma lookup_sum_dim1_blocks_sq (B k e : nat) (t : Tensor F) :
  (e < B)%nat →
  sum_dim1 (map (tensor_map fsquare) (blocks B k t)) !! e
  = Some (sum_block (tensor_map fsquare (take k (drop (e * k) t)))).
Proof.
  intros He. unfold sum_dim1.
  rewrite !list_lookup_fmap, lookup_blocks by done. done.
Qed.

Lemma sum_dim1_blocks_1 (t : Tensor F) :
  sum_dim1 (blocks (length t) 1 t) = t.
Proof.
  unfold sum_dim1. induction t as [|r t IH]; [done|].
  cbn [length blocks]. rewrite fmap_cons. by f_equal.
Qed.

Lemma blocks_tensor_map (f : F → F) (n k : nat) (t : Tensor F) :
  map (tensor_map f) (blocks n k t) = blocks n k (tensor_map f t).
Proof.
  unfold tensor_map. revert t. induction n as [|n IH]; intros t; [done|].
  cbn [blocks map]. by rewrite IH, <- fmap_take, <- fmap_drop.
Qed.

Lemma length_sum_block_map (f : F → F) (b : Tensor F) :
  length (sum_block (tensor_map f b)) = length (sum_block b).
Proof.
  unfold sum_block, tensor_map. destruct b as [|r rs]; [done|].
  cbn [map]. assert (length (map f r) = length r) as Hl by apply length_map.
  revert Hl. generalize (map f r) as r'. revert r.
  induction rs as [|x rs IH]; intros r r' Hl; [done|].
  cbn [map foldl]. apply IH.
  by rewrite !length_zip_with, length_map, Hl.
Qed.

Lemma shape_sum_dim1_sq (v : list (Tensor F)) :
  length <$> sum_dim1 (map (tensor_map fsquare) v) = length <$> sum_dim1 v.
Proof.
  unfold sum_dim1. induction v as [|b v IH]; [done|].
  cbn [map]. rewrite !fmap_cons, IH. f_equal. apply length_sum_block_map.
Qed.
End tensor_facts.

(** ** noise_tunnel.py *)

Section noise_tunnel_facts.
Context {F : Type} `{Scalar F} {World Forward : Type}.
Context `{!Collaborators F World Forward}.

Lemma add_noise_to_inputs_tuple_unbound (inputs : list (Tensor F))
    (l : list (Value F)) (k : Z) (w : World) :
  length l = length inputs →
  add_noise_to_inputs inputs (VTuple l) k w = (Err UnboundLocalError, w).
Proof.
  intros Hlen. unfold add_noise_to_inputs.
  rewrite bool_decide_eq_true_2 by done. reflexivity.
Qed.

Lemma add_noise_to_inputs_tuple_mismatch (inputs : list (Tensor F))
    (l : list (Value F)) (k : Z) (w : World) :
  length l ≠ length inputs →
  add_noise_to_inputs inputs (VTuple l) k w = (Err AssertionError, w).
Proof.
  intros Hlen. unfold add_noise_to_inputs.
  rewrite bool_decide_eq_false_2 by done. reflexivity.
Qed.

Lemma validate_unsupported (nt_type : string) :
  nt_type ∉ SUPPORTED_NOISE_TUNNEL_TYPES →
  _validate_noise_tunnel_type nt_type SUPPORTED_NOISE_TUNNEL_TYPES
  = Err AssertionError.
Proof.
  intros Hn. unfold _validate_noise_tunnel_type.
  by rewrite bool_decide_eq_false_2.
Qed.

Lemma validate_supported (nt_type : string) :
  nt_type ∈ SUPPORTED_NOISE_TUNNEL_TYPES →
  _validate_noise_tunnel_type nt_type SUPPORTED_NOISE_TUNNEL_TYPES = Ok tt.
Proof.
  intros Hn. unfold _validate_noise_tunnel_type.
  by rewrite bool_decide_eq_true_2.
Qed.

(** C9.  For a smoothing-mode name outside [smoothgrad], [smoothgrad_sq],
    [vargrad], [attribute] raises and leaves the world as it found it,
    whatever the wrapped attribution method is: the method is not
    invoked, no noise is drawn, no keyword argument is expanded and
    nothing is accumulated.  When the sub-batch size is not zero (as for
    every [nt_samples >= 1] and [nt_samples_batch_size >= 1], so that the
    division before the validation succeeds) the error is the
    validation's [AssertionError] (InvalidArgument). *)
Theorem attribute_rejects_unsupported_nt_type
    (self : NoiseTunnel F World Forward) (inputs : TensorOrTuple F)
    (nt_type : string) (nt_samples : Z) (nt_samples_batch_size : option Z)
    (stdevs : Value F) (draw_baseline_from_distrib : bool)
    (kwargs : gmap string (Value F)) (w : World) :
  nt_type ∉ SUPPORTED_NOISE_TUNNEL_TYPES →
  (∃ e, NoiseTunnel_attribute self inputs nt_type nt_samples
          nt_samples_batch_size stdevs draw_baseline_from_distrib kwargs w
        = (Err e, w))
  ∧ (sub_batch_size nt_samples nt_samples_batch_size ≠ 0 →
     NoiseTunnel_attribute self inputs nt_type nt_samples
       nt_samples_batch_size stdevs draw_baseline_from_distrib kwargs w
     = (Err AssertionError, w)).
Proof.
  intros Hty.
  assert (NoiseTunnel_attribute self inputs nt_type nt_samples
            nt_samples_batch_size stdevs draw_baseline_from_distrib kwargs w
          = (Err (if decide (sub_batch_size nt_samples nt_samples_batch_size
                             = 0)
                  then ZeroDivisionError else AssertionError), w)) as Hrun.
  { unfold NoiseTunnel_attribute. apply bind_err.
    unfold run_trials, py_floordiv.
    destruct (decide _) as [|_]; [done|].
    rewrite bind_lift_ok, validate_unsupported by done.
    reflexivity. }
  split; [by eexists|]. intros Hbs. rewrite Hrun.
  by destruct (decide _).
Qed.

Lemma delta_requested_true (self : NoiseTunnel F World Forward)
    (v : Value F) :
  delta_requested self v = Ok true ↔
  is_delta_supported self = true ∧ truthy v = Ok true.
Proof.
  unfold delta_requested. destruct (is_delta_supported self); split.
  - by intros ->.
  - by intros [_ ->].
  - discriminate.
  - by intros [? _].
Qed.

Lemma truthy_return_convergence_delta_of (kwargs : gmap string (Value F)) :
  truthy (return_convergence_delta_of kwargs) = Ok true ↔
  ∃ v, kwargs !! "return_convergence_delta"%string = Some v
       ∧ truthy v = Ok true.
Proof.
  unfold return_convergence_delta_of.
  destruct (kwargs !! _) as [v|]; split.
  - intros Hv. by exists v.
  - by intros (v' & [= <-] & Hv).
  - discriminate.
  - by intros (v' & [=] & _).
Qed.

Lemma apply_checks_inv (self : NoiseTunnel F World Forward)
    (attributions : list (Tensor F)) (is_attrib_tuple : bool)
    (rcd : Value F) (delta : option (Tensor F)) (o : Output F) :
  _apply_checks_and_return_attributions self attributions is_attrib_tuple
    rcd delta = Ok o →
  ∃ a wanted,
    _format_output is_attrib_tuple attributions = Ok a
    ∧ delta_requested self rcd = Ok wanted
    ∧ o = if wanted : bool then WithDelta a delta else Bare a.
Proof.
  unfold _apply_checks_and_return_attributions. intros Ho.
  apply Result_bind_inv_ok in Ho as (a & Ha & Ho).
  apply Result_bind_inv_ok in Ho as (wanted & Hw & Ho).
  exists a, wanted. by injection Ho as <-.
Qed.

Lemma smooth_and_return_inv (self : NoiseTunnel F World Forward)
    (nt_type : string) (nt_samples : Z) (rcd : Value F)
    (st : Locals F) (o : Output F) :
  smooth_and_return self nt_type nt_samples rcd st = Ok o →
  ∃ e e_sq attributions a wanted,
    expected_of nt_samples (sum_attributions st) = Ok e
    ∧ expected_of nt_samples (sum_attributions_sq st) = Ok e_sq
    ∧ compute_smoothing nt_type e e_sq = Ok attributions
    ∧ delta_requested self rcd = Ok wanted
    ∧ (∃ b, is_attrib_tuple st = Some b
            ∧ _format_output b attributions = Ok a)
    ∧ (if wanted : bool
       then ∃ ds d,
              mapM (λ d : option (Tensor F),
                      match d with Some t => Ok t | None => Err TypeError end)
                   (delta_partial_list st) = Ok ds
              ∧ torch_cat ds = Ok d ∧ o = WithDelta a (Some d)
       else o = Bare a).
Proof.
  unfold smooth_and_return. intros Ho.
  apply Result_bind_inv_ok in Ho as (e & He & Ho).
  apply Result_bind_inv_ok in Ho as (e_sq & Hesq & Ho).
  apply Result_bind_inv_ok in Ho as (attributions & Hs & Ho).
  apply Result_bind_inv_ok in Ho as (wanted & Hw & Ho).
  apply Result_bind_inv_ok in Ho as (delta & Hd & Ho).
  apply Result_bind_inv_ok in Ho as (b & Hb & Ho).
  apply apply_checks_inv in Ho as (a & wanted' & Ha & Hw' & ->).
  rewrite Hw in Hw'. injection Hw' as <-.
  exists e, e_sq, attributions, a, wanted. repeat split; try done.
  - exists b. split; [|done]. by destruct (is_attrib_tuple st) as [?|]; simplify_eq.
  - destruct wanted; [|done].
    apply Result_bind_inv_ok in Hd as (ds & Hds & Hd).
    destruct (torch_cat ds) as [d|] eqn:Hcat; [|done].
    injection Hd as <-. by exists ds, d.
Qed.

(** C10.  [NoiseTunnel.__init__] stores the wrapped method's
    [has_convergence_delta()] in [is_delta_supported] and its
    [multiplies_by_inputs]; [has_convergence_delta] returns the stored
    value; and whatever [attribute] (or
    [_apply_checks_and_return_attributions] alone) returns carries a
    delta exactly when the wrapped method supports it and a true
    [return_convergence_delta] was passed by keyword, being the bare
    attributions otherwise. *)
Theorem delta_support_fixed_at_construction
    (attribution_method : Attribution F World Forward) :
  let nt := NoiseTunnel_init attribution_method in
  is_delta_supported nt = has_convergence_delta attribution_method
  ∧ NoiseTunnel_multiplies_by_inputs nt
    = multiplies_by_inputs attribution_method
  ∧ NoiseTunnel_has_convergence_delta nt
    = has_convergence_delta attribution_method
  ∧ (∀ attributions is_attrib_tuple rcd delta o,
       _apply_checks_and_return_attributions nt attributions is_attrib_tuple
         rcd delta = Ok o →
       (has_delta o = true ↔
        has_convergence_delta attribution_method = true
        ∧ truthy rcd = Ok true)
       ∧ (has_delta o = false → ∃ a, o = Bare a))
  ∧ (∀ inputs nt_type nt_samples nt_samples_batch_size stdevs draw kwargs
       w o w',
       NoiseTunnel_attribute nt inputs nt_type nt_samples
         nt_samples_batch_size stdevs draw kwargs w = (Ok o, w') →
       (has_delta o = true ↔
        has_convergence_delta attribution_method = true
        ∧ ∃ v, kwargs !! "return_convergence_delta"%string = Some v
               ∧ truthy v = Ok true)
       ∧ (has_delta o = true → ∃ a d, o = WithDelta a (Some d))
       ∧ (has_delta o = false → ∃ a, o = Bare a)).
Proof.
  intros nt. split; [done|]. split; [done|]. split; [done|]. split.
  - intros attributions is_attrib_tuple rcd delta o Ho.
    apply apply_checks_inv in Ho as (a & wanted & _ & Hw & ->).
    split; [split|].
    + intros Hd. destruct wanted; [|done].
      by apply delta_requested_true in Hw.
    + intros Hst. apply (delta_requested_true nt) in Hst.
      rewrite Hw in Hst. by injection Hst as ->.
    + intros Hd. destruct wanted; [done|]. by exists a.
  - intros inputs nt_type nt_samples nt_samples_batch_size stdevs draw kwargs
      w o w' Ho.
    apply bind_inv_ok in Ho as (st & w1 & _ & Ho).
    apply lift_inv_ok in Ho as [Ho _].
    apply smooth_and_return_inv in Ho
      as (? & ? & ? & a & wanted & _ & _ & _ & Hw & _ & Ho).
    split; [split|split].
    + intros Hd. destruct wanted; [|by subst o].
      apply delta_requested_true in Hw as [? Hw]. split; [done|].
      by apply truthy_return_convergence_delta_of.
    + intros [Hs Hv].
      assert (delta_requested nt (return_convergence_delta_of kwargs)
              = Ok true) as Hw'.
      { apply delta_requested_true. split; [done|].
        by apply truthy_return_convergence_delta_of. }
      rewrite Hw in Hw'. injection Hw' as ->.
      by destruct Ho as (? & ? & _ & _ & ->).
    + intros Hd. destruct wanted; [|by subst o].
      destruct Ho as (? & d & _ & _ & ->). by exists a, d.
    + intros Hd. destruct wanted; [|by (subst o; exists a)].
      by destruct Ho as (? & ? & _ & _ & ->).
Qed.

Lemma sub_batch_arithmetic (N S : Z) :
  1 ≤ N → 1 ≤ S →
  let size := Z.min N S in
  let whole := N `div` size in
  let remainder := N - whole * size in
  1 ≤ size ∧ 1 ≤ whole ∧ 0 ≤ remainder < size.
Proof.
  intros HN HS size whole remainder.
  assert (1 ≤ size ≤ N) as Hsize by (unfold size; lia).
  assert (remainder = N `mod` size) as Hrem.
  { unfold remainder, whole. rewrite Z.mod_eq by lia. lia. }
  split; [lia|]. split.
  - unfold whole. apply Z.div_le_lower_bound; lia.
  - rewrite Hrem. apply Z.mod_pos_bound. lia.
Qed.

(** *** Sub-batches *)
Section call_log.
Context {Log : Type} (calls : World → list Log).

Lemma logs_mret {A} (a : A) : logs calls (mret a) [].
Proof. intros w a' w' [= _ <-]. by rewrite app_nil_r. Qed.

Lemma logs_lift {A} (r : Result A) : logs calls (lift r) [].
Proof. intros w a w' [_ ->]%lift_inv_ok. by rewrite app_nil_r. Qed.

Lemma logs_raise {A} (e : PyError) : logs calls (raise e : M World A) [].
Proof. intros w a w' [=]. Qed.

Lemma logs_bind {A B} (m : M World A) (f : A → M World B) (l1 l2 : list Log) :
  logs calls m l1 → (∀ a, logs calls (f a) l2) →
  logs calls (m ≫= f) (l1 ++ l2).
Proof.
  intros Hm Hf w b w'' Hb.
  apply bind_inv_ok in Hb as (a & w' & Ha & Hb).
  rewrite (Hf a _ _ _ Hb), (Hm _ _ _ Ha). by rewrite app_assoc.
Qed.

Lemma logs_bind_nil_l {A B} (m : M World A) (f : A → M World B)
    (l : list Log) :
  logs calls m [] → (∀ a, logs calls (f a) l) → logs calls (m ≫= f) l.
Proof. intros Hm Hf. by apply (logs_bind m f [] l). Qed.

Lemma logs_mapM {A B} (f : A → M World B) (l : list A) :
  (∀ x, logs calls (f x) []) → logs calls (mapM f l) [].
Proof.
  intros Hf. induction l as [|x l IH]; [apply logs_mret|].
  cbn [mapM]. apply logs_bind_nil_l; [done|]. intros y.
  apply logs_bind_nil_l; [done|]. intros k. apply logs_mret.
Qed.

Lemma logs_for_range {St} (body : St → M World St) (n : nat) (c : Log)
    (st : St) :
  (∀ s, logs calls (body s) [c]) →
  logs calls (for_range n body st) (replicate n c).
Proof.
  intros Hbody. revert st. induction n as [|n IH]; intros st.
  - apply logs_mret.
  - cbn [for_range replicate]. by apply (logs_bind _ _ [c]).
Qed.

Hypothesis normal_silent : ∀ mean std, logs calls (torch_normal1 mean std) [].
Hypothesis additional_forward_args_silent :
  ∀ n kw, logs calls (_expand_and_update_additional_forward_args n kw) [].
Hypothesis target_silent :
  ∀ n kw, logs calls (_expand_and_update_target n kw) [].
Hypothesis baselines_silent :
  ∀ xs n kw d, logs calls (_expand_and_update_baselines xs n kw d) [].
Hypothesis feature_mask_silent :
  ∀ n kw, logs calls (_expand_and_update_feature_mask n kw) [].

Lemma add_noise_to_input_silent (input : Tensor F) (stdev : F) (k : Z) :
  logs calls (add_noise_to_input input stdev k) [].
Proof.
  unfold add_noise_to_input. destruct (decide _); [apply logs_raise|].
  apply logs_bind_nil_l; [|intros; apply logs_lift].
  unfold torch_normal. apply logs_mapM. intros r. by apply logs_mapM.
Qed.

Lemma add_noise_to_inputs_silent (inputs : list (Tensor F))
    (stdevs : Value F) (k : Z) :
  logs calls (add_noise_to_inputs inputs stdevs k) [].
Proof.
  unfold add_noise_to_inputs.
  apply logs_bind_nil_l; [apply logs_lift|]. intros s.
  apply logs_bind_nil_l; [apply logs_lift|]. intros s'.
  apply logs_mapM. intros [x sd]. apply add_noise_to_input_silent.
Qed.

Lemma expand_partial_silent (inputs : list (Tensor F)) (draw : bool)
    (k : Z) (kw : gmap string (Value F)) :
  logs calls (expand_partial inputs draw k kw) [].
Proof.
  unfold expand_partial.
  apply logs_bind_nil_l; [done|]. intros kw1.
  apply logs_bind_nil_l; [done|]. intros kw2.
  apply logs_bind_nil_l; [done|]. intros kw3. done.
Qed.

Lemma add_noise_to_input_length (input : Tensor F) (stdev : F) (k : Z)
    (w w' : World) (noisy : Tensor F) :
  add_noise_to_input input stdev k w = (Ok noisy, w') →
  shape0 noisy = (shape0 input * Z.to_nat k)%nat.
Proof.
  unfold add_noise_to_input. destruct (decide _); [done|]. intros Hn.
  apply bind_inv_ok in Hn as (noise & w1 & _ & Hn).
  apply lift_inv_ok in Hn as [Hn _]. unfold tensor_binop in Hn.
  destruct (same_shape _ noise) eqn:Hs; [|done]. injection Hn as <-.
  apply same_shape_true in Hs. unfold shape0.
  rewrite <- (length_fmap length), shape_zip_with, length_fmap by done.
  apply length_repeat_interleave.
Qed.

Lemma add_noise_to_inputs_first (x : Tensor F) (rest : list (Tensor F))
    (stdevs : Value F) (k : Z) (w w' : World) (noisy : list (Tensor F)) :
  add_noise_to_inputs (x :: rest) stdevs k w = (Ok noisy, w') →
  ∃ y ys, noisy = y :: ys ∧ shape0 y = (shape0 x * Z.to_nat k)%nat.
Proof.
  unfold add_noise_to_inputs. intros Hn.
  apply bind_inv_ok in Hn as (s & w1 & Hs & Hn).
  apply bind_inv_ok in Hn as (sd & w2 & Hsd & Hn).
  apply lift_inv_ok in Hs as [Hs _]. apply lift_inv_ok in Hsd as [Hsd _].
  destruct stdevs as [| | |σ| |l]; try done.
  - injection Hs as <-. injection Hsd as <-.
    cbn [length replicate zip_with mapM] in Hn.
    apply bind_inv_ok in Hn as (y & w3 & Hy & Hn).
    apply bind_inv_ok in Hn as (ys & w4 & _ & [= <- _]).
    exists y, ys. split; [done|]. by eapply add_noise_to_input_length.
  - apply Result_bind_inv_ok in Hs as (? & _ & [= <-]). done.
Qed.
End call_log.

Section counted_calls.
Context (calls : World → list nat) (self : NoiseTunnel F World Forward).

Hypothesis normal_silent : ∀ mean std, logs calls (torch_normal1 mean std) [].
Hypothesis additional_forward_args_silent :
  ∀ n kw, logs calls (_expand_and_update_additional_forward_args n kw) [].
Hypothesis target_silent :
  ∀ n kw, logs calls (_expand_and_update_target n kw) [].
Hypothesis baselines_silent :
  ∀ xs n kw d, logs calls (_expand_and_update_baselines xs n kw d) [].
Hypothesis feature_mask_silent :
  ∀ n kw, logs calls (_expand_and_update_feature_mask n kw) [].
Hypothesis attribute_counted :
  ∀ a kw, logs calls (attribute (attribution_method self) a kw)
            [first_shape0 a].

Lemma compute_partial_attribution_counted (is_inputs_tuple : bool)
    (rcd : Value F) (y : Tensor F) (ys : list (Tensor F))
    (kw : gmap string (Value F)) :
  logs calls
    (compute_partial_attribution self is_inputs_tuple rcd (y :: ys) kw)
    [shape0 y].
Proof.
  intros w r w' Hr. unfold compute_partial_attribution in Hr.
  apply bind_inv_ok in Hr as (arg & w0 & Harg & Hr).
  apply lift_inv_ok in Harg as [Harg ->].
  assert (first_shape0 arg = shape0 y) as Hfirst.
  { destruct is_inputs_tuple; by injection Harg as <-. }
  apply bind_inv_ok in Hr as (out & w1 & Hout & Hr).
  assert (logs calls
            (lift (delta_requested self rcd)
             ≫= λ wanted : bool,
                  lift
                    (if wanted then unpack_attributions_delta out
                     else a ← whole_as_attributions out; Ok (a, None))
                  ≫= λ '(attributions0, delta),
                       mret (_format_tensor_into_tuples attributions0,
                             _is_tuple attributions0, delta)) []) as Hrest.
  { apply logs_bind_nil_l; [apply logs_lift|]. intros wanted.
    apply logs_bind_nil_l; [apply logs_lift|]. intros [a d].
    apply logs_mret. }
  rewrite (Hrest _ _ _ Hr), app_nil_r.
  by rewrite (attribute_counted _ _ _ _ _ Hout), Hfirst.
Qed.

Lemma whole_batch_counted (is_inputs_tuple : bool) (rcd : Value F)
    (x : Tensor F) (rest : list (Tensor F)) (stdevs : Value F) (size : Z)
    (kw : gmap string (Value F)) (st : Locals F) :
  logs calls
    (whole_batch self is_inputs_tuple rcd (x :: rest) stdevs size kw st)
    [(shape0 x * Z.to_nat size)%nat].
Proof.
  intros w st' w' Hb. unfold whole_batch in Hb.
  apply bind_inv_ok in Hb as (noisy & w1 & Hn & Hb).
  pose proof (add_noise_to_inputs_silent calls normal_silent _ _ _ _ _ _ Hn)
    as Hw1. rewrite app_nil_r in Hw1.
  apply add_noise_to_inputs_first in Hn as (y & ys & -> & Hy).
  apply bind_inv_ok in Hb as ([[aps iat] d] & w2 & Hc & Hb).
  apply compute_partial_attribution_counted in Hc.
  destruct (decide _);
    apply bind_inv_ok in Hb as ([[s q] dl] & w3 & Hu & [= _ <-]);
    apply lift_inv_ok in Hu as [? ->]; by rewrite Hc, Hw1, Hy.
Qed.

Lemma remaining_batch_counted (is_inputs_tuple : bool) (rcd : Value F)
    (x : Tensor F) (rest : list (Tensor F)) (stdevs : Value F)
    (draw : bool) (size : Z) (kw : gmap string (Value F)) (st : Locals F) :
  logs calls
    (remaining_batch self is_inputs_tuple rcd (x :: rest) stdevs draw size
       kw st)
    [(shape0 x * Z.to_nat size)%nat].
Proof.
  intros w st' w' Hb. unfold remaining_batch in Hb.
  apply bind_inv_ok in Hb as (noisy & w1 & Hn & Hb).
  pose proof (add_noise_to_inputs_silent calls normal_silent _ _ _ _ _ _ Hn)
    as Hw1. rewrite app_nil_r in Hw1.
  apply add_noise_to_inputs_first in Hn as (y & ys & -> & Hy).
  apply bind_inv_ok in Hb as (kw' & w2 & He & Hb).
  apply (expand_partial_silent calls) in He; [|done..].
  rewrite app_nil_r in He.
  apply bind_inv_ok in Hb as ([[aps iat] d] & w3 & Hc & Hb).
  apply compute_partial_attribution_counted in Hc.
  apply bind_inv_ok in Hb as ([[s q] dl] & w4 & Hu & [= _ <-]).
  apply lift_inv_ok in Hu as [? ->]. by rewrite Hc, He, Hw1, Hy.
Qed.

Lemma run_trials_counted (inputs : TensorOrTuple F) (nt_type : string)
    (N S : Z) (stdevs : Value F) (draw : bool) (rcd : Value F)
    (kwargs : gmap string (Value F)) (x : Tensor F)
    (rest : list (Tensor F)) :
  1 ≤ N → 1 ≤ S →
  _format_tensor_into_tuples inputs = x :: rest →
  let size := Z.min N S in
  let whole := N `div` size in
  let remainder := N - whole * size in
  logs calls
    (run_trials self inputs nt_type N (Some S) stdevs draw rcd kwargs)
    ((λ s, (shape0 x * Z.to_nat s)%nat)
       <$> (replicate (Z.to_nat whole) size
            ++ (if decide (remainder > 0) then [remainder] else []))).
Proof.
  intros HN HS Hx size whole remainder w st w' Hr.
  unfold run_trials, sub_batch_size in Hr. fold size in Hr.
  apply bind_inv_ok in Hr as (p & w1 & Hp & Hr).
  apply lift_inv_ok in Hp as [Hp ->]. unfold py_floordiv in Hp.
  destruct (decide (size = 0)); [done|]. injection Hp as <-.
  fold whole in Hr. fold remainder in Hr.
  apply bind_inv_ok in Hr as (u & w2 & Hv & Hr).
  apply lift_inv_ok in Hv as [? ->]. rewrite Hx in Hr.
  apply bind_inv_ok in Hr as (kw & w3 & He & Hr).
  apply (expand_partial_silent calls) in He; [|done..].
  rewrite app_nil_r in He.
  apply bind_inv_ok in Hr as (st1 & w4 & Hloop & Hr).
  apply (logs_for_range calls _ _ (shape0 x * Z.to_nat size)%nat) in Hloop.
  2:{ intros s. apply whole_batch_counted. }
  rewrite fmap_app, fmap_replicate.
  destruct (decide (remainder > 0)).
  - apply remaining_batch_counted in Hr.
    by rewrite Hr, Hloop, He, app_assoc.
  - injection Hr as _ <-. by rewrite Hloop, He, app_nil_r.
Qed.
End counted_calls.

(** *** The trials behind the accumulators *)

Lemma update_sum_inv (sums sums_sq s' q' : list (option (Tensor F)))
    (a : Tensor F) (i : nat) (k : Z) :
  update_sum_attribution_and_sq sums sums_sq a i k = Ok (s', q') →
  ∃ v old old_sq new new_sq,
    view_replicas k a = Ok v
    ∧ sums !! i = Some old ∧ sums_sq !! i = Some old_sq
    ∧ match old with
      | None => Ok (sum_dim1 v)
      | Some s => tensor_binop fadd s (sum_dim1 v)
      end = Ok new
    ∧ match old_sq with
      | None => Ok (sum_dim1 (map (tensor_map fsquare) v))
      | Some s => tensor_binop fadd s (sum_dim1 (map (tensor_map fsquare) v))
      end = Ok new_sq
    ∧ s' = <[i := Some new]> sums ∧ q' = <[i := Some new_sq]> sums_sq.
Proof.
  unfold update_sum_attribution_and_sq. intros Hu.
  apply Result_bind_inv_ok in Hu as (v & Hv & Hu).
  apply Result_bind_inv_ok in Hu as (old & Ha & Hu).
  apply Result_bind_inv_ok in Hu as (new & Hnew & Hu).
  apply Result_bind_inv_ok in Hu as (old_sq & Hb & Hu).
  apply Result_bind_inv_ok in Hu as (new_sq & Hnew_sq & [= <- <-]).
  unfold py_index in Ha, Hb.
  destruct (sums !! i) as [a'|] eqn:Hsi; [|done]. injection Ha as ->.
  destruct (sums_sq !! i) as [b'|] eqn:Hqi; [|done]. injection Hb as ->.
  by exists v, old, old_sq, new, new_sq.
Qed.

Lemma update_sums_from_inv (aps : list (Tensor F)) :
  ∀ (i : nat) (sums sums_sq s' q' : list (option (Tensor F))) (k : Z),
  update_sums_from i aps sums sums_sq k = Ok (s', q') →
  length s' = length sums ∧ length q' = length sums_sq
  ∧ (∀ j : nat, (j < i ∨ i + length aps ≤ j)%nat →
       s' !! j = sums !! j ∧ q' !! j = sums_sq !! j)
  ∧ (∀ (n : nat) (a : Tensor F), aps !! n = Some a →
       ∃ v old old_sq new new_sq,
         view_replicas k a = Ok v
         ∧ sums !! (i + n)%nat = Some old
         ∧ sums_sq !! (i + n)%nat = Some old_sq
         ∧ match old with
           | None => Ok (sum_dim1 v)
           | Some s => tensor_binop fadd s (sum_dim1 v)
           end = Ok new
         ∧ match old_sq with
           | None => Ok (sum_dim1 (map (tensor_map fsquare) v))
           | Some s =>
               tensor_binop fadd s (sum_dim1 (map (tensor_map fsquare) v))
           end = Ok new_sq
         ∧ s' !! (i + n)%nat = Some (Some new)
         ∧ q' !! (i + n)%nat = Some (Some new_sq)).
Proof.
  induction aps as [|t aps IH]; intros i sums sums_sq s' q' k Hu.
  - injection Hu as <- <-. repeat split; done.
  - cbn [update_sums_from] in Hu.
    apply Result_bind_inv_ok in Hu as ([s1 q1] & H1 & Hu).
    apply update_sum_inv in H1
      as (v & old & old_sq & new & new_sq & Hv & Ho & Hoq & Hn & Hnq
          & -> & ->).
    apply IH in Hu as (Hls & Hlq & Hframe & Hset).
    rewrite length_insert in Hls, Hlq.
    split; [done|]. split; [done|]. split.
    + intros j Hj. cbn [length] in Hj.
      destruct (Hframe j) as [-> ->]; [lia|].
      rewrite !list_lookup_insert_ne by lia. done.
    + intros [|n] a Ha.
      * injection Ha as <-. rewrite Nat.add_0_r.
        exists v, old, old_sq, new, new_sq.
        destruct (Hframe i) as [-> ->]; [lia|].
        rewrite !list_lookup_insert_eq
          by (by eapply lookup_lt_Some). done.
      * cbn in Ha. destruct (Hset n a Ha)
          as (v' & o' & oq' & n' & nq' & Hv' & Ho' & Hoq' & Hn' & Hnq'
              & Hs' & Hq').
        rewrite !list_lookup_insert_ne in Ho', Hoq' by lia.
        replace (i + S n)%nat with (S i + n)%nat by lia.
        by exists v', o', oq', n', nq'.
Qed.

Lemma running_sum_snoc (f : Tensor F → list F) (bs : list (Tensor F))
    (b : Tensor F) :
  running_sum f (bs ++ [b])
  = Some match running_sum f bs with
         | None => f b
         | Some r => zip_with fadd r (f b)
         end.
Proof. unfold running_sum. by rewrite foldl_app. Qed.

Lemma view_replicas_inv (k : Z) (a : Tensor F) (v : list (Tensor F)) :
  view_replicas k a = Ok v →
  0 < k ∧ ∃ bsz : nat,
    length a = (bsz * Z.to_nat k)%nat ∧ v = blocks bsz (Z.to_nat k) a.
Proof.
  unfold view_replicas, py_floordiv, shape0.
  destruct (decide (k = 0)); [done|]. cbn [mbind Result_bind].
  destruct (decide _) as [[Hk Hb]|]; [|done]. intros [= <-].
  split; [done|]. exists (Z.to_nat (Z.of_nat (length a) `div` k)).
  split; [|done].
  assert (0 ≤ Z.of_nat (length a) `div` k) by (apply Z.div_pos; lia).
  lia.
Qed.

Lemma length_example_trials (k e bsz : nat) (a : Tensor F) :
  length a = (bsz * k)%nat → (e < bsz)%nat →
  length (example_trials k e a) = k.
Proof.
  intros Hl He. unfold example_trials. rewrite length_take, length_drop.
  nia.
Qed.

Lemma compute_partial_attribution_inv (self : NoiseTunnel F World Forward)
    (it : bool) (rcd : Value F) (noisy aps : list (Tensor F))
    (kw : gmap string (Value F)) (b : bool) (d : option (Tensor F))
    (w w' : World) :
  compute_partial_attribution self it rcd noisy kw w = (Ok (aps, b, d), w') →
  ∃ arg out wanted a,
    (if it then Ok (Tuple noisy) else Single <$> py_index noisy 0) = Ok arg
    ∧ attribute (attribution_method self) arg kw w = (Ok out, w')
    ∧ delta_requested self rcd = Ok wanted
    ∧ (if wanted : bool then unpack_attributions_delta out
       else a ← whole_as_attributions out; Ok (a, None)) = Ok (a, d)
    ∧ aps = _format_tensor_into_tuples a.
Proof.
  intros Hc. unfold compute_partial_attribution in Hc.
  apply bind_inv_ok in Hc as (arg & w1 & Harg & Hc).
  apply lift_inv_ok in Harg as [Harg <-].
  apply bind_inv_ok in Hc as (out & w2 & Hout & Hc).
  apply bind_inv_ok in Hc as (wanted & w3 & Hw & Hc).
  apply lift_inv_ok in Hw as [Hw <-].
  apply bind_inv_ok in Hc as ([a delta] & w4 & Ha & Hc).
  apply lift_inv_ok in Ha as [Ha <-]. injection Hc as <- _ <- <-.
  by exists arg, out, wanted, a.
Qed.

Lemma sub_batch_step (self : NoiseTunnel F World Forward) (it : bool)
    (rcd : Value F) (inputs : list (Tensor F)) (stdevs : Value F)
    (ks : list Z) (parts : list (list (Tensor F) * option (Tensor F)))
    (st : Locals F) (k : Z) (noisy aps : list (Tensor F))
    (kw : gmap string (Value F)) (b : bool) (d : option (Tensor F))
    (sums_in sq_in s' q' dl' : list (option (Tensor F)))
    (w1 w2 w3 w4 : World) :
  trials_traced self it rcd inputs stdevs ks parts st →
  add_noise_to_inputs inputs stdevs k w1 = (Ok noisy, w2) →
  compute_partial_attribution self it rcd noisy kw w3
  = (Ok (aps, b, d), w4) →
  (sums_in = sum_attributions st ∧ sq_in = sum_attributions_sq st)
  ∨ (length (sum_attributions st) = 0%nat
     ∧ sums_in = replicate (length aps) None
     ∧ sq_in = replicate (length aps) None) →
  update_partial_attribution_and_delta self rcd aps d sums_in sq_in
    (delta_partial_list st) k = Ok (s', q', dl') →
  trials_traced self it rcd inputs stdevs (ks ++ [k]) (parts ++ [(aps, d)])
    {| sum_attributions := s'; sum_attributions_sq := q';
       delta_partial_list := dl'; is_attrib_tuple := Some b |}.
Proof.
  intros (Hprov & Hempty & Hfold & Hdelta) Hnoise Hc Hin Hu.
  pose proof (Forall2_length _ _ _ Hprov) as Hlen.
  apply compute_partial_attribution_inv in Hc
    as (arg & out & wanted & a & Harg & Hout & Hw & Ha & Haps).
  unfold update_partial_attribution_and_delta in Hu.
  apply Result_bind_inv_ok in Hu as ([s q] & Hsq & Hu).
  rewrite Hw in Hu. injection Hu as <- <- <-.
  apply update_sums_from_inv in Hsq as (Hls & Hlq & Hframe & Hset).
  split; [|split; [|split]].
  - apply Forall2_app; [done|]. constructor; [|constructor].
    by exists w1, w2, w3, w4, noisy, arg, kw, out, wanted, a.
  - by intros ?%app_eq_nil%proj2.
  - cbn [sum_attributions sum_attributions_sq].
    intros j _ Hall. rewrite fmap_app in Hall.
    apply Forall_app in Hall as [Hall_old Hall_new].
    apply Forall_singleton in Hall_new as [ta Hta]. cbn [fst] in Hta.
    destruct (Hset j ta Hta)
      as (v & old & old_sq & new & new_sq & Hv & Ho & Hoq & Hn & Hnq
          & Hs' & Hq').
    cbn [Nat.add] in Ho, Hoq, Hs', Hq'.
    apply view_replicas_inv in Hv as (Hk & bsz & Hla & ->).
    assert (∀ e, (e < bsz)%nat →
              sum_dim1 (blocks bsz (Z.to_nat k) ta) !! e
              = Some (sum_block (example_trials (Z.to_nat k) e ta))
              ∧ sum_dim1 (map (tensor_map fsquare)
                            (blocks bsz (Z.to_nat k) ta)) !! e
                = Some (sum_block
                          (tensor_map fsquare
                             (example_trials (Z.to_nat k) e ta)))
              ∧ length (example_trials (Z.to_nat k) e ta) = Z.to_nat k)
      as Hcur.
    { intros e He. split; [by apply lookup_sum_dim1_blocks|].
      split; [by apply lookup_sum_dim1_blocks_sq|].
      by eapply length_example_trials. }
    assert (length (sum_dim1 (blocks bsz (Z.to_nat k) ta)) = bsz) as Hlcur.
    { unfold sum_dim1. by rewrite length_map, length_blocks. }
    assert (length (sum_dim1 (map (tensor_map fsquare)
                                (blocks bsz (Z.to_nat k) ta))) = bsz)
      as Hlcur_sq.
    { unfold sum_dim1. by rewrite !length_map, length_blocks. }
    assert (∀ e,
              zip_with (λ k aps, example_trials (Z.to_nat k) e
                                   (default [] (aps !! j)))
                (ks ++ [k]) (fst <$> parts ++ [(aps, d)])
              = zip_with (λ k aps, example_trials (Z.to_nat k) e
                                     (default [] (aps !! j)))
                  ks (fst <$> parts)
                ++ [example_trials (Z.to_nat k) e ta]) as Hzip.
    { intros e. rewrite fmap_app, zip_with_app by (by rewrite length_fmap).
      cbn [fmap list_fmap fst zip_with]. by rewrite Hta. }
    destruct (decide (parts = [])) as [->|Hne].
    + apply Forall2_nil_inv_r in Hprov as ->.
      destruct (Hempty eq_refl) as [Hs0 Hq0].
      destruct Hin as [[-> ->]|(_ & -> & ->)].
      { by rewrite Hs0 in Ho. }
      apply lookup_replicate in Ho as [-> _].
      apply lookup_replicate in Hoq as [-> _].
      injection Hn as <-. injection Hnq as <-.
      eexists _, _. split; [exact Hs'|]. split; [exact Hq'|].
      split; [by rewrite Hlcur, Hlcur_sq|].
      split.
      { cbn [fmap list_fmap app fst]. constructor; [|constructor].
        intros a' Ha'. rewrite Hta in Ha'. injection Ha' as <-.
        by rewrite Hlcur. }
      intros e He. rewrite Hlcur in He.
      destruct (Hcur e He) as (Hc1 & Hc2 & Hc3).
      cbv zeta. rewrite Hzip. cbn [fmap list_fmap zip_with app].
      split; [by repeat constructor|].
      by rewrite Hc1, Hc2.
    + destruct (Hfold j) as (t & tq & Ht & Htq & Hltq & Hexamples & Hrows).
      { by destruct parts. }
      { done. }
      destruct Hin as [[-> ->]|(Hz & _)].
      2:{ apply lookup_lt_Some in Ht. lia. }
      rewrite Ht in Ho. injection Ho as <-.
      rewrite Htq in Hoq. injection Hoq as <-.
      unfold tensor_binop in Hn, Hnq.
      destruct (same_shape t _) eqn:Hst; [|done].
      destruct (same_shape tq _) eqn:Hsq; [|done].
      injection Hn as <-. injection Hnq as <-.
      apply same_shape_true in Hst, Hsq.
      assert (length t = bsz) as Hlt.
      { by rewrite <- (length_fmap length t), Hst, length_fmap. }
      eexists _, _. split; [exact Hs'|]. split; [exact Hq'|].
      split.
      { rewrite !length_zip_with, Hlcur, Hlcur_sq. lia. }
      split.
      { rewrite fmap_app, length_zip_with, Hlcur, Hlt, Nat.min_id.
        apply Forall2_app; [by rewrite <- Hlt|].
        cbn [fmap list_fmap fst]. constructor; [|constructor].
        intros a' Ha'. rewrite Hta in Ha'. by injection Ha' as <-. }
      intros e He. rewrite length_zip_with, Hlcur in He.
      assert (e < bsz)%nat as He' by lia.
      destruct (Hcur e He') as (Hc1 & Hc2 & Hc3).
      destruct (Hrows e) as (Hl_old & Ht_old & Hq_old); [lia|].
      cbv zeta. rewrite Hzip.
      split; [|split].
      * apply Forall2_app; [done|]. by repeat constructor.
      * rewrite running_sum_snoc, <- Ht_old, lookup_zip_with, Hc1.
        destruct (t !! e) as [r|] eqn:Hte; [done|].
        apply lookup_ge_None in Hte. lia.
      * rewrite running_sum_snoc, <- Hq_old, lookup_zip_with, Hc2.
        destruct (tq !! e) as [r|] eqn:Hte; [done|].
        apply lookup_ge_None in Hte. lia.
  - cbn [delta_partial_list]. intros wanted' Hw'.
    rewrite Hw in Hw'. injection Hw' as <-.
    rewrite (Hdelta wanted Hw). destruct wanted; [|done].
    by rewrite fmap_app.
Qed.

Lemma whole_batch_traced (self : NoiseTunnel F World Forward) (it : bool)
    (rcd : Value F) (inputs : list (Tensor F)) (stdevs : Value F) (size : Z)
    (kw : gmap string (Value F)) (ks : list Z)
    (parts : list (list (Tensor F) * option (Tensor F)))
    (st st' : Locals F) (w w' : World) :
  trials_traced self it rcd inputs stdevs ks parts st →
  whole_batch self it rcd inputs stdevs size kw st w = (Ok st', w') →
  ∃ p, trials_traced self it rcd inputs stdevs (ks ++ [size])
         (parts ++ [p]) st'.
Proof.
  intros Hinv Hb. unfold whole_batch in Hb.
  apply bind_inv_ok in Hb as (noisy & w1 & Hnoise & Hb).
  apply bind_inv_ok in Hb as ([[aps iat] d] & w2 & Hc & Hb).
  exists (aps, d).
  destruct (decide (length (sum_attributions st) = 0%nat)) as [Hz|Hnz];
    apply bind_inv_ok in Hb as ([[s q] dl] & w3 & Hu & [= <- _]);
    apply lift_inv_ok in Hu as [Hu _];
    eapply sub_batch_step; try done; auto.
Qed.

Lemma whole_batches_traced (self : NoiseTunnel F World Forward) (it : bool)
    (rcd : Value F) (inputs : list (Tensor F)) (stdevs : Value F) (size : Z)
    (kw : gmap string (Value F)) (n : nat) :
  ∀ (ks : list Z) (parts : list (list (Tensor F) * option (Tensor F)))
    (st st' : Locals F) (w w' : World),
  trials_traced self it rcd inputs stdevs ks parts st →
  for_range n (whole_batch self it rcd inputs stdevs size kw) st w
  = (Ok st', w') →
  ∃ parts', trials_traced self it rcd inputs stdevs
              (ks ++ replicate n size) parts' st'.
Proof.
  induction n as [|n IH]; intros ks parts st st' w w' Hinv Hf.
  - injection Hf as <- _. exists parts. by rewrite app_nil_r.
  - cbn [for_range] in Hf.
    apply bind_inv_ok in Hf as (s1 & w1 & Hs1 & Hf).
    destruct (whole_batch_traced _ _ _ _ _ _ _ _ _ _ _ _ _ Hinv Hs1)
      as [p Hinv1].
    destruct (IH _ _ _ _ _ _ Hinv1 Hf) as [parts' Hinv'].
    exists parts'. cbn [replicate].
    by rewrite <- (assoc_L (++)) in Hinv'.
Qed.

Lemma remaining_batch_traced (self : NoiseTunnel F World Forward) (it : bool)
    (rcd : Value F) (inputs : list (Tensor F)) (stdevs : Value F)
    (draw : bool) (size : Z)
    (kw : gmap string (Value F)) (ks : list Z)
    (parts : list (list (Tensor F) * option (Tensor F)))
    (st st' : Locals F) (w w' : World) :
  trials_traced self it rcd inputs stdevs ks parts st →
  remaining_batch self it rcd inputs stdevs draw size kw st w = (Ok st', w') →
  ∃ p, trials_traced self it rcd inputs stdevs (ks ++ [size])
         (parts ++ [p]) st'.
Proof.
  intros Hinv Hb. unfold remaining_batch in Hb.
  apply bind_inv_ok in Hb as (noisy & w1 & Hnoise & Hb).
  apply bind_inv_ok in Hb as (kw' & w2 & _ & Hb).
  apply bind_inv_ok in Hb as ([[aps iat] d] & w3 & Hc & Hb).
  apply bind_inv_ok in Hb as ([[s q] dl] & w4 & Hu & [= <- _]).
  apply lift_inv_ok in Hu as [Hu _].
  exists (aps, d). eapply sub_batch_step; try done. by left.
Qed.

Lemma run_trials_traced (self : NoiseTunnel F World Forward)
    (inputs : TensorOrTuple F) (nt_type : string) (N : Z) (S : option Z)
    (stdevs : Value F) (draw : bool) (rcd : Value F)
    (kwargs : gmap string (Value F)) (st : Locals F) (w w' : World) :
  run_trials self inputs nt_type N S stdevs draw rcd kwargs w = (Ok st, w') →
  ∃ parts,
    trials_traced self (_is_tuple inputs) rcd
      (_format_tensor_into_tuples inputs) stdevs
      (replicate (Z.to_nat (N `div` sub_batch_size N S)) (sub_batch_size N S)
       ++ (if decide (N - N `div` sub_batch_size N S * sub_batch_size N S > 0)
           then [N - N `div` sub_batch_size N S * sub_batch_size N S]
           else []))
      parts st.
Proof.
  unfold run_trials. intros Hr.
  apply bind_inv_ok in Hr as (partition & w1 & Hp & Hr).
  apply lift_inv_ok in Hp as [Hp _]. unfold py_floordiv in Hp.
  destruct (decide (sub_batch_size N S = 0)); [done|]. injection Hp as <-.
  apply bind_inv_ok in Hr as (u & w2 & _ & Hr).
  apply bind_inv_ok in Hr as (kw & w3 & _ & Hr).
  apply bind_inv_ok in Hr as (st1 & w4 & Hloop & Hr).
  eapply (whole_batches_traced _ _ _ _ _ _ _ _ [] []) in Hloop
    as [parts Hinv].
  2:{ split; [constructor|]. split; [done|]. split; [by intros j ?|].
      by intros []. }
  cbn [app] in Hinv.
  destruct (decide _).
  - destruct (remaining_batch_traced _ _ _ _ _ _ _ _ _ _ _ _ _ _ Hinv Hr)
      as [p Hinv'].
    by eexists.
  - injection Hr as <- _. exists parts. by rewrite app_nil_r.
Qed.

Lemma length_concat_trials (sizes : list Z) (trials : list (Tensor F)) :
  Forall2 (λ k b, length b = Z.to_nat k) sizes trials →
  Forall (λ s, 1 ≤ s) sizes →
  length (concat trials) = Z.to_nat (foldr Z.add 0 sizes).
Proof.
  induction 1 as [|k b sizes trials Hb _ IH]; intros Hpos; [done|].
  apply Forall_cons in Hpos as [Hk Hpos].
  cbn [concat foldr]. rewrite length_app, Hb, IH by done.
  assert (0 ≤ foldr Z.add 0 sizes).
  { clear -Hpos. induction Hpos; simpl; lia. }
  lia.
Qed.

Lemma expected_of_inv (N : Z) (l : list (option (Tensor F)))
    (e : list (Tensor F)) :
  expected_of N l = Ok e →
  ∃ ts, l = Some <$> ts
        ∧ e = tensor_map (λ x, fdiv (fmul x (fof_Z 1)) (fof_Z N)) <$> ts.
Proof.
  unfold expected_of. intros He. apply mapM_Result_Forall2 in He.
  induction He as [|s y l e Hy _ (ts & -> & ->)]; [by exists []|].
  destruct s as [t|]; [|done]. injection Hy as <-. by exists (t :: ts).
Qed.

(** C2.  For [nt_samples = N >= 1] and [nt_samples_batch_size = S >= 1]
    (and a supported smoothing mode, so that the validation passes),
    what [attribute] does up to the end of the trials is: expand the
    keyword arguments for sub-batches of size [min(N, S)], run
    [whole = N // min(N, S)] sub-batches of that size one after the
    other, and then, exactly when [remainder = N - whole * min(N, S)] is
    positive, one last sub-batch of size [remainder].  There is at least
    one whole sub-batch, the remainder is smaller than a whole
    sub-batch, and the sizes of the sub-batches add up to [N].
    Seen from a wrapped method that records the number of slices of the
    first input tensor of each call (and collaborators that leave the
    record alone): a call of [attribute] that returns has called the
    method once per sub-batch, in this order, on [B * size] slices for a
    sub-batch of [size] trials, [B] being the number of examples.
    And the accumulators hold all [N] trials: when the sub-batches are
    done there is, for each of them in order, what the wrapped method
    returned for its noisy replicas, and for every attribution tensor
    [j] (that every sub-batch returned) [sum_attributions[j]] has one
    slice per example (the tensor of a sub-batch of [size] trials has
    [size] slices per example), and for every example [e] the
    sub-batch of [size] trials has exactly [size] slices for [e], [N]
    slices in all; slice [e] of [sum_attributions[j]] is their running
    sum (the sum of the slices of the first sub-batch, then the old
    value plus the sum of the slices of the next one), and slice [e] of
    [sum_attributions_sq[j]] the running sum of their squares. *)
Theorem sub_batches_cover_all_samples
    (self : NoiseTunnel F World Forward) (inputs : TensorOrTuple F)
    (nt_type : string) (N S : Z) (stdevs : Value F) (draw : bool)
    (rcd : Value F) (kwargs : gmap string (Value F)) (w : World) :
  1 ≤ N → 1 ≤ S → nt_type ∈ SUPPORTED_NOISE_TUNNEL_TYPES →
  let size := Z.min N S in
  let whole := N `div` size in
  let remainder := N - whole * size in
  let sizes := replicate (Z.to_nat whole) size
               ++ (if decide (remainder > 0) then [remainder] else []) in
  run_trials self inputs nt_type N (Some S) stdevs draw rcd kwargs w
  = (kwargs_copy ← expand_partial (_format_tensor_into_tuples inputs) draw
                     size kwargs;
     st ← for_range (Z.to_nat whole)
            (whole_batch self (_is_tuple inputs) rcd
               (_format_tensor_into_tuples inputs) stdevs size kwargs_copy)
            {| sum_attributions := []; sum_attributions_sq := [];
               delta_partial_list := []; is_attrib_tuple := None |};
     if decide (remainder > 0)
     then remaining_batch self (_is_tuple inputs) rcd
            (_format_tensor_into_tuples inputs) stdevs draw remainder kwargs st
     else mret st) w
  ∧ 1 ≤ whole ∧ 0 ≤ remainder < size
  ∧ Forall (λ s, 1 ≤ s) sizes
  ∧ foldr Z.add 0 sizes = N
  ∧ (∀ (calls : World → list nat) (x : Tensor F) (rest : list (Tensor F))
       (o : Output F) (w' : World),
       (∀ mean std, logs calls (torch_normal1 mean std) []) →
       (∀ n kw,
          logs calls (_expand_and_update_additional_forward_args n kw) []) →
       (∀ n kw, logs calls (_expand_and_update_target n kw) []) →
       (∀ xs n kw d, logs calls (_expand_and_update_baselines xs n kw d) []) →
       (∀ n kw, logs calls (_expand_and_update_feature_mask n kw) []) →
       (∀ a kw, logs calls (attribute (attribution_method self) a kw)
                  [first_shape0 a]) →
       _format_tensor_into_tuples inputs = x :: rest →
       NoiseTunnel_attribute self inputs nt_type N (Some S) stdevs draw
         kwargs w = (Ok o, w') →
       calls w'
       = calls w ++ ((λ s, (shape0 x * Z.to_nat s)%nat) <$> sizes))
  ∧ (∀ (st : Locals F) (w' : World),
       run_trials self inputs nt_type N (Some S) stdevs draw rcd kwargs w
       = (Ok st, w') →
       ∃ parts : list (list (Tensor F) * option (Tensor F)),
         Forall2 (λ k p, sub_batch_result self (_is_tuple inputs) rcd
                           (_format_tensor_into_tuples inputs) stdevs k
                           p.1 p.2) sizes parts
         ∧ ∀ j : nat, Forall (λ p, is_Some (p.1 !! j)) parts →
             ∃ t q : Tensor F,
               sum_attributions st !! j = Some (Some t)
               ∧ sum_attributions_sq st !! j = Some (Some q)
               ∧ length q = length t
               ∧ Forall2 (λ k p, ∀ a, p.1 !! j = Some a →
                                   length a = (length t * Z.to_nat k)%nat)
                   sizes parts
               ∧ ∀ e : nat, (e < length t)%nat →
                   let trials :=
                     zip_with (λ k p, example_trials (Z.to_nat k) e
                                        (default [] (p.1 !! j)))
                       sizes parts in
                   Forall2 (λ k b, length b = Z.to_nat k) sizes trials
                   ∧ length (concat trials) = Z.to_nat N
                   ∧ t !! e = running_sum sum_block trials
                   ∧ q !! e
                     = running_sum (λ b, sum_block (tensor_map fsquare b))
                         trials).
Proof.
  intros HN HS Hty size whole remainder sizes.
  destruct (sub_batch_arithmetic N S HN HS) as (Hsize & Hwhole & Hrem).
  fold size whole remainder in Hsize, Hwhole, Hrem.
  assert (Forall (λ s, 1 ≤ s) sizes) as Hpos.
  { unfold sizes. apply Forall_app. split.
    + apply Forall_replicate. lia.
    + destruct (decide _); [|done]. apply Forall_singleton. lia. }
  assert (foldr Z.add 0 sizes = N) as Hsum_sizes.
  { assert (∀ n, foldr Z.add 0 (replicate n size) = Z.of_nat n * size)
      as Hsum.
    { induction n as [|n IH]; [done|]. simpl. rewrite IH. lia. }
    unfold sizes. rewrite foldr_app.
    assert (∀ l a, foldr Z.add a l = foldr Z.add 0 l + a) as Hacc.
    { induction l as [|x l IH]; intros a; simpl; [lia|]. rewrite IH. lia. }
    rewrite Hacc, Hsum, Z2Nat.id by lia.
    destruct (decide _); simpl; unfold remainder in *; lia. }
  split; [|split; [done|split; [done|split; [done|split; [done|split]]]]].
  - unfold run_trials, sub_batch_size, py_floordiv. fold size.
    destruct (decide (size = 0)) as [?|_]; [lia|].
    rewrite bind_lift_ok, validate_supported by done.
    reflexivity.
  - intros calls x rest o w' Hnormal Hargs Htarget Hbase Hmask Hattr Hx Hrun.
    unfold NoiseTunnel_attribute in Hrun.
    apply bind_inv_ok in Hrun as (st & w1 & Hrun & Hfin).
    apply lift_inv_ok in Hfin as [_ ->].
    by apply (run_trials_counted calls self Hnormal Hargs Htarget Hbase Hmask
                Hattr inputs nt_type N S stdevs draw _ kwargs x rest HN HS Hx)
      in Hrun.
  - intros st w' Hrun.
    destruct (run_trials_traced _ _ _ _ _ _ _ _ _ _ _ _ Hrun)
      as (parts & Hprov & _ & Hfold & _).
    change (sub_batch_size N (Some S)) with size in Hprov, Hfold.
    fold whole remainder in Hprov, Hfold. fold sizes in Hprov, Hfold.
    exists parts. split; [done|]. intros j Hall.
    destruct (Hfold j) as (t & q & Ht & Hq & Hl & Hex & Hrows).
    { intros ->%fmap_nil_inv. apply Forall2_nil_inv_r in Hprov.
      unfold sizes in Hprov. apply app_eq_nil in Hprov as [Hprov _].
      destruct (Z.to_nat whole) eqn:Hw; [lia|done]. }
    { by apply Forall_fmap. }
    exists t, q. split; [done|]. split; [done|]. split; [done|].
    split; [by apply Forall2_fmap_r in Hex|].
    intros e He. destruct (Hrows e He) as (Hlen & Hte & Hqe).
    cbv zeta in *. rewrite zip_with_fmap_r in Hlen, Hte, Hqe.
    split; [done|]. split; [|done].
    rewrite (length_concat_trials sizes) by done. by rewrite Hsum_sizes.
Qed.

(** *** Replication and folding *)

Lemma torch_normal_shape (mean : F) (std noise : Tensor F) w w' :
  torch_normal mean std w = (Ok noise, w') →
  length <$> noise = length <$> std.
Proof.
  intros Hn. unfold torch_normal in Hn.
  apply (mapM_M_Forall2 (λ r r', length r' = length r)) in Hn.
  - induction Hn as [|???? Hl _ IH]; [done|]. rewrite !fmap_cons. by f_equal.
  - intros x y w1 w2 Hxy. by eapply mapM_M_length.
Qed.

Lemma add_noise_to_input_ok (input : Tensor F) (stdev : F) (k : Z)
    (w w' : World) (noise : Tensor F) :
  0 ≤ k → rectangular input →
  torch_normal fzero
    (tensor_full (shape0 input * Z.to_nat k) (tail_size input) stdev) w
  = (Ok noise, w') →
  add_noise_to_input input stdev k w
  = (Ok (zip_with (zip_with fadd)
           (repeat_interleave (Z.to_nat k) input) noise), w').
Proof.
  intros Hk Hr Hn. unfold add_noise_to_input.
  destruct (decide (k < 0)) as [?|_]; [lia|].
  rewrite (bind_ok _ _ _ _ _ Hn). unfold tensor_binop, same_shape.
  rewrite bool_decide_eq_true_2; [done|].
  rewrite (torch_normal_shape _ _ _ _ _ Hn), shape_tensor_full.
  by apply shape_repeat_interleave.
Qed.

(** C4.  [repeat_interleave] lays the replicas out example-major: the
    expanded tensor has [B * k] slices and slice [e * k + j], for
    [j < k], is example [e].  [add_noise_to_input] adds to it, slice by
    slice and element by element, the draws of [torch.normal].
    [update_sum_attribution_and_sq] views an attribution of [B * k]
    slices as [B] blocks of [k] consecutive slices: entry [e] of what it
    adds to [sum_attribution[i]] (or stores there the first time) is the
    sum of the slices [e * k], ..., [e * k + k - 1], the [k] trials of
    example [e] and nothing else, and entry [e] of what it adds to
    [sum_attribution_sq[i]] is the sum of their elementwise squares. *)
Theorem replicas_example_major_and_folded_per_example :
  (∀ (k : nat) (input : Tensor F),
     length (repeat_interleave k input) = (shape0 input * k)%nat
     ∧ ∀ e j : nat, (j < k)%nat →
         repeat_interleave k input !! (e * k + j)%nat = input !! e)
  ∧ (∀ (input : Tensor F) (stdev : F) (k : nat) (w w' : World)
       (noise : Tensor F),
       rectangular input →
       torch_normal fzero
         (tensor_full (shape0 input * k) (tail_size input) stdev) w
       = (Ok noise, w') →
       ∃ noisy : Tensor F,
         add_noise_to_input input stdev (Z.of_nat k) w = (Ok noisy, w')
         ∧ length noisy = (shape0 input * k)%nat
         ∧ ∀ (e j : nat) (row : list F), (j < k)%nat →
             input !! e = Some row →
             ∃ draws : list F,
               noise !! (e * k + j)%nat = Some draws
               ∧ length draws = length row
               ∧ noisy !! (e * k + j)%nat = Some (zip_with fadd row draws))
  ∧ (∀ (sums sums_sq : list (option (Tensor F))) (attribution : Tensor F)
       (i k B : nat) (a b : option (Tensor F)),
       (0 < k)%nat → length attribution = (B * k)%nat →
       sums !! i = Some a → sums_sq !! i = Some b →
       ∃ cur cur_sq : Tensor F,
         length cur = B ∧ length cur_sq = B
         ∧ (∀ e : nat, (e < B)%nat →
              cur !! e
              = Some (sum_block (take k (drop (e * k) attribution)))
              ∧ cur_sq !! e
                = Some (sum_block (tensor_map fsquare
                                     (take k (drop (e * k) attribution))))
              ∧ ∀ j : nat, (j < k)%nat →
                  take k (drop (e * k) attribution) !! j
                  = attribution !! (e * k + j)%nat)
         ∧ update_sum_attribution_and_sq sums sums_sq attribution i
             (Z.of_nat k)
           = (new ← match a with
                    | None => Ok cur
                    | Some s => tensor_binop fadd s cur
                    end;
              new_sq ← match b with
                       | None => Ok cur_sq
                       | Some s => tensor_binop fadd s cur_sq
                       end;
              Ok (<[i := Some new]> sums, <[i := Some new_sq]> sums_sq))).
Proof.
  split; [|split].
  - intros k input. split; [apply length_repeat_interleave|].
    intros e j Hj. by apply lookup_repeat_interleave.
  - intros input stdev k w w' noise Hr Hn.
    pose proof (torch_normal_shape _ _ _ _ _ Hn) as Hshape.
    rewrite shape_tensor_full in Hshape.
    exists (zip_with (zip_with fadd) (repeat_interleave k input) noise).
    assert (length noise = (shape0 input * k)%nat) as Hlen.
    { rewrite <- (length_fmap length), Hshape. apply length_replicate. }
    split; [|split].
    + rewrite <- (Nat2Z.id k) at 2.
      apply add_noise_to_input_ok; [lia|done|by rewrite Nat2Z.id].
    + rewrite length_zip_with, length_repeat_interleave, Hlen. lia.
    + intros e j row Hj He.
      assert (e < shape0 input)%nat as Hlt by by eapply lookup_lt_Some.
      assert (e * k + j < shape0 input * k)%nat as Hidx by nia.
      destruct (lookup_lt_is_Some_2 noise (e * k + j)) as [draws Hd];
        [by rewrite Hlen|].
      exists draws. split; [done|]. split.
      * assert ((length <$> noise) !! (e * k + j)%nat
                = Some (length draws)) as Hl
          by by rewrite list_lookup_fmap, Hd.
        rewrite Hshape in Hl. apply lookup_replicate in Hl as [Hl _].
        rewrite Hl. symmetry.
        unfold rectangular in Hr. rewrite Forall_lookup in Hr. by eapply Hr.
      * apply lookup_zip_with_rows; [|done].
        by rewrite lookup_repeat_interleave.
  - intros sums sums_sq attribution i k B a b Hk Hlen Ha Hb.
    exists (sum_dim1 (blocks B k attribution)),
           (sum_dim1 (map (tensor_map fsquare) (blocks B k attribution))).
    split; [|split; [|split]].
    + unfold sum_dim1. by rewrite length_map, length_blocks.
    + unfold sum_dim1. by rewrite !length_map, length_blocks.
    + intros e He. split; [by apply lookup_sum_dim1_blocks|].
      split; [by apply lookup_sum_dim1_blocks_sq|].
      intros j Hj. by apply lookup_example_trials.
    + unfold update_sum_attribution_and_sq.
      rewrite (view_replicas_ok k B) by done.
      unfold py_index. rewrite Ha. cbn [mbind Result_bind].
      destruct (match a with None => _ | Some s => _ end); [|done].
      cbn [mbind Result_bind]. by rewrite Hb.
Qed.

(** *** Mean, mean of squares and variance *)

Lemma compute_smoothing_smoothgrad (e q : list (Tensor F)) :
  compute_smoothing "smoothgrad" e q = Ok e.
Proof. reflexivity. Qed.

Lemma compute_smoothing_smoothgrad_sq (e q : list (Tensor F)) :
  compute_smoothing "smoothgrad_sq" e q = Ok q.
Proof. reflexivity. Qed.

Lemma format_output_roundtrip (a : TensorOrTuple F) :
  _format_output (_is_tuple a) (_format_tensor_into_tuples a) = Ok a.
Proof. by destruct a. Qed.

Lemma update_sum_paired (sums sums_sq sums' sums_sq' : list (option (Tensor F)))
    (attribution : Tensor F) (i : nat) (k : Z) :
  Forall2 paired sums sums_sq →
  update_sum_attribution_and_sq sums sums_sq attribution i k
  = Ok (sums', sums_sq') →
  Forall2 paired sums' sums_sq'.
Proof.
  intros Hp Hu. unfold update_sum_attribution_and_sq in Hu.
  apply Result_bind_inv_ok in Hu as (v & _ & Hu).
  apply Result_bind_inv_ok in Hu as (a & Ha & Hu).
  apply Result_bind_inv_ok in Hu as (new & Hnew & Hu).
  apply Result_bind_inv_ok in Hu as (b & Hb & Hu).
  apply Result_bind_inv_ok in Hu as (new_sq & Hnew_sq & [= <- <-]).
  unfold py_index in Ha, Hb.
  destruct (sums !! i) as [a'|] eqn:Hsi; [|done]. injection Ha as ->.
  destruct (sums_sq !! i) as [b'|] eqn:Hqi; [|done]. injection Hb as ->.
  apply Forall2_insert; [done|].
  pose proof (Forall2_lookup_lr _ _ _ _ _ _ Hp Hsi Hqi) as Hab.
  pose proof (shape_sum_dim1_sq v) as Hv.
  destruct a as [s|], b as [q|]; try done; cbn [paired] in *.
  - unfold tensor_binop in Hnew, Hnew_sq.
    destruct (same_shape s _) eqn:Hs; [|done].
    destruct (same_shape q _) eqn:Hq; [|done].
    injection Hnew as <-. injection Hnew_sq as <-.
    apply same_shape_true in Hs, Hq.
    by rewrite !shape_zip_with.
  - injection Hnew as <-. injection Hnew_sq as <-. done.
Qed.

Lemma update_sums_from_paired (aps : list (Tensor F)) (i : nat)
    (sums sums_sq sums' sums_sq' : list (option (Tensor F))) (k : Z) :
  Forall2 paired sums sums_sq →
  update_sums_from i aps sums sums_sq k = Ok (sums', sums_sq') →
  Forall2 paired sums' sums_sq'.
Proof.
  revert i sums sums_sq. induction aps as [|t aps IH];
    intros i sums sums_sq Hp Hu.
  - by injection Hu as <- <-.
  - cbn [update_sums_from] in Hu.
    apply Result_bind_inv_ok in Hu as ([s q] & Hsq & Hu).
    eapply IH; [|exact Hu]. by eapply update_sum_paired.
Qed.

Lemma update_partial_paired (self : NoiseTunnel F World Forward)
    (rcd : Value F) (aps : list (Tensor F)) (d : option (Tensor F))
    (sums sums_sq dl sums' sums_sq' dl' : list (option (Tensor F)))
    (k : Z) :
  Forall2 paired sums sums_sq →
  update_partial_attribution_and_delta self rcd aps d sums sums_sq dl k
  = Ok (sums', sums_sq', dl') →
  Forall2 paired sums' sums_sq'.
Proof.
  intros Hp Hu. unfold update_partial_attribution_and_delta in Hu.
  apply Result_bind_inv_ok in Hu as ([s q] & Hsq & Hu).
  apply Result_bind_inv_ok in Hu as (wanted & _ & [= <- <- _]).
  by eapply update_sums_from_paired.
Qed.

Lemma whole_batch_paired (self : NoiseTunnel F World Forward)
    (is_inputs_tuple : bool) (rcd : Value F) (inputs : list (Tensor F))
    (stdevs : Value F) (size : Z) (kwargs : gmap string (Value F))
    (st st' : Locals F) (w w' : World) :
  paired_locals st →
  whole_batch self is_inputs_tuple rcd inputs stdevs size kwargs st w
  = (Ok st', w') →
  paired_locals st'.
Proof.
  intros Hp Hb. unfold whole_batch in Hb.
  apply bind_inv_ok in Hb as (noisy & w1 & _ & Hb).
  apply bind_inv_ok in Hb as ([[aps iat] d] & w2 & _ & Hb).
  destruct (decide _) as [Hz|Hnz].
  - apply bind_inv_ok in Hb as ([[s q] dl] & w3 & Hu & [= <- _]).
    apply lift_inv_ok in Hu as [Hu _].
    eapply update_partial_paired; [|exact Hu].
    apply Forall2_replicate. done.
  - apply bind_inv_ok in Hb as ([[s q] dl] & w3 & Hu & [= <- _]).
    apply lift_inv_ok in Hu as [Hu _].
    by eapply update_partial_paired.
Qed.

Lemma remaining_batch_paired (self : NoiseTunnel F World Forward)
    (is_inputs_tuple : bool) (rcd : Value F) (inputs : list (Tensor F))
    (stdevs : Value F) (draw : bool) (size : Z)
    (kwargs : gmap string (Value F)) (st st' : Locals F) (w w' : World) :
  paired_locals st →
  remaining_batch self is_inputs_tuple rcd inputs stdevs draw size kwargs
    st w = (Ok st', w') →
  paired_locals st'.
Proof.
  intros Hp Hb. unfold remaining_batch in Hb.
  apply bind_inv_ok in Hb as (noisy & w1 & _ & Hb).
  apply bind_inv_ok in Hb as (kw & w2 & _ & Hb).
  apply bind_inv_ok in Hb as ([[aps iat] d] & w3 & _ & Hb).
  apply bind_inv_ok in Hb as ([[s q] dl] & w4 & Hu & [= <- _]).
  apply lift_inv_ok in Hu as [Hu _].
  by eapply update_partial_paired.
Qed.

Lemma run_trials_paired (self : NoiseTunnel F World Forward)
    (inputs : TensorOrTuple F) (nt_type : string) (N : Z) (S : option Z)
    (stdevs : Value F) (draw : bool) (rcd : Value F)
    (kwargs : gmap string (Value F)) (st : Locals F) (w w' : World) :
  run_trials self inputs nt_type N S stdevs draw rcd kwargs w = (Ok st, w') →
  paired_locals st.
Proof.
  unfold run_trials. intros Hr.
  apply bind_inv_ok in Hr as (partition & w1 & _ & Hr).
  apply bind_inv_ok in Hr as (_ & w2 & _ & Hr).
  apply bind_inv_ok in Hr as (kw & w3 & _ & Hr).
  apply bind_inv_ok in Hr as (st1 & w4 & Hloop & Hr).
  assert (paired_locals st1) as Hst1.
  { eapply for_range_invariant; [|  |exact Hloop].
    - intros s s' wa wb Hs Hb. by eapply whole_batch_paired.
    - constructor. }
  destruct (decide _).
  - by eapply remaining_batch_paired.
  - by injection Hr as <- _.
Qed.

Lemma smoothgrad_supported :
  ("smoothgrad" ∈ SUPPORTED_NOISE_TUNNEL_TYPES)%string.
Proof. apply list_elem_of_here. Qed.

Lemma smoothgrad_sq_supported :
  ("smoothgrad_sq" ∈ SUPPORTED_NOISE_TUNNEL_TYPES)%string.
Proof. apply list_elem_of_further, list_elem_of_here. Qed.

Lemma vargrad_supported :
  ("vargrad" ∈ SUPPORTED_NOISE_TUNNEL_TYPES)%string.
Proof. do 2 apply list_elem_of_further. apply list_elem_of_here. Qed.

Lemma run_trials_mode_irrelevant (self : NoiseTunnel F World Forward)
    (inputs : TensorOrTuple F) (t t' : string) (N : Z) (S : option Z)
    (stdevs : Value F) (draw : bool) (rcd : Value F)
    (kwargs : gmap string (Value F)) (w : World) :
  t ∈ SUPPORTED_NOISE_TUNNEL_TYPES → t' ∈ SUPPORTED_NOISE_TUNNEL_TYPES →
  run_trials self inputs t N S stdevs draw rcd kwargs w
  = run_trials self inputs t' N S stdevs draw rcd kwargs w.
Proof.
  intros Ht Ht'. unfold run_trials.
  destruct (py_floordiv N (sub_batch_size N S)) as [p|e]; [|done].
  by rewrite !bind_lift_ok, !validate_supported.
Qed.

Lemma expected_of_shapes (N : Z) (sums sums_sq : list (option (Tensor F)))
    (e q : list (Tensor F)) :
  Forall2 paired sums sums_sq →
  expected_of N sums = Ok e → expected_of N sums_sq = Ok q →
  Forall2 (λ m s, length <$> m = length <$> s) e q.
Proof.
  unfold expected_of. intros Hp He Hq.
  apply mapM_Result_Forall2 in He, Hq. revert e q He Hq.
  induction Hp as [|a b sums sums_sq Hab _ IH]; intros e q He Hq.
  - apply Forall2_nil_inv_l in He as ->.
    apply Forall2_nil_inv_l in Hq as ->. constructor.
  - apply Forall2_cons_inv_l in He as (m & e' & Hm & He & ->).
    apply Forall2_cons_inv_l in Hq as (s & q' & Hs & Hq & ->).
    constructor; [|by apply IH].
    destruct a as [ta|], b as [tb|]; try done.
    injection Hm as <-. injection Hs as <-. cbn [paired] in Hab.
    unfold tensor_map. rewrite <- !list_fmap_compose.
    transitivity (length <$> ta).
    + apply list_fmap_ext. intros _ r _. apply length_map.
    + rewrite Hab. apply list_fmap_ext. intros _ r _. symmetry.
      apply length_map.
Qed.

Lemma compute_smoothing_vargrad (e q : list (Tensor F)) :
  Forall2 (λ m s, length <$> m = length <$> s) e q →
  compute_smoothing "vargrad" e q
  = Ok (zip_with
          (λ mean mean_sq,
             zip_with (zip_with fsub) mean_sq
               (zip_with (zip_with fmul) mean mean)) e q).
Proof.
  intros Hs.
  change (compute_smoothing "vargrad" e q)
    with (mapM (λ '(expected_attribution, expected_attribution_sq),
                  sq ← tensor_binop fmul expected_attribution
                         expected_attribution;
                  tensor_binop fsub expected_attribution_sq sq) (zip e q)).
  induction Hs as [|m s e q Hms _ IH]; [done|].
  cbn [zip_with mapM]. rewrite (tensor_binop_ok fmul m m) by done.
  cbn [mbind Result_bind].
  rewrite (tensor_binop_ok fsub s (zip_with (zip_with fmul) m m)).
  2:{ by rewrite shape_zip_with. }
  cbn [mbind Result_bind]. by rewrite IH.
Qed.

Lemma format_output_inv (b : bool) (l : list (Tensor F))
    (a : TensorOrTuple F) :
  _format_output b l = Ok a →
  _format_tensor_into_tuples a = l ∧ _is_tuple a = b.
Proof.
  unfold _format_output. destruct b.
  - by intros [= <-].
  - destruct l as [|t [|??]]; try done. by intros [= <-].
Qed.

(** C3.  When, from one world (the same random draws and the same
    behaviour of the wrapped method), [attribute] returns with
    [nt_type = "smoothgrad"] and with [nt_type = "smoothgrad_sq"], it
    returns with [nt_type = "vargrad"] too, from the same accumulators:
    the mean output is [sum * 1 / N], the mean-of-squares output is
    [sum_of_squares * 1 / N], and the variance output is, tensor by
    tensor and element by element, the mean-of-squares output minus the
    product of the mean output with itself.  The tuple form and the
    delta are those of the mean output.  Spelled out: every slot of
    both accumulators holds a tensor; the mean output is these sums
    with every element [x] replaced by [x * 1 / N] ([N] the requested
    number of samples, not [N - 1]), and the mean-of-squares output
    the sums of squares likewise; and the accumulators hold, example by
    example, the running sum of the trials of the sub-batches and the
    running sum of the squares of the same trials. *)
Theorem vargrad_is_mean_of_squares_minus_squared_mean
    (self : NoiseTunnel F World Forward) (inputs : TensorOrTuple F)
    (N : Z) (S : option Z) (stdevs : Value F) (draw : bool)
    (kwargs : gmap string (Value F)) (w w_mean w_sq : World)
    (o_mean o_sq : Output F) :
  NoiseTunnel_attribute self inputs "smoothgrad" N S stdevs draw kwargs w
  = (Ok o_mean, w_mean) →
  NoiseTunnel_attribute self inputs "smoothgrad_sq" N S stdevs draw kwargs w
  = (Ok o_sq, w_sq) →
  ∃ (st : Locals F) (o_var : Output F),
    run_trials self inputs "vargrad" N S stdevs draw
      (return_convergence_delta_of kwargs) kwargs w = (Ok st, w_mean)
    ∧ expected_of N (sum_attributions st)
      = Ok (_format_tensor_into_tuples (attributions_of o_mean))
    ∧ expected_of N (sum_attributions_sq st)
      = Ok (_format_tensor_into_tuples (attributions_of o_sq))
    ∧ NoiseTunnel_attribute self inputs "vargrad" N S stdevs draw kwargs w
      = (Ok o_var, w_mean)
    ∧ _format_tensor_into_tuples (attributions_of o_var)
      = zip_with
          (λ mean mean_sq,
             zip_with (zip_with fsub) mean_sq
               (zip_with (zip_with fmul) mean mean))
          (_format_tensor_into_tuples (attributions_of o_mean))
          (_format_tensor_into_tuples (attributions_of o_sq))
    ∧ _is_tuple (attributions_of o_var) = _is_tuple (attributions_of o_mean)
    ∧ match o_var, o_mean with
      | Bare _, Bare _ => True
      | WithDelta _ d, WithDelta _ d' => d = d'
      | _, _ => False
      end
    ∧ (∃ sums sums_sq : list (Tensor F),
         sum_attributions st = Some <$> sums
         ∧ sum_attributions_sq st = Some <$> sums_sq
         ∧ _format_tensor_into_tuples (attributions_of o_mean)
           = tensor_map (λ x, fdiv (fmul x (fof_Z 1)) (fof_Z N)) <$> sums
         ∧ _format_tensor_into_tuples (attributions_of o_sq)
           = tensor_map (λ x, fdiv (fmul x (fof_Z 1)) (fof_Z N))
               <$> sums_sq)
    ∧ ∃ parts : list (list (Tensor F) * option (Tensor F)),
        Forall2 (λ k p, sub_batch_result self (_is_tuple inputs)
                          (return_convergence_delta_of kwargs)
                          (_format_tensor_into_tuples inputs) stdevs k
                          p.1 p.2)
          (replicate (Z.to_nat (N `div` sub_batch_size N S))
             (sub_batch_size N S)
           ++ (if decide (N - N `div` sub_batch_size N S
                              * sub_batch_size N S > 0)
               then [N - N `div` sub_batch_size N S * sub_batch_size N S]
               else []))
          parts
        ∧ trials_folded
            (replicate (Z.to_nat (N `div` sub_batch_size N S))
               (sub_batch_size N S)
             ++ (if decide (N - N `div` sub_batch_size N S
                                * sub_batch_size N S > 0)
                 then [N - N `div` sub_batch_size N S * sub_batch_size N S]
                 else []))
            (fst <$> parts) (sum_attributions st) (sum_attributions_sq st).
Proof.
  intros Hmean Hsq.
  pose proof smoothgrad_supported as Hin1.
  pose proof smoothgrad_sq_supported as Hin2.
  pose proof vargrad_supported as Hin3.
  unfold NoiseTunnel_attribute in Hmean, Hsq.
  apply bind_inv_ok in Hmean as (st & w1 & Hrun & Hfin).
  apply lift_inv_ok in Hfin as [Hfin <-].
  apply bind_inv_ok in Hsq as (st' & w1' & Hrun' & Hfin').
  apply lift_inv_ok in Hfin' as [Hfin' <-].
  rewrite (run_trials_mode_irrelevant _ _ _ "smoothgrad") in Hrun' by done.
  rewrite Hrun in Hrun'. injection Hrun' as <- <-.
  pose proof (run_trials_paired _ _ _ _ _ _ _ _ _ _ _ _ Hrun) as Hp.
  apply smooth_and_return_inv in Hfin
    as (e & q & at1 & a1 & wanted & He & Hq & Hs1 & Hw & (b & Hb & Hf1) & Ho1).
  apply smooth_and_return_inv in Hfin'
    as (e' & q' & at2 & a2 & wanted' & He' & Hq' & Hs2 & Hw' & (b' & Hb' & Hf2)
        & Ho2).
  rewrite He in He'. injection He' as <-.
  rewrite Hq in Hq'. injection Hq' as <-.
  rewrite Hw in Hw'. injection Hw' as <-.
  rewrite Hb in Hb'. injection Hb' as <-.
  rewrite compute_smoothing_smoothgrad in Hs1. injection Hs1 as <-.
  rewrite compute_smoothing_smoothgrad_sq in Hs2. injection Hs2 as <-.
  pose proof (expected_of_shapes _ _ _ _ _ Hp He Hq) as Hshapes.
  apply format_output_inv in Hf1 as Hf1'. destruct Hf1' as [Ha1 Hb1].
  apply format_output_inv in Hf2 as Hf2'. destruct Hf2' as [Ha2 Hb2].
  set (vars := zip_with
                 (λ mean mean_sq,
                    zip_with (zip_with fsub) mean_sq
                      (zip_with (zip_with fmul) mean mean)) e q).
  assert (∃ a_var, _format_output b vars = Ok a_var) as [a_var Hfv].
  { unfold _format_output in *. destruct b; [by eexists|].
    destruct e as [|m [|??]]; try done. destruct q as [|s [|??]]; try done.
    by eexists. }
  apply format_output_inv in Hfv as Hfv'. destruct Hfv' as [Hav Hbv].
  assert (attributions_of o_mean = a1) as Hom
    by (destruct wanted; [by destruct Ho1 as (? & ? & _ & _ & ->)|by subst]).
  assert (attributions_of o_sq = a2) as Hos
    by (destruct wanted; [by destruct Ho2 as (? & ? & _ & _ & ->)|by subst]).
  exists st, (match o_mean with
              | Bare _ => Bare a_var
              | WithDelta _ d => WithDelta a_var d
              end).
  split; [by rewrite (run_trials_mode_irrelevant _ _ _ "smoothgrad")|].
  split; [by rewrite Hom, Ha1|]. split; [by rewrite Hos, Ha2|].
  split; [|split; [|split; [|split; [|split]]]].
  - unfold NoiseTunnel_attribute.
    rewrite (bind_ok _ _ _ st w_mean)
      by by rewrite (run_trials_mode_irrelevant _ _ _ "smoothgrad").
    unfold lift. f_equal. unfold smooth_and_return.
    rewrite He, Hq. cbn [mbind Result_bind].
    rewrite compute_smoothing_vargrad by done. fold vars.
    cbn [mbind Result_bind]. rewrite Hw. cbn [mbind Result_bind].
    unfold _apply_checks_and_return_attributions.
    destruct wanted.
    + destruct Ho1 as (ds & d & Hds & Hd & ->). rewrite Hds.
      cbn [mbind Result_bind]. rewrite Hd, Hb.
      cbn [mbind Result_bind fmap Result_fmap]. rewrite Hfv, Hw. done.
    + subst o_mean. rewrite Hb. cbn [mbind Result_bind].
      rewrite Hfv, Hw. done.
  - rewrite Hom, Hos, Ha1, Ha2. by destruct o_mean.
  - rewrite Hom, Hb1. by destruct o_mean.
  - by destruct o_mean.
  - destruct (expected_of_inv _ _ _ He) as (ts & Hts & Hets).
    destruct (expected_of_inv _ _ _ Hq) as (tq & Htq & Heq).
    exists ts, tq. by rewrite Hom, Hos, Ha1, Ha2.
  - destruct (run_trials_traced _ _ _ _ _ _ _ _ _ _ _ _ Hrun)
      as (parts & Hprov & _ & Hfold & _).
    by exists parts.
Qed.

(** *** A single trial without noise *)

Lemma update_sum_first_single (sums sums_sq : list (option (Tensor F)))
    (t : Tensor F) (i : nat) :
  sums !! i = Some None → sums_sq !! i = Some None →
  update_sum_attribution_and_sq sums sums_sq t i 1
  = Ok (<[i := Some t]> sums, <[i := Some (tensor_map fsquare t)]> sums_sq).
Proof.
  intros Hs Hq. unfold update_sum_attribution_and_sq.
  change 1 with (Z.of_nat 1).
  rewrite (view_replicas_ok 1 (length t)) by lia.
  unfold py_index. rewrite Hs. cbn [mbind Result_bind]. rewrite Hq.
  cbn [mbind Result_bind].
  rewrite blocks_tensor_map, sum_dim1_blocks_1.
  assert (length t = length (tensor_map fsquare t)) as ->
    by (unfold tensor_map; by rewrite length_map).
  by rewrite sum_dim1_blocks_1.
Qed.

Lemma update_sums_from_fresh (done rest : list (Tensor F)) :
  update_sums_from (length done) rest
    ((Some <$> done) ++ replicate (length rest) None)
    ((Some ∘ tensor_map fsquare <$> done) ++ replicate (length rest) None) 1
  = Ok (Some <$> done ++ rest, Some ∘ tensor_map fsquare <$> done ++ rest).
Proof.
  revert done. induction rest as [|t rest IH]; intros done.
  - cbn. by rewrite !app_nil_r.
  - cbn [update_sums_from length replicate].
    rewrite update_sum_first_single.
    2:{ rewrite lookup_app_r by (rewrite length_fmap; lia).
        by rewrite length_fmap, Nat.sub_diag. }
    2:{ rewrite lookup_app_r by (rewrite length_fmap; lia).
        by rewrite length_fmap, Nat.sub_diag. }
    cbn [mbind Result_bind].
    rewrite !insert_app_r_alt by (rewrite length_fmap; lia).
    rewrite !length_fmap, Nat.sub_diag. cbn [insert list_insert].
    specialize (IH (done ++ [t])).
    rewrite length_app, !fmap_app in IH. cbn [length] in IH.
    rewrite Nat.add_1_r, <- !app_assoc in IH. cbn [fmap list_fmap app] in IH.
    rewrite !fmap_app, !fmap_cons. exact IH.
Qed.

Lemma expected_of_Some (N : Z) (g : Tensor F → Tensor F)
    (ts : list (Tensor F)) :
  expected_of N (Some ∘ g <$> ts)
  = Ok (tensor_map (λ x, fdiv (fmul x (fof_Z 1)) (fof_Z N)) ∘ g <$> ts).
Proof.
  unfold expected_of. induction ts as [|t ts IH]; [done|].
  rewrite !fmap_cons. cbn [mapM]. cbn [mbind Result_bind compose].
  rewrite IH. done.
Qed.

Section single_trial.
Context (am : Attribution F World Forward).
Context (inputs : TensorOrTuple F) (kwargs kwargs' : gmap string (Value F)).
Context (S : option Z) (draw : bool).

Hypothesis add_zero : ∀ x : F, fadd x fzero = x.
Hypothesis times_one_over_one :
  ∀ x : F, fdiv (fmul x (fof_Z 1)) (fof_Z 1) = x.
Hypothesis zero_stdev_draws_zero :
  ∀ w, ∃ w', torch_normal1 fzero fzero w = (Ok fzero, w').
Hypothesis one_shot : sub_batch_size 1 S = 1.
Hypothesis valid_inputs : Forall rectangular (_format_tensor_into_tuples inputs).
Hypothesis expansion_by_one :
  ∀ w, ∃ w', expand_partial (_format_tensor_into_tuples inputs) draw 1
               kwargs w = (Ok kwargs', w').
Hypothesis expansion_by_one_transparent :
  ∀ x w, (attribute am x kwargs' w).1 = (attribute am x kwargs w).1.
Hypothesis deterministic :
  ∀ x kw w1 w2, (attribute am x kw w1).1 = (attribute am x kw w2).1.
Hypothesis honours_delta_request :
  ∀ w out, (attribute am inputs kwargs w).1 = Ok out →
    match out with
    | Bare _ =>
        delta_requested (NoiseTunnel_init am)
          (return_convergence_delta_of kwargs) = Ok false
    | WithDelta _ d =>
        delta_requested (NoiseTunnel_init am)
          (return_convergence_delta_of kwargs) = Ok true
        ∧ is_Some d
    end.

Lemma torch_normal_zero (n m : nat) (w : World) :
  ∃ w', torch_normal fzero (tensor_full n m fzero) w
        = (Ok (tensor_full n m fzero), w').
Proof.
  unfold torch_normal, tensor_full.
  destruct (mapM_M_ok (mapM (torch_normal1 fzero)) id
              (replicate n (replicate m fzero))) with (w := w) as [w' Hw].
  - intros r Hr w1. apply elem_of_replicate in Hr as [-> _].
    destruct (mapM_M_ok (torch_normal1 fzero) id (replicate m fzero))
      with (w := w1) as [w2 Hw2].
    + intros x Hx w2. apply elem_of_replicate in Hx as [-> _].
      apply zero_stdev_draws_zero.
    + exists w2. by rewrite Hw2, map_id.
  - exists w'. by rewrite Hw, map_id.
Qed.

Lemma add_zeros (t : Tensor F) :
  rectangular t →
  zip_with (zip_with fadd) t (tensor_full (shape0 t) (tail_size t) fzero) = t.
Proof.
  unfold rectangular, shape0, tensor_full.
  generalize (tail_size t) as m. intros m Hr.
  induction Hr as [|r t Hl _ IH]; [done|].
  cbn [length replicate zip_with]. rewrite IH. f_equal.
  clear IH. subst m. induction r as [|x r IH]; [done|].
  cbn [length replicate zip_with]. by rewrite add_zero, IH.
Qed.

Lemma add_noise_to_input_zero (t : Tensor F) (w : World) :
  rectangular t → ∃ w', add_noise_to_input t fzero 1 w = (Ok t, w').
Proof.
  intros Hr.
  destruct (torch_normal_zero (shape0 t * Z.to_nat 1) (tail_size t) w)
    as [w' Hn].
  exists w'. rewrite (add_noise_to_input_ok t fzero 1 w w' _ ltac:(lia) Hr Hn).
  change (Z.to_nat 1) with 1%nat.
  by rewrite repeat_interleave_1, Nat.mul_1_r, add_zeros.
Qed.

Lemma add_noise_to_inputs_zero (ts : list (Tensor F)) (w : World) :
  Forall rectangular ts →
  ∃ w', add_noise_to_inputs ts (VFloat fzero) 1 w = (Ok ts, w').
Proof.
  intros Hr. unfold add_noise_to_inputs. rewrite !bind_lift_ok.
  destruct (mapM_M_ok
              (λ '(input, stdev), add_noise_to_input input stdev 1) fst
              (zip ts (replicate (length ts) fzero))) with (w := w)
    as [w' Hw].
  - intros [t x] Htx w1.
    assert (x = fzero) as ->.
    { apply elem_of_zip_r in Htx.
      by apply elem_of_replicate in Htx as [-> _]. }
    apply elem_of_zip_l in Htx. rewrite Forall_forall in Hr.
    by apply add_noise_to_input_zero, Hr.
  - exists w'. rewrite Hw. do 2 f_equal.
    apply fst_zip. rewrite length_replicate. lia.
Qed.

Lemma partition_argument :
  (if _is_tuple inputs then Ok (Tuple (_format_tensor_into_tuples inputs))
   else Single <$> py_index (_format_tensor_into_tuples inputs) 0)
  = Ok inputs.
Proof. by destruct inputs. Qed.

Lemma update_sums_from_first (ts : list (Tensor F)) :
  update_sums_from 0 ts (replicate (length ts) None)
    (replicate (length ts) None) 1
  = Ok (Some <$> ts, Some ∘ tensor_map fsquare <$> ts).
Proof. exact (update_sums_from_fresh [] ts). Qed.

Lemma whole_batch_single (w w1 : World) :
  ∃ w3,
    whole_batch (NoiseTunnel_init am) (_is_tuple inputs)
      (return_convergence_delta_of kwargs)
      (_format_tensor_into_tuples inputs) (VFloat fzero) 1 kwargs'
      {| sum_attributions := []; sum_attributions_sq := [];
         delta_partial_list := []; is_attrib_tuple := None |} w1
    = (after_single_trial <$> (attribute am inputs kwargs w).1, w3).
Proof.
  unfold whole_batch.
  destruct (add_noise_to_inputs_zero (_format_tensor_into_tuples inputs) w1
              valid_inputs) as [w2 Hn].
  rewrite (bind_ok _ _ _ _ _ Hn). unfold compute_partial_attribution.
  rewrite partition_argument.
  assert ((attribute am inputs kwargs w).1
          = (attribute am inputs kwargs' w2).1) as Hr
    by by rewrite expansion_by_one_transparent, (deterministic _ _ w w2).
  destruct (attribute am inputs kwargs' w2) as [[out|e] w3] eqn:Ha;
    exists w3; rewrite Hr; cbn [fst].
  - pose proof (honours_delta_request w out) as Hd.
    rewrite Hr in Hd. specialize (Hd eq_refl).
    change (attribution_method (NoiseTunnel_init am)) with am.
    cbv [mbind M_bind lift]. rewrite Ha.
    destruct out as [a|a d].
    + rewrite Hd. cbn [lift mbind M_bind Result_bind whole_as_attributions
                        mret M_ret sum_attributions length].
      destruct (decide (0%nat = 0%nat)) as [_|]; [|done].
      unfold update_partial_attribution_and_delta.
      rewrite update_sums_from_first, Hd. reflexivity.
    + destruct Hd as [Hd [t ->]]. rewrite Hd.
      cbn [lift mbind M_bind Result_bind unpack_attributions_delta
           mret M_ret sum_attributions length].
      destruct (decide (0%nat = 0%nat)) as [_|]; [|done].
      unfold update_partial_attribution_and_delta.
      rewrite update_sums_from_first, Hd. reflexivity.
  - change (attribution_method (NoiseTunnel_init am)) with am.
    cbv [mbind M_bind lift]. by rewrite Ha.
Qed.

Lemma smooth_and_return_single (out : Output F) :
  match out with
  | Bare _ =>
      delta_requested (NoiseTunnel_init am)
        (return_convergence_delta_of kwargs) = Ok false
  | WithDelta _ d =>
      delta_requested (NoiseTunnel_init am)
        (return_convergence_delta_of kwargs) = Ok true
      ∧ is_Some d
  end →
  smooth_and_return (NoiseTunnel_init am) "smoothgrad" 1
    (return_convergence_delta_of kwargs) (after_single_trial out)
  = Ok out.
Proof.
  intros Hd. unfold smooth_and_return, after_single_trial.
  cbn [sum_attributions sum_attributions_sq delta_partial_list
       is_attrib_tuple].
  rewrite (expected_of_Some 1 id), expected_of_Some.
  cbn [mbind Result_bind].
  assert (∀ ts : list (Tensor F),
            tensor_map (λ x, fdiv (fmul x (fof_Z 1)) (fof_Z 1)) ∘ id <$> ts
            = ts) as ->.
  { intros ts. rewrite <- (list_fmap_id ts) at 2.
    apply list_fmap_ext. intros _ t _. unfold tensor_map, compose, id.
    rewrite <- (list_fmap_id t) at 2. apply list_fmap_ext. intros _ r _.
    rewrite <- (list_fmap_id r) at 2. apply list_fmap_ext.
    intros _ x _. apply times_one_over_one. }
  rewrite compute_smoothing_smoothgrad. cbn [mbind Result_bind].
  unfold _apply_checks_and_return_attributions.
  destruct out as [a|a d]; cbn [attributions_of].
  - rewrite Hd. cbn [mbind Result_bind].
    by rewrite format_output_roundtrip.
  - destruct Hd as [Hd [t ->]]. rewrite Hd.
    cbn [mbind Result_bind mapM mret Result_ret torch_cat fmap Result_fmap
         concat].
    by rewrite format_output_roundtrip, app_nil_r.
Qed.

Lemma run_trials_single (w : World) :
  ∃ w3,
    run_trials (NoiseTunnel_init am) inputs "smoothgrad" 1 S (VFloat fzero)
      draw (return_convergence_delta_of kwargs) kwargs w
    = (after_single_trial <$> (attribute am inputs kwargs w).1, w3).
Proof.
  unfold run_trials. rewrite one_shot.
  change (py_floordiv 1 1) with (Ok 1 : Result Z).
  rewrite bind_lift_ok, validate_supported by apply list_elem_of_here.
  rewrite bind_lift_ok.
  destruct (expansion_by_one w) as [w1 He].
  destruct (whole_batch_single w w1) as [w3 Hb].
  rewrite (bind_ok _ _ _ _ _ He).
  change (Z.to_nat 1) with 1%nat. cbn [for_range].
  exists w3. cbv [mbind M_bind]. rewrite Hb.
  destruct (attribute am inputs kwargs w) as [[out|e] w'];
    cbn [fst fmap Result_fmap]; [|done].
  cbn [mret M_ret]. change (1 - 1 * 1) with 0.
  by destruct (decide (0 > 0)) as [?|_]; [lia|].
Qed.

(** C5.  For a wrapped method whose result does not depend on the world
    (deterministic), that returns the pair with a delta tensor exactly
    when [NoiseTunnel] will unpack one, and rectangular input tensors:
    [attribute] with [nt_type = "smoothgrad"], [nt_samples = 1] and
    [stdevs = 0.0] returns what one direct call of the wrapped method on
    the same inputs and keyword arguments returns, or raises what it
    raises.  Assumed of the collaborators: a draw of [torch.normal] with
    mean and standard deviation zero is zero, expanding the keyword
    arguments by a factor of one succeeds and changes nothing the
    wrapped method can see, [x + 0 = x] and [x * 1 / 1 = x]. *)
Theorem single_noiseless_trial_is_direct_call (w : World) :
  (NoiseTunnel_attribute (NoiseTunnel_init am) inputs "smoothgrad" 1 S
     (VFloat fzero) draw kwargs w).1
  = (attribute am inputs kwargs w).1.
Proof.
  unfold NoiseTunnel_attribute.
  destruct (run_trials_single w) as [w3 Hr].
  cbv [mbind M_bind]. rewrite Hr.
  destruct (attribute am inputs kwargs w) as [[out|e] w'] eqn:Ha;
    cbn [fst fmap Result_fmap lift]; [|done].
  apply smooth_and_return_single.
  apply (honours_delta_request w). by rewrite Ha.
Qed.
End single_trial.
End noise_tunnel_facts.

(** ** gradient_shap.py *)

Section gradient_shap_facts.
Context {F : Type} `{Scalar F} {World Forward : Type}.
Context `{!Collaborators F World Forward}.

Lemma np_random_uniform_ok (low high : F) (n : nat) (w : World) :
  ∃ cs w', np_random_uniform low high n w = (Ok cs, w') ∧ length cs = n.
Proof.
  unfold np_random_uniform. revert w.
  induction n as [|n IH]; intros w.
  - by exists [], w.
  - cbn [replicate mapM].
    destruct (np_random_uniform1 low high w) as [c w1] eqn:Hc.
    destruct (IH w1) as (cs & w2 & Hcs & Hlen).
    exists (c :: cs), w2. split; [|by rewrite <- Hlen].
    cbv [mbind M_bind draw]. rewrite Hc.
    cbv [mbind M_bind draw] in Hcs. by rewrite Hcs.
Qed.

Lemma expand_slice_length (m : nat) (s r : list F) :
  expand_slice m s = Ok r → length r = m.
Proof.
  unfold expand_slice. destruct (decide _) as [Hl|_]; [by intros [= <-]|].
  destruct s as [|y [|??]]; try done. intros [= <-]. apply length_replicate.
Qed.

Lemma broadcast_baseline_shape (x : Tensor F) (b : Baseline F)
    (bt : Tensor F) :
  broadcast_baseline x b = Ok bt → length <$> bt = length <$> x.
Proof.
  unfold broadcast_baseline. destruct b as [t|v].
  - destruct (decide (length t = length x)) as [Hl|_].
    + intros Hm. apply mapM_Result_Forall2 in Hm.
      revert t bt Hl Hm. induction x as [|r x IH]; intros t bt Hl Hm.
      * destruct t; [|done]. by apply Forall2_nil_inv_l in Hm as ->.
      * destruct t as [|s t]; [done|]. cbn [zip_with] in Hm.
        apply Forall2_cons_inv_l in Hm as (y & bt' & Hy & Hm & ->).
        rewrite !fmap_cons. f_equal.
        -- by eapply expand_slice_length.
        -- apply (IH t); [|done]. by injection Hl.
    + destruct t as [|s [|??]]; try by destruct (decide _).
      intros Hm. apply mapM_Result_Forall2 in Hm.
      revert bt Hm. induction x as [|r x IH]; intros bt Hm.
      * by apply Forall2_nil_inv_l in Hm as ->.
      * apply Forall2_cons_inv_l in Hm as (y & bt' & Hy & Hm & ->).
        rewrite !fmap_cons. f_equal; [by eapply expand_slice_length|].
        by apply IH.
  - intros [= <-]. unfold tensor_map.
    rewrite <- list_fmap_compose. apply list_fmap_ext.
    intros _ r _. simpl. by rewrite length_map.
Qed.

Lemma shape_scale_examples (cs : list F) (x : Tensor F) :
  length cs = length x → length <$> scale_examples cs x = length <$> x.
Proof.
  unfold scale_examples. revert cs.
  induction x as [|r x IH]; intros [|c cs] Hlen; try done.
  cbn [zip_with]. rewrite !fmap_cons, length_map. f_equal.
  apply IH. by injection Hlen.
Qed.

Lemma scale_input_ok (x : Tensor F) (b : Baseline F) (cs : list F)
    (bt : Tensor F) :
  length cs = shape0 x → broadcast_baseline x b = Ok bt →
  _scale_input x b cs
  = Ok (zip_with (zip_with fadd) (scale_examples cs x)
          (scale_examples (map (fsub fone) cs) bt)).
Proof.
  intros Hlen Hb. unfold _scale_input.
  destruct (decide _) as [_|]; [|done].
  rewrite Hb. cbn [mbind Result_bind]. unfold tensor_binop.
  rewrite (proj2 (same_shape_true _ _)); [done|].
  pose proof (broadcast_baseline_shape _ _ _ Hb) as Hs.
  rewrite !shape_scale_examples; [done| |done].
  rewrite length_map, Hlen. unfold shape0.
  by rewrite <- (length_fmap length x), <- Hs, length_fmap.
Qed.

Lemma scale_input_inv (x : Tensor F) (b : Baseline F) (cs : list F)
    (p : Tensor F) :
  _scale_input x b cs = Ok p →
  length cs = shape0 x ∧ ∃ bt, broadcast_baseline x b = Ok bt.
Proof.
  unfold _scale_input. destruct (decide _) as [Hl|]; [|done].
  destruct (broadcast_baseline x b) as [bt|]; [|done].
  intros _. split; [done|]. by exists bt.
Qed.

Lemma lookup_scaled (cs : list F) (x bt : Tensor F) (i : nat) (c : F)
    (row brow : list F) :
  cs !! i = Some c → x !! i = Some row → bt !! i = Some brow →
  zip_with (zip_with fadd) (scale_examples cs x)
    (scale_examples (map (fsub fone) cs) bt) !! i
  = Some (zip_with (λ xv bv, fadd (fmul c xv) (fmul (fsub fone c) bv))
            row brow).
Proof.
  intros Hc Hx Hb. unfold scale_examples.
  rewrite !lookup_zip_with, list_lookup_fmap, Hc, Hx, Hb. cbn.
  f_equal. by rewrite zip_with_fmap_l, zip_with_fmap_r.
Qed.

(** C6.  [InputBaselineXGradient.attribute] draws the coefficients once,
    one per example of the first input tensor, and hands the gradient
    function, for every input tensor [x] with its baseline, the tensor
    whose example [i] is [c_i * x_i + (1 - c_i) * baseline_i], element
    by element, with the same [c_i] for every tensor and every element
    of the example. *)
Theorem one_coefficient_per_example
    (self : InputBaselineXGradient F World Forward)
    (inputs : TensorOrTuple F)
    (baselines target additional_forward_args rcd : Value F)
    (w w1 : World) (xs : list (Tensor F)) (bs : list (Baseline F))
    (x0 : Tensor F) :
  _format_input_baseline inputs baselines w = (Ok (xs, bs), w1) →
  xs !! 0%nat = Some x0 →
  (∀ x b, (x, b) ∈ zip xs bs →
     shape0 x = shape0 x0 ∧ ∃ bt, broadcast_baseline x b = Ok bt) →
  ∃ (cs : list F) (w2 : World) (points : list (Tensor F)),
    np_random_uniform fzero fone (shape0 x0) w1 = (Ok cs, w2)
    ∧ length cs = shape0 x0
    ∧ Forall2
        (λ '(x, b) p,
           ∃ bt, broadcast_baseline x b = Ok bt
                 ∧ length p = shape0 x
                 ∧ ∀ (i : nat) (c : F) (row brow : list F),
                     cs !! i = Some c → x !! i = Some row →
                     bt !! i = Some brow →
                     p !! i
                     = Some (zip_with
                               (λ xv bv,
                                  fadd (fmul c xv) (fmul (fsub fone c) bv))
                               row brow))
        (zip xs bs) points
    ∧ InputBaselineXGradient_attribute self inputs baselines target
        additional_forward_args rcd w
      = (grads ← ibxg_gradient_func self (ibxg_forward_func self) points
                   target additional_forward_args;
         attributions ← lift
           (if ibxg_multiply_by_inputs self then
              input_baseline_diffs ←
                mapM (λ '(input, baseline),
                        input_minus_baseline input baseline) (zip xs bs);
              mapM (λ '(input_baseline_diff, grad),
                      tensor_binop fmul input_baseline_diff grad)
                   (zip input_baseline_diffs grads)
            else Ok grads);
         _compute_conv_delta_and_format_attrs self rcd attributions bs xs
           additional_forward_args target (_is_tuple inputs)) w2.
Proof.
  intros Hfmt Hx0 Hshape.
  destruct (np_random_uniform_ok fzero fone (shape0 x0) w1)
    as (cs & w2 & Hcs & Hlen).
  destruct (mapM_Result_total
              (λ '(input, baseline), _scale_input input baseline cs)
              (zip xs bs)) as [points Hpoints].
  { intros [x b] Hxb. destruct (Hshape x b Hxb) as [Hx [bt Hbt]].
    eexists. apply scale_input_ok; [congruence|done]. }
  exists cs, w2, points. split; [done|]. split; [done|]. split.
  - apply mapM_Result_Forall2 in Hpoints.
    eapply Forall2_impl; [exact Hpoints|].
    intros [x b] p Hp. cbn beta iota in Hp.
    destruct (scale_input_inv _ _ _ _ Hp) as [Hl [bt Hbt]].
    exists bt. split; [done|].
    rewrite (scale_input_ok _ _ _ _ Hl Hbt) in Hp. injection Hp as <-.
    split.
    + pose proof (broadcast_baseline_shape _ _ _ Hbt) as Hs.
      rewrite <- (length_fmap length), shape_zip_with.
      * rewrite shape_scale_examples by done. by rewrite length_fmap.
      * rewrite !shape_scale_examples; [done| |done].
        rewrite length_map, Hl. unfold shape0.
        by rewrite <- (length_fmap length x), <- Hs, length_fmap.
    + intros i c row brow. apply lookup_scaled.
  - unfold InputBaselineXGradient_attribute.
    rewrite (bind_ok _ _ _ _ _ Hfmt). unfold py_index. rewrite Hx0.
    rewrite bind_lift_ok, (bind_ok _ _ _ _ _ Hcs), Hpoints.
    by rewrite bind_lift_ok.
Qed.

Lemma input_minus_baseline_ok (x : Tensor F) (b : Baseline F)
    (bt : Tensor F) :
  broadcast_baseline x b = Ok bt →
  input_minus_baseline x b = Ok (zip_with (zip_with fsub) x bt).
Proof.
  intros Hb. unfold input_minus_baseline. rewrite Hb.
  cbn [mbind Result_bind]. unfold tensor_binop.
  rewrite (proj2 (same_shape_true x bt)); [done|].
  symmetry. by eapply broadcast_baseline_shape.
Qed.

Lemma multiplied_attributions (xs grads : list (Tensor F))
    (bs : list (Baseline F)) :
  (∀ a b : F, fmul a b = fmul b a) →
  (∀ x b, (x, b) ∈ zip xs bs → ∃ bt, broadcast_baseline x b = Ok bt) →
  Forall2 (λ x g, length <$> g = length <$> x) xs grads →
  ∃ attributions : list (Tensor F),
    (input_baseline_diffs ←
       mapM (λ '(input, baseline), input_minus_baseline input baseline)
            (zip xs bs);
     mapM (λ '(input_baseline_diff, grad),
             tensor_binop fmul input_baseline_diff grad)
          (zip input_baseline_diffs grads)) = Ok attributions
    ∧ Forall2
        (λ '(x, b, g) a,
           ∃ bt, broadcast_baseline x b = Ok bt
                 ∧ a = zip_with (zip_with fmul) g
                         (zip_with (zip_with fsub) x bt))
        (zip (zip xs bs) grads) attributions.
Proof.
  intros Hcomm Hb Hg. revert bs Hb.
  induction Hg as [|x g xs grads Hs _ IH]; intros bs Hb.
  - exists []. split; [done|]. constructor.
  - destruct bs as [|b bs].
    + exists []. split; [done|]. constructor.
    + destruct (Hb x b) as [bt Hbt]; [apply list_elem_of_here|].
      destruct (IH bs) as (attrs & Hattrs & Hall).
      { intros x' b' Hin. apply Hb. by apply list_elem_of_further. }
      apply Result_bind_inv_ok in Hattrs as (diffs & Hdiffs & Hattrs).
      exists (zip_with (zip_with fmul) g (zip_with (zip_with fsub) x bt)
              :: attrs).
      split.
      * cbn [zip_with mapM].
        rewrite (input_minus_baseline_ok _ _ _ Hbt).
        cbn [mbind Result_bind]. rewrite Hdiffs.
        cbn [mbind Result_bind mret Result_ret zip_with mapM].
        rewrite (tensor_binop_ok fmul (zip_with (zip_with fsub) x bt) g).
        2:{ rewrite shape_zip_with; [done|].
            symmetry. by eapply broadcast_baseline_shape. }
        cbn [mbind Result_bind]. rewrite Hattrs.
        cbn [mbind Result_bind mret Result_ret]. do 2 f_equal.
        apply zip_with_comm. intros r s. by apply zip_with_comm.
      * constructor; [|done]. by exists bt.
Qed.

(** C7.  With [multiply_by_inputs] true the attributions
    [InputBaselineXGradient.attribute] hands back are, per input tensor
    and element by element, [gradient * (input - baseline)]; with it
    false they are the gradients as the gradient function returned them.
    In both cases the returned object carries exactly these attributions
    (reformatted as a single tensor or a tuple like the inputs). *)
Theorem multiply_by_inputs_selects_attributions
    (self : InputBaselineXGradient F World Forward)
    (inputs : TensorOrTuple F)
    (baselines target additional_forward_args rcd : Value F)
    (w w1 w2 w3 : World) (xs points grads : list (Tensor F))
    (bs : list (Baseline F)) (x0 : Tensor F) (cs : list F) :
  (∀ a b : F, fmul a b = fmul b a) →
  _format_input_baseline inputs baselines w = (Ok (xs, bs), w1) →
  xs !! 0%nat = Some x0 →
  np_random_uniform fzero fone (shape0 x0) w1 = (Ok cs, w2) →
  mapM (λ '(input, baseline), _scale_input input baseline cs) (zip xs bs)
  = Ok points →
  ibxg_gradient_func self (ibxg_forward_func self) points target
    additional_forward_args w2 = (Ok grads, w3) →
  (ibxg_multiply_by_inputs self = true →
   Forall2 (λ x g, length <$> g = length <$> x) xs grads) →
  ∃ attributions : list (Tensor F),
    InputBaselineXGradient_attribute self inputs baselines target
      additional_forward_args rcd w
    = _compute_conv_delta_and_format_attrs self rcd attributions bs xs
        additional_forward_args target (_is_tuple inputs) w3
    ∧ (ibxg_multiply_by_inputs self = false → attributions = grads)
    ∧ (ibxg_multiply_by_inputs self = true →
       Forall2
         (λ '(x, b, g) a,
            ∃ bt, broadcast_baseline x b = Ok bt
                  ∧ a = zip_with (zip_with fmul) g
                          (zip_with (zip_with fsub) x bt))
         (zip (zip xs bs) grads) attributions)
    ∧ (∀ o w4,
         _compute_conv_delta_and_format_attrs self rcd attributions bs xs
           additional_forward_args target (_is_tuple inputs) w3 = (Ok o, w4) →
         _format_output (_is_tuple inputs) attributions
         = Ok (attributions_of o)).
Proof.
  intros Hcomm Hfmt Hx0 Hcs Hpoints Hgrads Hshapes.
  assert (∃ attributions,
            (if ibxg_multiply_by_inputs self then
               input_baseline_diffs ←
                 mapM (λ '(input, baseline),
                         input_minus_baseline input baseline) (zip xs bs);
               mapM (λ '(input_baseline_diff, grad),
                       tensor_binop fmul input_baseline_diff grad)
                    (zip input_baseline_diffs grads)
             else Ok grads) = Ok attributions
            ∧ (ibxg_multiply_by_inputs self = false → attributions = grads)
            ∧ (ibxg_multiply_by_inputs self = true →
               Forall2
                 (λ '(x, b, g) a,
                    ∃ bt, broadcast_baseline x b = Ok bt
                          ∧ a = zip_with (zip_with fmul) g
                                  (zip_with (zip_with fsub) x bt))
                 (zip (zip xs bs) grads) attributions))
    as (attributions & Hattr & Hfalse & Htrue).
  { destruct (ibxg_multiply_by_inputs self).
    - destruct (multiplied_attributions xs grads bs Hcomm)
        as (attributions & Ha & Hall); [|by apply Hshapes|].
      + intros x b Hxb. apply mapM_Result_Forall2 in Hpoints.
        apply list_elem_of_lookup in Hxb as [i Hi].
        destruct (Forall2_lookup_l _ _ _ _ _ Hpoints Hi) as (p & _ & Hp).
        cbn beta iota in Hp. by apply scale_input_inv in Hp as [_ ?].
      + exists attributions. by repeat split.
    - exists grads. by repeat split. }
  exists attributions. split; [|split; [done|split; [done|]]].
  - unfold InputBaselineXGradient_attribute.
    rewrite (bind_ok _ _ _ _ _ Hfmt). unfold py_index. rewrite Hx0.
    rewrite bind_lift_ok, (bind_ok _ _ _ _ _ Hcs), Hpoints.
    rewrite bind_lift_ok, (bind_ok _ _ _ _ _ Hgrads), Hattr.
    by rewrite bind_lift_ok.
  - intros o w4. unfold _compute_conv_delta_and_format_attrs.
    intros Ho. apply bind_inv_ok in Ho as (wanted & w5 & _ & Ho).
    destruct wanted.
    + apply bind_inv_ok in Ho as (delta & w6 & _ & Ho).
      apply bind_inv_ok in Ho as (a & w7 & Ha & [= <- _]).
      by apply lift_inv_ok in Ha as [-> _].
    + apply bind_inv_ok in Ho as (a & w7 & Ha & [= <- _]).
      by apply lift_inv_ok in Ha as [-> _].
Qed.

(** C8.  Once the baselines are resolved to a pool whose first element
    is a tensor, [GradientShap.attribute] returns what
    [NoiseTunnel.attribute] returns for a [NoiseTunnel] built on a new
    [InputBaselineXGradient] that has the forward function and the
    [multiply_by_inputs] setting of [self] (and its gradient function:
    for a [GradientShap] as [__init__] leaves it, the new object is
    exactly [InputBaselineXGradient(forward_func, multiply_by_inputs)]),
    called with [nt_type = "smoothgrad"], [nt_samples = n_samples], no
    sub-batch size, the given [stdevs],
    [draw_baseline_from_distrib = True], and the keyword arguments
    [baselines] (the resolved pool), [target], [additional_forward_args]
    and [return_convergence_delta]. *)
Theorem gradient_shap_delegates_to_noise_tunnel
    (self : GradientShap F World Forward) (inputs : TensorOrTuple F)
    (baselines : BaselineSource F World) (n_samples : Z)
    (stdevs target additional_forward_args rcd : Value F)
    (w w1 : World) (pool : Value F) :
  _format_callable_baseline baselines inputs w = (Ok pool, w1) →
  first_is_tensor pool = Ok true →
  let attributor := input_min_baseline_x_grad self in
  ibxg_forward_func attributor = gs_forward_func self
  ∧ ibxg_multiply_by_inputs attributor = gs_multiply_by_inputs self
  ∧ ibxg_gradient_func attributor = gs_gradient_func self
  ∧ (gs_gradient_func self = compute_gradients →
     attributor = InputBaselineXGradient_init (gs_forward_func self)
                    (gs_multiply_by_inputs self))
  ∧ (∀ forward_func multiply_by_inputs,
       input_min_baseline_x_grad
         (GradientShap_init forward_func multiply_by_inputs)
       = InputBaselineXGradient_init forward_func multiply_by_inputs)
  ∧ GradientShap_attribute self inputs baselines n_samples stdevs target
      additional_forward_args rcd w
    = NoiseTunnel_attribute
        (NoiseTunnel_init (InputBaselineXGradient_as_Attribution attributor))
        inputs "smoothgrad" n_samples None stdevs true
        (<["baselines"%string := pool]>
           (<["target"%string := target]>
              (<["additional_forward_args"%string :=
                   additional_forward_args]>
                 (<["return_convergence_delta"%string := rcd]> ∅)))) w1.
Proof.
  intros Hpool Hfirst attributor.
  split; [done|]. split; [done|]. split; [done|]. split; [|split; [done|]].
  - intros Hg. unfold attributor, input_min_baseline_x_grad. by rewrite Hg.
  - unfold GradientShap_attribute.
    rewrite (bind_ok _ _ _ _ _ Hpool), Hfirst.
    by rewrite bind_lift_ok.
Qed.
End gradient_shap_facts.

(** * More of noise_tunnel.py: errors, invariants and edge cases *)

Section noise_tunnel_behaviour.
Context {F : Type} `{Scalar F} {World Forward : Type}.
Context `{!Collaborators F World Forward}.

(** X1.  [add_noise_to_inputs] draws no noise unless [stdevs] is a
    float: a tuple whose length is not the number of input tensors, and
    every value that is neither a tuple nor a float ([None], a bool, an
    int, a tensor), is an [AssertionError] that leaves the world as it
    was. *)
Theorem add_noise_to_inputs_rejects_stdevs
    (inputs : list (Tensor F)) (stdevs : Value F) (k : Z) (w : World) :
  match stdevs with
  | VFloat _ => False
  | VTuple l => length l ≠ length inputs
  | _ => True
  end →
  add_noise_to_inputs inputs stdevs k w = (Err AssertionError, w).
Proof.
  intros Hbad. destruct stdevs as [| | |x| |l]; try done.
  by apply add_noise_to_inputs_tuple_mismatch.
Qed.

Lemma add_noise_to_input_shape (input : Tensor F) (stdev : F) (k : Z)
    (w w' : World) (noisy : Tensor F) :
  add_noise_to_input input stdev k w = (Ok noisy, w') →
  0 ≤ k
  ∧ length <$> noisy = length <$> repeat_interleave (Z.to_nat k) input.
Proof.
  unfold add_noise_to_input. destruct (decide _); [done|]. intros Hn.
  apply bind_inv_ok in Hn as (noise & w1 & _ & Hn).
  apply lift_inv_ok in Hn as [Hn _]. unfold tensor_binop in Hn.
  destruct (same_shape _ noise) eqn:Hs; [|done]. injection Hn as <-.
  apply same_shape_true in Hs. split; [lia|]. by apply shape_zip_with.
Qed.

(** X2.  When [add_noise_to_inputs] returns, it returns one noisy tensor
    per input tensor, in the same order; the replication factor was not
    negative; and noisy tensor [j] has the shape of input [j] repeated
    [nt_samples_partition] times along the example axis, so
    [bsz * nt_samples_partition] slices, slice [e * k + r] as long as
    example [e]. *)
Theorem add_noise_to_inputs_shapes
    (inputs : list (Tensor F)) (stdevs : Value F) (k : Z) (w w' : World)
    (noisy : list (Tensor F)) :
  add_noise_to_inputs inputs stdevs k w = (Ok noisy, w') →
  length noisy = length inputs
  ∧ (inputs ≠ [] → 0 ≤ k)
  ∧ ∀ (j : nat) (x y : Tensor F),
      inputs !! j = Some x → noisy !! j = Some y →
      shape0 y = (shape0 x * Z.to_nat k)%nat
      ∧ length <$> y = length <$> repeat_interleave (Z.to_nat k) x.
Proof.
  unfold add_noise_to_inputs. intros Hn.
  apply bind_inv_ok in Hn as (s & w1 & Hs & Hn).
  apply bind_inv_ok in Hn as (sd & w2 & Hsd & Hn).
  apply lift_inv_ok in Hs as [Hs _]. apply lift_inv_ok in Hsd as [Hsd _].
  destruct stdevs as [| | |σ| |l]; try done.
  2:{ apply Result_bind_inv_ok in Hs as (? & _ & [= <-]). done. }
  injection Hs as <-. injection Hsd as <-.
  apply (mapM_M_Forall2
           (λ '(input, _) y,
              0 ≤ k
              ∧ length <$> y
                = length <$> repeat_interleave (Z.to_nat k) input)) in Hn.
  2:{ intros [x sd] y wa wb Hy. by eapply add_noise_to_input_shape. }
  assert (length (zip inputs (replicate (length inputs) σ)) = length inputs)
    as Hzip by (rewrite length_zip_with, length_replicate; lia).
  split; [|split].
  - apply Forall2_length in Hn. by rewrite <- Hn.
  - destruct inputs as [|x rest]; [done|]. intros _.
    cbn [length replicate zip_with] in Hn.
    by apply Forall2_cons_inv_l in Hn as (y & ys & [Hk _] & _ & _).
  - intros j x y Hx Hy.
    assert (zip inputs (replicate (length inputs) σ) !! j = Some (x, σ))
      as Hxs.
    { rewrite lookup_zip_with, Hx. cbn.
      rewrite lookup_replicate_2; [done|]. by eapply lookup_lt_Some. }
    destruct (Forall2_lookup_lr _ _ _ _ _ _ Hn Hxs Hy) as [_ Hshape].
    split; [|done]. unfold shape0.
    rewrite <- (length_fmap length y), Hshape, length_fmap.
    apply length_repeat_interleave.
Qed.

Lemma add_zeros_rows (m : nat) (u : Tensor F) :
  (∀ x : F, fadd x fzero = x) →
  Forall (λ r, length r = m) u →
  zip_with (zip_with fadd) u (tensor_full (length u) m fzero) = u.
Proof.
  intros Hz Hu. unfold tensor_full.
  induction Hu as [|r u Hl _ IH]; [done|].
  cbn [length replicate zip_with]. rewrite IH. f_equal.
  clear IH. subst m. induction r as [|x r IH]; [done|].
  cbn [length replicate zip_with]. by rewrite Hz, IH.
Qed.

Lemma Forall_repeat_interleave (P : list F → Prop) (k : nat) (t : Tensor F) :
  Forall P t → Forall P (repeat_interleave k t).
Proof.
  unfold repeat_interleave. induction 1 as [|r t Hr _ IH]; [constructor|].
  cbn [flat_map]. apply Forall_app. split; [|done].
  by apply Forall_replicate.
Qed.

(** X3.  With [stdevs = 0.0], if a draw of [torch.normal] with mean and
    standard deviation zero is zero and [x + 0 = x], the noisy inputs
    are the inputs themselves, every example repeated
    [nt_samples_partition] times in place: no noise is added. *)
Theorem zero_stdev_adds_no_noise
    (inputs : list (Tensor F)) (k : Z) (w : World) :
  (∀ x : F, fadd x fzero = x) →
  (∀ w, ∃ w', torch_normal1 fzero fzero w = (Ok fzero, w')) →
  0 ≤ k → Forall rectangular inputs →
  ∃ w', add_noise_to_inputs inputs (VFloat fzero) k w
        = (Ok (repeat_interleave (Z.to_nat k) <$> inputs), w').
Proof.
  intros Hz Hdraw Hk Hr. unfold add_noise_to_inputs. rewrite !bind_lift_ok.
  destruct (mapM_M_ok
              (λ '(input, stdev), add_noise_to_input input stdev k)
              (λ p, repeat_interleave (Z.to_nat k) p.1)
              (zip inputs (replicate (length inputs) fzero))) with (w := w)
    as [w' Hw].
  - intros [t x] Htx w1.
    assert (x = fzero) as ->.
    { apply elem_of_zip_r in Htx.
      by apply elem_of_replicate in Htx as [-> _]. }
    apply elem_of_zip_l in Htx. rewrite Forall_forall in Hr.
    specialize (Hr t Htx).
    destruct (torch_normal_zero Hdraw (shape0 t * Z.to_nat k) (tail_size t)
                w1) as [w2 Hn].
    exists w2.
    rewrite (add_noise_to_input_ok t fzero k w1 w2 _ Hk Hr Hn).
    cbn [fst]. do 2 f_equal.
    rewrite <- (length_repeat_interleave (Z.to_nat k) t).
    apply add_zeros_rows; [done|]. by apply Forall_repeat_interleave.
  - exists w'. rewrite Hw. do 2 f_equal.
    change (λ p : Tensor F * F, repeat_interleave (Z.to_nat k) p.1)
      with (repeat_interleave (Z.to_nat k) ∘ (fst : Tensor F * F → _)).
    rewrite list_fmap_compose, fst_zip; [done|].
    rewrite length_replicate; lia.
Qed.

(** X4.  What [update_partial_attribution_and_delta] does to the three
    accumulators when it returns.  Both sum lists keep their length.
    For every tensor [j] of the sub-batch's attributions, folded per
    example over its [nt_samples_partial] replicas, slot [j] of the sums
    becomes that fold when the slot was still [None] and the old slot
    plus the fold otherwise; slot [j] of the sums of squares likewise
    with the fold of the squares.  Slots beyond the sub-batch's tensors
    are left as they were.  The delta list gains [delta_partial] at its
    end exactly when the delta is supported and requested. *)
Theorem accumulators_updated_slotwise
    (self : NoiseTunnel F World Forward) (rcd : Value F)
    (aps : list (Tensor F)) (d : option (Tensor F))
    (sums sums_sq dl sums' sums_sq' dl' : list (option (Tensor F)))
    (k : Z) :
  update_partial_attribution_and_delta self rcd aps d sums sums_sq dl k
  = Ok (sums', sums_sq', dl') →
  length sums' = length sums ∧ length sums_sq' = length sums_sq
  ∧ (∀ j : nat, (length aps ≤ j)%nat →
       sums' !! j = sums !! j ∧ sums_sq' !! j = sums_sq !! j)
  ∧ (∀ (j : nat) (a : Tensor F), aps !! j = Some a →
       ∃ v old old_sq new new_sq,
         view_replicas k a = Ok v
         ∧ sums !! j = Some old ∧ sums_sq !! j = Some old_sq
         ∧ match old with
           | None => Ok (sum_dim1 v)
           | Some s => tensor_binop fadd s (sum_dim1 v)
           end = Ok new
         ∧ match old_sq with
           | None => Ok (sum_dim1 (map (tensor_map fsquare) v))
           | Some s =>
               tensor_binop fadd s (sum_dim1 (map (tensor_map fsquare) v))
           end = Ok new_sq
         ∧ sums' !! j = Some (Some new)
         ∧ sums_sq' !! j = Some (Some new_sq))
  ∧ ∃ wanted : bool,
      delta_requested self rcd = Ok wanted
      ∧ dl' = if wanted then dl ++ [d] else dl.
Proof.
  unfold update_partial_attribution_and_delta. intros Hu.
  apply Result_bind_inv_ok in Hu as ([s q] & Hsq & Hu).
  apply Result_bind_inv_ok in Hu as (wanted & Hw & [= <- <- <-]).
  apply update_sums_from_inv in Hsq as (Hls & Hlq & Hframe & Hset).
  split; [done|]. split; [done|]. split; [|split].
  - intros j Hj. apply Hframe. lia.
  - intros j a Ha. apply (Hset j a Ha).
  - by exists wanted.
Qed.

(** *** Every accumulator is set once the sub-batches are done *)

Lemma update_sums_from_all_set (aps : list (Tensor F))
    (sums sums_sq s' q' : list (option (Tensor F))) (k : Z) :
  update_sums_from 0 aps sums sums_sq k = Ok (s', q') →
  (Forall is_Some sums ∧ Forall is_Some sums_sq)
  ∨ (length sums = length aps ∧ length sums_sq = length aps) →
  Forall is_Some s' ∧ Forall is_Some q'.
Proof.
  intros Hu Hcase.
  apply update_sums_from_inv in Hu as (Hls & Hlq & Hframe & Hset).
  assert (∀ j, (j < length aps)%nat →
            is_Some (s' !! j ≫= id) ∧ is_Some (q' !! j ≫= id)) as Hin.
  { intros j Hj. apply lookup_lt_is_Some in Hj as [a Ha].
    destruct (Hset j a Ha)
      as (v & o & oq & n & nq & _ & _ & _ & _ & _ & Hs & Hq).
    cbn [Nat.add] in Hs, Hq. rewrite Hs, Hq. by split. }
  split; apply Forall_lookup; intros j x Hx.
  - destruct (decide (j < length aps)%nat) as [Hj|Hj].
    + destruct (Hin j Hj) as [Hs _]. by rewrite Hx in Hs.
    + destruct (Hframe j) as [Hs _]; [lia|].
      destruct Hcase as [[Hall _]|[Hlen _]].
      * rewrite Hs in Hx. by eapply Forall_lookup in Hall.
      * apply lookup_lt_Some in Hx. lia.
  - destruct (decide (j < length aps)%nat) as [Hj|Hj].
    + destruct (Hin j Hj) as [_ Hq]. by rewrite Hx in Hq.
    + destruct (Hframe j) as [_ Hq]; [lia|].
      destruct Hcase as [[_ Hall]|[_ Hlen]].
      * rewrite Hq in Hx. by eapply Forall_lookup in Hall.
      * apply lookup_lt_Some in Hx. lia.
Qed.

Lemma update_partial_all_set (self : NoiseTunnel F World Forward)
    (rcd : Value F) (aps : list (Tensor F)) (d : option (Tensor F))
    (sums sums_sq dl sums' sums_sq' dl' : list (option (Tensor F)))
    (k : Z) :
  update_partial_attribution_and_delta self rcd aps d sums sums_sq dl k
  = Ok (sums', sums_sq', dl') →
  (Forall is_Some sums ∧ Forall is_Some sums_sq)
  ∨ (length sums = length aps ∧ length sums_sq = length aps) →
  Forall is_Some sums' ∧ Forall is_Some sums_sq'.
Proof.
  unfold update_partial_attribution_and_delta. intros Hu.
  apply Result_bind_inv_ok in Hu as ([s q] & Hsq & Hu).
  apply Result_bind_inv_ok in Hu as (wanted & Hw & [= <- <- <-]).
  by eapply update_sums_from_all_set.
Qed.

Lemma whole_batch_all_set (self : NoiseTunnel F World Forward)
    (is_inputs_tuple : bool) (rcd : Value F) (inputs : list (Tensor F))
    (stdevs : Value F) (size : Z) (kwargs : gmap string (Value F))
    (st st' : Locals F) (w w' : World) :
  Forall is_Some (sum_attributions st)
  ∧ Forall is_Some (sum_attributions_sq st) →
  whole_batch self is_inputs_tuple rcd inputs stdevs size kwargs st w
  = (Ok st', w') →
  Forall is_Some (sum_attributions st')
  ∧ Forall is_Some (sum_attributions_sq st').
Proof.
  intros Hp Hb. unfold whole_batch in Hb.
  apply bind_inv_ok in Hb as (noisy & w1 & _ & Hb).
  apply bind_inv_ok in Hb as ([[aps iat] d] & w2 & _ & Hb).
  destruct (decide _) as [Hz|Hnz].
  - apply bind_inv_ok in Hb as ([[s q] dl] & w3 & Hu & [= <- _]).
    apply lift_inv_ok in Hu as [Hu _].
    eapply update_partial_all_set; [exact Hu|].
    right. by rewrite length_replicate.
  - apply bind_inv_ok in Hb as ([[s q] dl] & w3 & Hu & [= <- _]).
    apply lift_inv_ok in Hu as [Hu _].
    eapply update_partial_all_set; [exact Hu|]. by left.
Qed.

Lemma remaining_batch_all_set (self : NoiseTunnel F World Forward)
    (is_inputs_tuple : bool) (rcd : Value F) (inputs : list (Tensor F))
    (stdevs : Value F) (draw : bool) (size : Z)
    (kwargs : gmap string (Value F)) (st st' : Locals F) (w w' : World) :
  Forall is_Some (sum_attributions st)
  ∧ Forall is_Some (sum_attributions_sq st) →
  remaining_batch self is_inputs_tuple rcd inputs stdevs draw size kwargs
    st w = (Ok st', w') →
  Forall is_Some (sum_attributions st')
  ∧ Forall is_Some (sum_attributions_sq st').
Proof.
  intros Hp Hb. unfold remaining_batch in Hb.
  apply bind_inv_ok in Hb as (noisy & w1 & _ & Hb).
  apply bind_inv_ok in Hb as (kw & w2 & _ & Hb).
  apply bind_inv_ok in Hb as ([[aps iat] d] & w3 & _ & Hb).
  apply bind_inv_ok in Hb as ([[s q] dl] & w4 & Hu & [= <- _]).
  apply lift_inv_ok in Hu as [Hu _].
  eapply update_partial_all_set; [exact Hu|]. by left.
Qed.

Lemma run_trials_all_set (self : NoiseTunnel F World Forward)
    (inputs : TensorOrTuple F) (nt_type : string) (N : Z) (S : option Z)
    (stdevs : Value F) (draw : bool) (rcd : Value F)
    (kwargs : gmap string (Value F)) (st : Locals F) (w w' : World) :
  run_trials self inputs nt_type N S stdevs draw rcd kwargs w = (Ok st, w') →
  nt_type ∈ SUPPORTED_NOISE_TUNNEL_TYPES
  ∧ Forall is_Some (sum_attributions st)
  ∧ Forall is_Some (sum_attributions_sq st).
Proof.
  unfold run_trials. intros Hr.
  apply bind_inv_ok in Hr as (partition & w1 & _ & Hr).
  apply bind_inv_ok in Hr as (u & w2 & Hval & Hr).
  apply lift_inv_ok in Hval as [Hval _].
  split.
  { unfold _validate_noise_tunnel_type, py_assert in Hval.
    destruct (bool_decide _) eqn:Hd; [|done]. by apply bool_decide_eq_true in Hd. }
  apply bind_inv_ok in Hr as (kw & w3 & _ & Hr).
  apply bind_inv_ok in Hr as (st1 & w4 & Hloop & Hr).
  assert (Forall is_Some (sum_attributions st1)
          ∧ Forall is_Some (sum_attributions_sq st1)) as Hst1.
  { eapply (for_range_invariant
              (λ s : Locals F, Forall is_Some (sum_attributions s)
                     ∧ Forall is_Some (sum_attributions_sq s)));
      [| |exact Hloop].
    - intros s s' wa wb Hs Hb. by eapply whole_batch_all_set.
    - split; constructor. }
  destruct (decide _).
  - by eapply remaining_batch_all_set.
  - by injection Hr as <- _.
Qed.

Lemma expected_of_total (N : Z) (sums : list (option (Tensor F))) :
  Forall is_Some sums → ∃ e, expected_of N sums = Ok e.
Proof.
  intros Hall. apply mapM_Result_total. intros x Hx.
  rewrite Forall_forall in Hall. destruct (Hall x Hx) as [t ->]. by eexists.
Qed.

Lemma supported_cases (t : string) :
  t ∈ SUPPORTED_NOISE_TUNNEL_TYPES →
  t = "smoothgrad"%string ∨ t = "smoothgrad_sq"%string
  ∨ t = "vargrad"%string.
Proof.
  unfold SUPPORTED_NOISE_TUNNEL_TYPES. rewrite !elem_of_cons, elem_of_nil.
  tauto.
Qed.

Lemma compute_smoothing_total (t : string) (e q : list (Tensor F)) :
  t ∈ SUPPORTED_NOISE_TUNNEL_TYPES →
  Forall2 (λ m s, length <$> m = length <$> s) e q →
  ∃ a, compute_smoothing t e q = Ok a ∧ length a = length e.
Proof.
  intros Ht Hs. pose proof (Forall2_length _ _ _ Hs) as Hl.
  apply supported_cases in Ht as [->|[->| ->]].
  - by exists e.
  - by exists q.
  - rewrite (compute_smoothing_vargrad e q Hs). eexists. split; [done|].
    rewrite length_zip_with. lia.
Qed.

Lemma smoothing_after_trials (self : NoiseTunnel F World Forward)
    (inputs : TensorOrTuple F) (nt_type : string) (N : Z) (S : option Z)
    (stdevs : Value F) (draw : bool) (rcd : Value F)
    (kwargs : gmap string (Value F)) (st : Locals F) (w w' : World) :
  run_trials self inputs nt_type N S stdevs draw rcd kwargs w = (Ok st, w') →
  ∃ e q,
    expected_of N (sum_attributions st) = Ok e
    ∧ expected_of N (sum_attributions_sq st) = Ok q
    ∧ Forall2 (λ m s, length <$> m = length <$> s) e q
    ∧ ∀ t, t ∈ SUPPORTED_NOISE_TUNNEL_TYPES →
        ∃ a, compute_smoothing t e q = Ok a ∧ length a = length e.
Proof.
  intros Hr. pose proof (run_trials_paired _ _ _ _ _ _ _ _ _ _ _ _ Hr) as Hp.
  apply run_trials_all_set in Hr as (_ & Hs & Hq).
  destruct (expected_of_total N _ Hs) as [e He].
  destruct (expected_of_total N _ Hq) as [q Hq'].
  exists e, q. split; [done|]. split; [done|].
  pose proof (expected_of_shapes N _ _ e q Hp He Hq') as Hsh.
  split; [done|]. intros t Ht. by apply compute_smoothing_total.
Qed.

(** X5.  Once the sub-batches of [attribute] are done, the rest of the
    computation of the attributions cannot fail: every slot of both
    accumulators holds a tensor (no [None] is left to be multiplied),
    the two means have the same number of tensors with pairwise equal
    shapes, and [compute_smoothing] returns for the validated
    [nt_type], with one tensor per accumulator slot. *)
Theorem smoothing_never_fails_after_trials
    (self : NoiseTunnel F World Forward)
    (inputs : TensorOrTuple F) (nt_type : string) (N : Z) (S : option Z)
    (stdevs : Value F) (draw : bool) (rcd : Value F)
    (kwargs : gmap string (Value F)) (st : Locals F) (w w' : World) :
  run_trials self inputs nt_type N S stdevs draw rcd kwargs w = (Ok st, w') →
  Forall is_Some (sum_attributions st)
  ∧ Forall is_Some (sum_attributions_sq st)
  ∧ ∃ e q a,
      expected_of N (sum_attributions st) = Ok e
      ∧ expected_of N (sum_attributions_sq st) = Ok q
      ∧ Forall2 (λ m s, length <$> m = length <$> s) e q
      ∧ compute_smoothing nt_type e q = Ok a
      ∧ length a = length (sum_attributions st).
Proof.
  intros Hr.
  destruct (run_trials_all_set _ _ _ _ _ _ _ _ _ _ _ _ Hr) as (Ht & Hs & Hq).
  split; [done|]. split; [done|].
  destruct (smoothing_after_trials _ _ _ _ _ _ _ _ _ _ _ _ Hr)
    as (e & q & He & Hq' & Hsh & Hsm).
  destruct (Hsm nt_type Ht) as (a & Ha & Hla).
  exists e, q, a. repeat split; try done.
  rewrite Hla. unfold expected_of in He.
  apply mapM_Result_Forall2, Forall2_length in He. done.
Qed.

(** X6.  The smoothing mode decides neither whether [attribute] returns
    nor what it does on the way: from the same world, two supported
    values of [nt_type] leave the same world behind (the same noise was
    drawn, the same calls were made), and either both calls fail, with
    the same error, or both return, with the same delta, both a pair or
    both bare attributions, in the same single-tensor or tuple form and
    with the same number of tensors. *)
Theorem smoothing_mode_does_not_affect_outcome
    (self : NoiseTunnel F World Forward) (inputs : TensorOrTuple F)
    (t t' : string) (N : Z) (S : option Z) (stdevs : Value F)
    (draw : bool) (kwargs : gmap string (Value F)) (w : World) :
  t ∈ SUPPORTED_NOISE_TUNNEL_TYPES → t' ∈ SUPPORTED_NOISE_TUNNEL_TYPES →
  (NoiseTunnel_attribute self inputs t N S stdevs draw kwargs w).2
  = (NoiseTunnel_attribute self inputs t' N S stdevs draw kwargs w).2
  ∧ match (NoiseTunnel_attribute self inputs t N S stdevs draw kwargs w).1,
          (NoiseTunnel_attribute self inputs t' N S stdevs draw kwargs w).1
    with
    | Ok o, Ok o' =>
        match o, o' with
        | Bare _, Bare _ => True
        | WithDelta _ d, WithDelta _ d' => d = d'
        | _, _ => False
        end
        ∧ _is_tuple (attributions_of o) = _is_tuple (attributions_of o')
        ∧ length (_format_tensor_into_tuples (attributions_of o))
          = length (_format_tensor_into_tuples (attributions_of o'))
    | Err e, Err e' => e = e'
    | _, _ => False
    end.
Proof.
  intros Ht Ht'. unfold NoiseTunnel_attribute. cbv [mbind M_bind].
  rewrite (run_trials_mode_irrelevant self inputs t t') by done.
  destruct (run_trials self inputs t' N S stdevs draw
              (return_convergence_delta_of kwargs) kwargs w)
    as [[st|err] w1] eqn:Hr; [|done].
  cbv [lift]. cbn [fst snd]. split; [done|].
  destruct (smoothing_after_trials _ _ _ _ _ _ _ _ _ _ _ _ Hr)
    as (e & q & He & Hq & _ & Hsm).
  destruct (Hsm t Ht) as (a & Ha & Hla).
  destruct (Hsm t' Ht') as (a' & Ha' & Hla').
  unfold smooth_and_return. rewrite He, Hq. cbn [mbind Result_bind].
  rewrite Ha, Ha'. cbn [mbind Result_bind].
  destruct (delta_requested self (return_convergence_delta_of kwargs))
    as [wanted|?] eqn:Hw; [|done]. cbn [mbind Result_bind].
  match goal with
  | |- context [if wanted then ?x else ?y] =>
      destruct (if wanted then x else y) as [delta|?]; [|done]
  end.
  cbn [mbind Result_bind].
  destruct (is_attrib_tuple st) as [b|]; [|done]. cbn [mbind Result_bind].
  unfold _apply_checks_and_return_attributions, _format_output.
  rewrite Hw. destruct b.
  - cbn [mbind Result_bind]. destruct wanted; cbn; by rewrite Hla, Hla'.
  - destruct a as [|x [|??]], a' as [|x' [|??]]; cbn in Hla, Hla';
      try lia; try done.
    cbn [mbind Result_bind]. by destruct wanted.
Qed.

(** *** One delta per sub-batch *)


(** X8.  A sub-batch size of zero, which is what [nt_samples = 0] gives
    with any non-negative or absent [nt_samples_batch_size], and what
    [nt_samples_batch_size = 0] gives with any non-negative
    [nt_samples], makes [attribute] raise [ZeroDivisionError] at
    [nt_samples // nt_samples_batch_size]: before [nt_type] is
    validated, and with nothing expanded, drawn or called. *)
Theorem zero_sub_batch_size_divides_by_zero
    (self : NoiseTunnel F World Forward) (inputs : TensorOrTuple F)
    (nt_type : string) (N : Z) (S : option Z) (stdevs : Value F)
    (draw : bool) (kwargs : gmap string (Value F)) (w : World) :
  (N = 0 ∧ (S = None ∨ ∃ s, S = Some s ∧ 0 ≤ s))
  ∨ (0 ≤ N ∧ S = Some 0) →
  sub_batch_size N S = 0
  ∧ NoiseTunnel_attribute self inputs nt_type N S stdevs draw kwargs w
    = (Err ZeroDivisionError, w).
Proof.
  intros Hz.
  assert (sub_batch_size N S = 0) as Hs.
  { unfold sub_batch_size.
    destruct Hz as [[-> [->|(s & -> & Hs)]]|[HN ->]]; lia. }
  split; [done|].
  unfold NoiseTunnel_attribute, run_trials, py_floordiv. rewrite Hs.
  destruct (decide (0 = 0)); [|done]. reflexivity.
Qed.

(** X9.  A negative [nt_samples_batch_size] is not rejected.  With
    [nt_samples >= 1] the number of whole sub-batches is then negative
    and the remainder is not positive, so (when the expansion of the
    keyword arguments by that negative size returns) no noise is drawn
    and the wrapped method is never called; unless the delta is
    supported and requested, [attribute] then fails with
    [UnboundLocalError] on [is_attrib_tuple], which only a sub-batch
    assigns. *)
Theorem negative_sub_batch_size_runs_no_trial
    (self : NoiseTunnel F World Forward) (inputs : TensorOrTuple F)
    (nt_type : string) (N s : Z) (stdevs : Value F)
    (draw : bool) (kwargs kwargs' : gmap string (Value F)) (w w1 : World) :
  1 ≤ N → s < 0 →
  nt_type ∈ SUPPORTED_NOISE_TUNNEL_TYPES →
  expand_partial (_format_tensor_into_tuples inputs) draw s kwargs w
  = (Ok kwargs', w1) →
  delta_requested self (return_convergence_delta_of kwargs) = Ok false →
  N `div` s < 0 ∧ N - N `div` s * s ≤ 0
  ∧ run_trials self inputs nt_type N (Some s) stdevs draw
      (return_convergence_delta_of kwargs) kwargs w
    = (Ok {| sum_attributions := []; sum_attributions_sq := [];
             delta_partial_list := []; is_attrib_tuple := None |}, w1)
  ∧ NoiseTunnel_attribute self inputs nt_type N (Some s) stdevs draw kwargs w
    = (Err UnboundLocalError, w1).
Proof.
  intros HN Hs Ht Hexp Hw.
  pose proof (Z.div_mod N s ltac:(lia)) as Hdm.
  pose proof (Z.mod_neg_bound N s Hs) as Hmod.
  rewrite (Z.mul_comm s) in Hdm.
  assert (N `div` s < 0) as Hdiv by nia.
  assert (N - N `div` s * s ≤ 0) as Hrem by lia.
  split; [done|]. split; [done|].
  assert (run_trials self inputs nt_type N (Some s) stdevs draw
            (return_convergence_delta_of kwargs) kwargs w
          = (Ok {| sum_attributions := []; sum_attributions_sq := [];
                   delta_partial_list := []; is_attrib_tuple := None |}, w1))
    as Hrun.
  { unfold run_trials, sub_batch_size, py_floordiv.
    rewrite Z.min_r by lia.
    destruct (decide (s = 0)); [lia|].
    rewrite bind_lift_ok, validate_supported by done.
    rewrite bind_lift_ok, (bind_ok _ _ _ _ _ Hexp).
    rewrite Z2Nat.nonpos by lia. cbn [for_range].
    destruct (decide _); [lia|]. reflexivity. }
  split; [done|].
  unfold NoiseTunnel_attribute. rewrite (bind_ok _ _ _ _ _ Hrun).
  unfold lift, smooth_and_return. cbn [sum_attributions sum_attributions_sq
    delta_partial_list is_attrib_tuple expected_of mapM mbind Result_bind
    mret Result_ret].
  rewrite Hw.
  by apply supported_cases in Ht as [->|[->| ->]].
Qed.

(** X10.  [attribute] adds the noise of a sub-batch before it calls the
    wrapped method on it: with at least one sample and a positive (or
    absent) sub-batch size, if adding noise to the first sub-batch
    fails, [attribute] fails with that error and that world, whatever
    the wrapped method would have done. *)
Theorem noise_failure_precedes_wrapped_call
    (self : NoiseTunnel F World Forward) (inputs : TensorOrTuple F)
    (nt_type : string) (N : Z) (S : option Z) (stdevs : Value F)
    (draw : bool) (kwargs kwargs' : gmap string (Value F))
    (w w1 w2 : World) (err : PyError) :
  1 ≤ N → (∀ s, S = Some s → 1 ≤ s) →
  nt_type ∈ SUPPORTED_NOISE_TUNNEL_TYPES →
  expand_partial (_format_tensor_into_tuples inputs) draw
    (sub_batch_size N S) kwargs w = (Ok kwargs', w1) →
  add_noise_to_inputs (_format_tensor_into_tuples inputs) stdevs
    (sub_batch_size N S) w1 = (Err err, w2) →
  NoiseTunnel_attribute self inputs nt_type N S stdevs draw kwargs w
  = (Err err, w2).
Proof.
  intros HN HS Ht Hexp Hnoise.
  assert (1 ≤ sub_batch_size N S ∧ 1 ≤ N `div` sub_batch_size N S)
    as [Hsize Hwhole].
  { unfold sub_batch_size. destruct S as [s|].
    - specialize (HS s eq_refl).
      by destruct (sub_batch_arithmetic N s HN HS) as (? & ? & _).
    - split; [done|]. rewrite Z.div_same by lia. done. }
  unfold NoiseTunnel_attribute.
  apply bind_err. unfold run_trials, py_floordiv.
  destruct (decide (sub_batch_size N S = 0)); [lia|].
  rewrite bind_lift_ok, validate_supported by done.
  rewrite bind_lift_ok, (bind_ok _ _ _ _ _ Hexp).
  apply bind_err.
  destruct (Z.to_nat (N `div` sub_batch_size N S)) as [|m] eqn:Hm; [lia|].
  cbn [for_range]. apply bind_err. unfold whole_batch.
  by apply bind_err.
Qed.

Lemma compute_partial_attribution_form (self : NoiseTunnel F World Forward)
    (is_inputs_tuple : bool) (rcd : Value F) (noisy aps : list (Tensor F))
    (kw : gmap string (Value F)) (iat : bool) (d : option (Tensor F))
    (w w' : World) :
  (∀ arg kw w out w',
     attribute (attribution_method self) arg kw w = (Ok out, w') →
     _is_tuple (attributions_of out) = _is_tuple arg
     ∧ delta_requested self rcd = Ok (has_delta out)) →
  compute_partial_attribution self is_inputs_tuple rcd noisy kw w
  = (Ok (aps, iat, d), w') →
  iat = is_inputs_tuple.
Proof.
  intros Hform Hc. unfold compute_partial_attribution in Hc.
  apply bind_inv_ok in Hc as (arg & w1 & Harg & Hc).
  apply lift_inv_ok in Harg as [Harg _].
  apply bind_inv_ok in Hc as (out & w2 & Hout & Hc).
  apply bind_inv_ok in Hc as (wanted & w3 & Hw & Hc).
  apply lift_inv_ok in Hw as [Hw _].
  apply bind_inv_ok in Hc as ([a delta] & w4 & Ha & Hc).
  apply lift_inv_ok in Ha as [Ha _]. injection Hc as _ <- _ _.
  destruct (Hform _ _ _ _ _ Hout) as [Hf Hd].
  rewrite Hw in Hd. injection Hd as ->.
  assert (_is_tuple arg = is_inputs_tuple) as <-.
  { destruct is_inputs_tuple; [by injection Harg as <-|].
    destruct (py_index noisy 0); [|done]. by injection Harg as <-. }
  rewrite <- Hf. destruct out as [a'|a' d']; cbn in Ha.
  - by injection Ha as <- _.
  - by injection Ha as <- _.
Qed.

Lemma run_trials_form (self : NoiseTunnel F World Forward)
    (inputs : TensorOrTuple F) (nt_type : string) (N : Z) (S : option Z)
    (stdevs : Value F) (draw : bool) (rcd : Value F)
    (kwargs : gmap string (Value F)) (st : Locals F) (w w' : World) :
  (∀ arg kw w out w',
     attribute (attribution_method self) arg kw w = (Ok out, w') →
     _is_tuple (attributions_of out) = _is_tuple arg
     ∧ delta_requested self rcd = Ok (has_delta out)) →
  run_trials self inputs nt_type N S stdevs draw rcd kwargs w = (Ok st, w') →
  is_attrib_tuple st = None ∨ is_attrib_tuple st = Some (_is_tuple inputs).
Proof.
  intros Hform. unfold run_trials. intros Hr.
  apply bind_inv_ok in Hr as (partition & w1 & _ & Hr).
  apply bind_inv_ok in Hr as (u & w2 & _ & Hr).
  apply bind_inv_ok in Hr as (kw & w3 & _ & Hr).
  apply bind_inv_ok in Hr as (st1 & w4 & Hloop & Hr).
  assert (is_attrib_tuple st1 = None
          ∨ is_attrib_tuple st1 = Some (_is_tuple inputs)) as Hst1.
  { eapply (for_range_invariant
              (λ s : Locals F, is_attrib_tuple s = None
                     ∨ is_attrib_tuple s = Some (_is_tuple inputs)));
      [| |exact Hloop]; [|by left].
    intros s s' wa wb _ Hb. right. unfold whole_batch in Hb.
    apply bind_inv_ok in Hb as (noisy & wc & _ & Hb).
    apply bind_inv_ok in Hb as ([[aps iat] d] & wd & Hc & Hb).
    apply (compute_partial_attribution_form _ _ _ _ _ _ _ _ _ _ Hform)
      in Hc as ->.
    destruct (decide (length (sum_attributions s) = 0%nat));
      by apply bind_inv_ok in Hb as ([[s1 q1] dl] & we & _ & [= <- _]). }
  destruct (decide _); [|by injection Hr as <- _].
  right. unfold remaining_batch in Hr.
  apply bind_inv_ok in Hr as (noisy & wc & _ & Hr).
  apply bind_inv_ok in Hr as (kw' & wd & _ & Hr).
  apply bind_inv_ok in Hr as ([[aps iat] d] & we & Hc & Hr).
  apply (compute_partial_attribution_form _ _ _ _ _ _ _ _ _ _ Hform)
    in Hc as ->.
  by apply bind_inv_ok in Hr as ([[s1 q1] dl] & wf & _ & [= <- _]).
Qed.

(** X11.  [attribute] hands back attributions in the form of its
    inputs, provided the wrapped method does and answers the request
    for a delta as [NoiseTunnel] expects: if every call of the wrapped
    method returns attributions that are a tuple exactly when its inputs
    are, in a pair with a delta exactly when the delta is supported and
    requested, then what [attribute] returns is a tuple exactly when
    [inputs] is, and a single tensor otherwise. *)
Theorem noise_tunnel_preserves_input_form
    (self : NoiseTunnel F World Forward) (inputs : TensorOrTuple F)
    (nt_type : string) (N : Z) (S : option Z) (stdevs : Value F)
    (draw : bool) (kwargs : gmap string (Value F)) (w w' : World)
    (o : Output F) :
  (∀ arg kw w out w',
     attribute (attribution_method self) arg kw w = (Ok out, w') →
     _is_tuple (attributions_of out) = _is_tuple arg
     ∧ delta_requested self (return_convergence_delta_of kwargs)
       = Ok (has_delta out)) →
  NoiseTunnel_attribute self inputs nt_type N S stdevs draw kwargs w
  = (Ok o, w') →
  _is_tuple (attributions_of o) = _is_tuple inputs.
Proof.
  intros Hform. unfold NoiseTunnel_attribute. intros Ha.
  apply bind_inv_ok in Ha as (st & w1 & Hr & Ha).
  apply lift_inv_ok in Ha as [Ha _].
  apply (run_trials_form _ _ _ _ _ _ _ _ _ _ _ _ Hform) in Hr.
  apply smooth_and_return_inv in Ha
    as (e & q & a & fa & wanted & _ & _ & _ & _ & (b & Hb & Hfa) & Ho).
  rewrite Hb in Hr. destruct Hr as [|[= ->]]; [done|].
  apply format_output_inv in Hfa as [_ Hfa].
  destruct wanted.
  - by destruct Ho as (ds & d & _ & _ & ->).
  - by subst o.
Qed.
End noise_tunnel_behaviour.

(** * More of gradient_shap.py: interpolation and argument errors *)

Section gradient_shap_behaviour.
Context {F : Type} `{Scalar F} {World Forward : Type}.
Context `{!Collaborators F World Forward}.

Lemma expand_slice_one (m : nat) (y : F) :
  expand_slice m [y] = Ok (replicate m y).
Proof.
  unfold expand_slice. destruct (decide _) as [Hl|_]; [|done].
  cbn in Hl. by subst m.
Qed.

Lemma broadcast_column (x : Tensor F) (ys : list F) :
  length ys = shape0 x →
  broadcast_baseline x (BTensor ((λ y, [y]) <$> ys))
  = Ok (zip_with (λ r y, replicate (length r) y) x ys).
Proof.
  unfold broadcast_baseline, shape0. intros Hl.
  rewrite length_fmap. destruct (decide _) as [_|]; [|done]. clear Hl.
  revert ys. induction x as [|r x IH]; intros [|y ys]; try done.
  rewrite fmap_cons. cbn [zip_with mapM]. rewrite expand_slice_one.
  cbn [mbind Result_bind]. rewrite IH. done.
Qed.

(** X12.  [_scale_input] needs one coefficient per example of its
    input: with another number of coefficients the [view] of the
    coefficients raises [RuntimeError], whatever the baseline.  With
    one coefficient per example and a baseline that torch broadcasts to
    the input (a constant, a tensor of the input's shape, one example,
    one element per example), it returns a tensor of the input's shape;
    a baseline of one element per example is that element repeated
    along the example. *)
Theorem scale_input_returns_input_shape
    (x : Tensor F) (b : Baseline F) (cs : list F) :
  (length cs ≠ shape0 x → _scale_input x b cs = Err RuntimeError)
  ∧ (∀ bt, length cs = shape0 x → broadcast_baseline x b = Ok bt →
       ∃ p, _scale_input x b cs = Ok p ∧ length <$> p = length <$> x)
  ∧ (∀ ys, length ys = shape0 x →
       broadcast_baseline x (BTensor ((λ y, [y]) <$> ys))
       = Ok (zip_with (λ r y, replicate (length r) y) x ys)).
Proof.
  split; [|split].
  - intros Hl. unfold _scale_input. by destruct (decide _).
  - intros bt Hl Hb. eexists. split; [by apply scale_input_ok|].
    pose proof (broadcast_baseline_shape _ _ _ Hb) as Hs.
    rewrite shape_zip_with.
    + by apply shape_scale_examples.
    + rewrite !shape_scale_examples; [done| |done].
      rewrite length_map, Hl. unfold shape0.
      by rewrite <- (length_fmap length x), <- Hs, length_fmap.
  - apply broadcast_column.
Qed.

Lemma scaled_row (c : F) (g : F → F → F) (r br : list F) :
  (∀ xv bv, fadd (fmul c xv) (fmul (fsub fone c) bv) = g xv bv) →
  zip_with fadd (map (fmul c) r) (map (fmul (fsub fone c)) br)
  = zip_with g r br.
Proof.
  intros Hg. revert br. induction r as [|xv r IH]; intros [|bv br]; try done.
  cbn [map zip_with]. by rewrite Hg, IH.
Qed.

Lemma scaled_constant (c : F) (g : F → F → F) (x bt : Tensor F) :
  (∀ xv bv, fadd (fmul c xv) (fmul (fsub fone c) bv) = g xv bv) →
  zip_with (zip_with fadd) (scale_examples (replicate (length x) c) x)
    (scale_examples (map (fsub fone) (replicate (length x) c)) bt)
  = zip_with (zip_with g) x bt.
Proof.
  intros Hg. unfold scale_examples. revert bt.
  induction x as [|r x IH]; intros [|br bt]; try done.
  cbn [length replicate map zip_with].
  rewrite IH. f_equal. by apply scaled_row.
Qed.

Lemma zip_with_rows_fst (x bt : Tensor F) :
  length <$> bt = length <$> x →
  zip_with (zip_with (λ xv _ : F, xv)) x bt = x.
Proof.
  revert bt. induction x as [|r x IH]; intros [|br bt] Hs; try done.
  rewrite !fmap_cons in Hs. injection Hs as Hr Hs.
  cbn [zip_with]. rewrite IH by done. f_equal.
  clear -Hr. revert br Hr.
  induction r as [|v r IH]; intros [|bv br] Hr; try done.
  cbn [zip_with]. f_equal. apply IH. by injection Hr.
Qed.

Lemma zip_with_rows_snd (x bt : Tensor F) :
  length <$> bt = length <$> x →
  zip_with (zip_with (λ _ bv : F, bv)) x bt = bt.
Proof.
  revert bt. induction x as [|r x IH]; intros [|br bt] Hs; try done.
  rewrite !fmap_cons in Hs. injection Hs as Hr Hs.
  cbn [zip_with]. rewrite IH by done. f_equal.
  clear -Hr. revert br Hr.
  induction r as [|v r IH]; intros [|bv br] Hr; try done.
  cbn [zip_with]. f_equal. apply IH. by injection Hr.
Qed.

(** X13.  [_scale_input] interpolates between the baseline and the
    input: where [1 * x = x], [0 * x = 0], [1 - 1 = 0], [1 - 0 = 1] and
    [x + 0 = 0 + x = x] hold, coefficients that are all one give back
    the input, and coefficients that are all zero give the baseline as
    broadcast to the input. *)
Theorem scale_input_endpoints (x : Tensor F) (b : Baseline F)
    (bt : Tensor F) :
  (∀ v : F, fmul fone v = v) → (∀ v : F, fmul fzero v = fzero) →
  fsub fone fone = fzero → fsub fone fzero = fone →
  (∀ v : F, fadd v fzero = v) → (∀ v : F, fadd fzero v = v) →
  broadcast_baseline x b = Ok bt →
  _scale_input x b (replicate (shape0 x) fone) = Ok x
  ∧ _scale_input x b (replicate (shape0 x) fzero) = Ok bt.
Proof.
  intros H1 H0 H11 H10 Hr Hl Hb.
  pose proof (broadcast_baseline_shape _ _ _ Hb) as Hs.
  split.
  - rewrite (scale_input_ok _ _ _ bt) by (by rewrite ?length_replicate).
    f_equal. unfold shape0.
    rewrite (scaled_constant fone (λ xv _, xv)).
    + by apply zip_with_rows_fst.
    + intros xv bv. by rewrite H1, H11, H0, Hr.
  - rewrite (scale_input_ok _ _ _ bt) by (by rewrite ?length_replicate).
    f_equal. unfold shape0.
    rewrite (scaled_constant fzero (λ _ bv, bv)).
    + by apply zip_with_rows_snd.
    + intros xv bv. by rewrite H0, H10, H1, Hl.
Qed.

Lemma mapM_Result_first_err {A B} (f : A → Result B) (l : list A)
    (j : nat) (x : A) (err : PyError) :
  (∀ i y, (i < j)%nat → l !! i = Some y → ∃ p, f y = Ok p) →
  l !! j = Some x → f x = Err err → mapM f l = Err err.
Proof.
  revert j. induction l as [|y l IH]; intros j Hbefore Hj Hx; [done|].
  cbn [mapM]. destruct j as [|j].
  - injection Hj as ->. by rewrite Hx.
  - destruct (Hbefore 0%nat y) as [p ->]; [lia|done|].
    cbn [mbind Result_bind]. rewrite (IH j); [done| |done..].
    intros i z Hi Hz. apply (Hbefore (S i)); [lia|done].
Qed.

(** X14.  [InputBaselineXGradient.attribute] draws one coefficient per
    example of the first input tensor and uses them for every tensor:
    when an input tensor (with a baseline) has another number of
    examples than the first one, and the tensors before it are scaled
    without error, the call fails with [RuntimeError] at the [view] of
    the coefficients in [_scale_input], right after the coefficients
    are drawn, and the gradient function is not called. *)
Theorem misaligned_inputs_fail_before_gradient
    (self : InputBaselineXGradient F World Forward)
    (inputs : TensorOrTuple F)
    (baselines target additional_forward_args rcd : Value F)
    (w w1 : World) (xs : list (Tensor F)) (bs : list (Baseline F))
    (x0 x : Tensor F) (b : Baseline F) (j : nat) :
  _format_input_baseline inputs baselines w = (Ok (xs, bs), w1) →
  xs !! 0%nat = Some x0 →
  xs !! j = Some x → bs !! j = Some b →
  shape0 x ≠ shape0 x0 →
  (∀ i xi bi, (i < j)%nat → xs !! i = Some xi → bs !! i = Some bi →
     shape0 xi = shape0 x0 ∧ ∃ bt, broadcast_baseline xi bi = Ok bt) →
  ∃ (cs : list F) (w2 : World),
    np_random_uniform fzero fone (shape0 x0) w1 = (Ok cs, w2)
    ∧ InputBaselineXGradient_attribute self inputs baselines target
        additional_forward_args rcd w
      = (Err RuntimeError, w2).
Proof.
  intros Hfmt Hx0 Hx Hb Hbad Hbefore.
  destruct (np_random_uniform_ok fzero fone (shape0 x0) w1)
    as (cs & w2 & Hcs & Hlen).
  exists cs, w2. split; [done|].
  unfold InputBaselineXGradient_attribute.
  rewrite (bind_ok _ _ _ _ _ Hfmt). unfold py_index. rewrite Hx0.
  rewrite bind_lift_ok, (bind_ok _ _ _ _ _ Hcs).
  assert (mapM (λ '(input, baseline), _scale_input input baseline cs)
            (zip xs bs) = Err RuntimeError) as ->; [|done].
  apply (mapM_Result_first_err _ _ j (x, b)).
  - intros i [xi bi] Hi Hz.
    apply lookup_zip_with_Some in Hz as (xi' & bi' & [= <- <-] & Hxi & Hbi).
    destruct (Hbefore i xi bi Hi Hxi Hbi) as [Hs [bt Hbt]].
    eexists. apply scale_input_ok; [|exact Hbt]. by rewrite Hlen.
  - rewrite lookup_zip_with, Hx. cbn. by rewrite Hb.
  - unfold _scale_input. destruct (decide _) as [Hl|]; [|done].
    destruct Hbad. by rewrite <- Hl.
Qed.

(** X15.  [GradientShap.attribute] asserts that the first element of the
    resolved baselines is a tensor: when it is anything else (a float,
    an int, [None], a nested tuple), the call fails with
    [AssertionError] right after the baselines are resolved, and no
    [NoiseTunnel] is run. *)
Theorem gradient_shap_rejects_non_tensor_baseline
    (self : GradientShap F World Forward) (inputs : TensorOrTuple F)
    (baselines : BaselineSource F World) (n_samples : Z)
    (stdevs target additional_forward_args rcd : Value F)
    (w w1 : World) (v : Value F) (rest : list (Value F)) :
  _format_callable_baseline baselines inputs w
  = (Ok (VTuple (v :: rest)), w1) →
  (∀ t, v ≠ VTensor t) →
  GradientShap_attribute self inputs baselines n_samples stdevs target
    additional_forward_args rcd w
  = (Err AssertionError, w1).
Proof.
  intros Hpool Hv. unfold GradientShap_attribute.
  rewrite (bind_ok _ _ _ _ _ Hpool). cbn [first_is_tensor py_index lookup
    list_lookup mbind Result_bind].
  destruct v; try done. by destruct (Hv t).
Qed.

Lemma gradient_shap_rcd (pool target additional_forward_args rcd : Value F) :
  return_convergence_delta_of
    (<["baselines"%string := pool]>
       (<["target"%string := target]>
          (<["additional_forward_args"%string := additional_forward_args]>
             (<["return_convergence_delta"%string := rcd]> ∅))))
  = rcd.
Proof.
  unfold return_convergence_delta_of.
  rewrite !lookup_insert_ne by done. by rewrite lookup_insert_eq.
Qed.

(** X16.  Whatever [GradientShap.attribute] returns is a pair of
    attributions and delta exactly when [return_convergence_delta] is
    truthy, and the bare attributions otherwise; the delta of the pair
    is a tensor, never [None]. *)
Theorem gradient_shap_returns_delta_iff_requested
    (self : GradientShap F World Forward) (inputs : TensorOrTuple F)
    (baselines : BaselineSource F World) (n_samples : Z)
    (stdevs target additional_forward_args rcd : Value F)
    (w w' : World) (o : Output F) :
  GradientShap_attribute self inputs baselines n_samples stdevs target
    additional_forward_args rcd w = (Ok o, w') →
  match o with
  | Bare _ => truthy rcd = Ok false
  | WithDelta _ d => truthy rcd = Ok true ∧ ∃ t, d = Some t
  end.
Proof.
  unfold GradientShap_attribute. intros Ha.
  apply bind_inv_ok in Ha as (pool & w1 & _ & Ha).
  apply bind_inv_ok in Ha as (it & w2 & _ & Ha).
  apply bind_inv_ok in Ha as (u & w3 & _ & Ha).
  unfold NoiseTunnel_attribute in Ha.
  apply bind_inv_ok in Ha as (st & w4 & _ & Ha).
  apply lift_inv_ok in Ha as [Ha _].
  apply smooth_and_return_inv in Ha
    as (e & q & a & fa & wanted & _ & _ & _ & Hw & _ & Ho).
  rewrite gradient_shap_rcd in Hw. cbn in Hw.
  destruct wanted.
  - destruct Ho as (ds & d & _ & _ & ->). split; [done|]. by exists d.
  - by subst o.
Qed.
End gradient_shap_behaviour.

(** * Runs of the toy instance *)

Import Toy.

Lemma Q_add_zero (x : Q) : fadd x fzero = x.
Proof.
  destruct x as [n d]. cbn. unfold Qplus. cbn.
  by rewrite Z.mul_1_r, Z.add_0_r, Pos.mul_1_r.
Qed.

Lemma Q_times_one_over_one (x : Q) :
  fdiv (fmul x (fof_Z 1)) (fof_Z 1) = x.
Proof.
  destruct x as [n d]. cbn. unfold Qdiv, Qmult, Qinv. cbn.
  by rewrite !Z.mul_1_r, !Pos.mul_1_r.
Qed.

Lemma Q_mul_comm (a b : Q) : fmul a b = fmul b a.
Proof.
  destruct a as [n d], b as [m e]. cbn. unfold Qmult. cbn.
  by rewrite Z.mul_comm, Pos.mul_comm.
Qed.

Lemma bogus_unsupported : "bogus"%string ∉ SUPPORTED_NOISE_TUNNEL_TYPES.
Proof.
  intros Hin. unfold SUPPORTED_NOISE_TUNNEL_TYPES in Hin.
  repeat (apply elem_of_cons in Hin as [Hin|Hin]; [discriminate|]).
  by apply elem_of_nil in Hin.
Qed.

(** C1.  With two input tensors and [stdevs = (0.5, 0.25)], a tuple of
    the right length, [attribute] does not add noise: the length check
    passes, nothing is bound to [stdevs_], and reading it raises
    [UnboundLocalError], before the wrapped method is called. *)
Example tuple_stdevs_of_matching_length_raise :
  NoiseTunnel_attribute (NoiseTunnel_init counting_attributor)
    (Tuple [x23; x23]) "smoothgrad" 1 None
    (VTuple [VFloat (1 # 2)%Q; VFloat (1 # 4)%Q]) false ∅ w0
  = (Err UnboundLocalError, w0).
Proof. vm_compute. reflexivity. Qed.

(** The same call with a single float succeeds. *)
Example float_stdevs_succeed :
  ∃ o w', NoiseTunnel_attribute (NoiseTunnel_init counting_attributor)
    (Tuple [x23; x23]) "smoothgrad" 1 None
    (VFloat (1 # 2)%Q) false ∅ w0
  = (Ok o, w').
Proof. vm_compute. eauto. Qed.

(** C9 at [nt_type = "bogus"]: the counting attributor is not called. *)
Lemma attribute_rejects_bogus :
  ("bogus"%string ∉ SUPPORTED_NOISE_TUNNEL_TYPES)
  ∧ (sub_batch_size 5 None ≠ 0)
  ∧ (NoiseTunnel_attribute (NoiseTunnel_init counting_attributor)
       (Single x23) "bogus" 5 None (VFloat 1%Q) false ∅ w0
     = (Err AssertionError, w0)).
Proof.
  split; [exact bogus_unsupported|]. split; [discriminate|].
  apply attribute_rejects_unsupported_nt_type;
    [exact bogus_unsupported|discriminate].
Defined.

(** C10 on a run of the counting attributor that asks for the delta. *)
Lemma delta_returned_when_requested_and_supported :
  ∃ o w',
    NoiseTunnel_attribute (NoiseTunnel_init counting_attributor)
      (Single x23) "smoothgrad" 2 None (VFloat 0%Q) false rcd_true w0
    = (Ok o, w')
    ∧ has_delta o = true.
Proof.
  destruct (NoiseTunnel_attribute (NoiseTunnel_init counting_attributor)
              (Single x23) "smoothgrad" 2 None (VFloat 0%Q) false rcd_true w0)
    as [[o|e] w'] eqn:Hrun; [|by vm_compute in Hrun].
  exists o, w'. split; [done|].
  destruct (delta_support_fixed_at_construction counting_attributor)
    as (_ & _ & _ & _ & Hattr).
  apply (Hattr _ _ _ _ _ _ _ _ _ _ Hrun). split; [done|].
  by exists (VBool true).
Defined.

(** C2 at [nt_samples = 7], [nt_samples_batch_size = 3]: sub-batches of
    sizes 3, 3 and 1, and the counting attributor is called on [2 * 3],
    [2 * 3] and [2 * 1] slices (two examples).  Without noise the
    attributions of every trial are the inputs [x23], and the
    accumulators hold seven of them: [7 * x] and [7 * x * x], from
    three sub-batch results with seven slices per example. *)
Lemma sub_batches_of_7_by_3 :
  1 ≤ 7 ∧ 1 ≤ 3
  ∧ ("smoothgrad"%string ∈ SUPPORTED_NOISE_TUNNEL_TYPES)
  ∧ replicate (Z.to_nat (7 `div` Z.min 7 3)) (Z.min 7 3)
    ++ (if decide (7 - 7 `div` Z.min 7 3 * Z.min 7 3 > 0)
        then [7 - 7 `div` Z.min 7 3 * Z.min 7 3] else [])
    = [3; 3; 1]
  ∧ foldr Z.add 0
      (replicate (Z.to_nat (7 `div` Z.min 7 3)) (Z.min 7 3)
       ++ (if decide (7 - 7 `div` Z.min 7 3 * Z.min 7 3 > 0)
           then [7 - 7 `div` Z.min 7 3 * Z.min 7 3] else []))
    = 7
  ∧ (∃ o w',
      NoiseTunnel_attribute (NoiseTunnel_init counting_attributor)
        (Single x23) "smoothgrad" 7 (Some 3) (VFloat 1%Q) false ∅ w0
      = (Ok o, w')
      ∧ calls w' = [2 * 3; 2 * 3; 2 * 1]%nat)
  ∧ ∃ st w' (parts : list (list (Tensor Q) * option (Tensor Q))),
      run_trials (NoiseTunnel_init counting_attributor) (Single x23)
        "smoothgrad" 7 (Some 3) (VFloat 0%Q) false (VBool false) ∅ w0
      = (Ok st, w')
      ∧ sum_attributions st = [Some [[7; 14; 21]; [28; 35; 42]]%Q]
      ∧ sum_attributions_sq st
        = [Some [[7; 28; 63]; [112; 175; 252]]%Q]
      ∧ length parts = 3%nat
      ∧ ∀ e, (e < 2)%nat →
          length (concat
                    (zip_with (λ k p, example_trials (Z.to_nat k) e
                                        (default [] (p.1 !! 0%nat)))
                       [3; 3; 1] parts))
          = 7%nat.
Proof.
  split; [lia|]. split; [lia|]. split; [exact smoothgrad_supported|].
  split; [reflexivity|].
  destruct (sub_batches_cover_all_samples
              (NoiseTunnel_init counting_attributor) (Single x23)
              "smoothgrad" 7 3 (VFloat 1%Q) false (VBool false) ∅ w0)
    as (_ & _ & _ & _ & Hsum & Hcalls & _);
    [lia|lia|exact smoothgrad_supported|].
  split; [exact Hsum|]. split.
  { destruct (NoiseTunnel_attribute (NoiseTunnel_init counting_attributor)
                (Single x23) "smoothgrad" 7 (Some 3) (VFloat 1%Q) false ∅ w0)
      as [[o|e] w'] eqn:Hrun; [|by vm_compute in Hrun].
    exists o, w'. split; [done|].
    apply (Hcalls calls x23 [] o w'); try done.
    - intros mean std w a w1. unfold torch_normal1, toy_collaborators, normal1.
      destruct (Qle_bool 0 std); [|done]. intros [= _ <-].
      by rewrite app_nil_r.
    - intros n kw w a w1 [= _ <-]. by rewrite app_nil_r.
    - intros n kw w a w1 [= _ <-]. by rewrite app_nil_r.
    - intros xs n kw d w a w1.
      unfold _expand_and_update_baselines, toy_collaborators,
        expand_and_update_baselines.
      destruct (kw !! "baselines"%string) as [[| | | | |l]|];
        intros [= _ <-]; try by rewrite app_nil_r.
      destruct d; by rewrite app_nil_r.
    - intros n kw w a w1 [= _ <-]. by rewrite app_nil_r.
    - by intros a kw w out w1 [= _ <-]. }
  destruct (sub_batches_cover_all_samples
              (NoiseTunnel_init counting_attributor) (Single x23)
              "smoothgrad" 7 3 (VFloat 0%Q) false (VBool false) ∅ w0)
    as (_ & _ & _ & _ & _ & _ & Hacc);
    [lia|lia|exact smoothgrad_supported|].
  destruct (run_trials (NoiseTunnel_init counting_attributor) (Single x23)
              "smoothgrad" 7 (Some 3) (VFloat 0%Q) false (VBool false) ∅ w0)
    as [[st|e] w'] eqn:Hrun; [|by vm_compute in Hrun].
  destruct (Hacc st w' eq_refl) as (parts & Hprov & Hslots).
  exists st, w', parts.
  split; [done|].
  assert (sum_attributions st = [Some [[7; 14; 21]; [28; 35; 42]]%Q]
          ∧ sum_attributions_sq st
            = [Some [[7; 28; 63]; [112; 175; 252]]%Q]) as [Hs Hq].
  { vm_compute in Hrun. by injection Hrun as <- _. }
  split; [done|]. split; [done|].
  change (replicate (Z.to_nat (7 `div` Z.min 7 3)) (Z.min 7 3)
          ++ (if decide (7 - 7 `div` Z.min 7 3 * Z.min 7 3 > 0)
              then [7 - 7 `div` Z.min 7 3 * Z.min 7 3] else []))
    with [3; 3; 1] in Hprov, Hslots.
  split; [by apply Forall2_length in Hprov|].
  destruct (Hslots 0%nat) as (t & q & Ht & _ & _ & _ & Hrows).
  { eapply Forall2_Forall_r; [exact Hprov|]. apply Forall_true.
    intros k [aps d]
      (w1 & w2 & w3 & w4 & noisy & arg & kw & out & wanted & a & _ & Harg
       & Hout & Hw & Ha & ->).
    injection Hw as <-. cbn [fst].
    destruct (py_index noisy 0) as [y|]; [|done]. injection Harg as <-.
    unfold attribute, counting_attributor, counting_attribute in Hout.
    injection Hout as <- _.
    destruct (kw !! "return_convergence_delta"%string) as [[|[]| | | |]|];
      cbn in Ha; by injection Ha as <- _. }
  rewrite Hs in Ht. injection Ht as <-.
  intros e He. by destruct (Hrows e He) as (_ & Hn & _).
Defined.

(** The counting attributor is called on [2 * 3], [2 * 3] and [2 * 1]
    slices (two examples), and the mean is [7 * x / 7]. *)
Example counting_attributor_sees_3_3_1 :
  NoiseTunnel_attribute (NoiseTunnel_init counting_attributor)
    (Single x23) "smoothgrad" 7 (Some 3) (VFloat 0%Q) false ∅ w0
  = (Ok (Bare (Single [[7 # 7; 14 # 7; 21 # 7]; [28 # 7; 35 # 7; 42 # 7]]%Q)),
     {| seed := 42; calls := [2 * 3; 2 * 3; 2 * 1]%nat |}).
Proof. vm_compute. reflexivity. Qed.

(** C3 on three noisy trials of one element, in sub-batches of 2 and 1:
    the trials are 1, 2 and 3, the sums 6 and 14, the mean [6/3], the
    mean of squares [14/3], and the variance
    [14/3 - (6/3) * (6/3) = 18/27 = 2/3] (the biased one: the unbiased
    variance of 1, 2, 3 is 1). *)
Lemma variance_of_trials_1_2_3 :
  ∃ w',
    NoiseTunnel_attribute (NoiseTunnel_init counting_attributor)
      (Single [[1]]%Q) "smoothgrad" 3 (Some 2) (VFloat 1%Q) false ∅ w0
    = (Ok (Bare (Single [[6 # 3]]%Q)), w')
    ∧ NoiseTunnel_attribute (NoiseTunnel_init counting_attributor)
        (Single [[1]]%Q) "smoothgrad_sq" 3 (Some 2) (VFloat 1%Q) false ∅ w0
      = (Ok (Bare (Single [[14 # 3]]%Q)), w')
    ∧ NoiseTunnel_attribute (NoiseTunnel_init counting_attributor)
        (Single [[1]]%Q) "vargrad" 3 (Some 2) (VFloat 1%Q) false ∅ w0
      = (Ok (Bare (Single [[18 # 27]]%Q)), w')
    ∧ ((14 # 3) - (6 # 3) * (6 # 3) == 2 # 3)%Q
    ∧ ∃ st,
        run_trials (NoiseTunnel_init counting_attributor) (Single [[1]]%Q)
          "vargrad" 3 (Some 2) (VFloat 1%Q) false (VBool false) ∅ w0
        = (Ok st, w')
        ∧ sum_attributions st = [Some [[6]]%Q]
        ∧ sum_attributions_sq st = [Some [[14]]%Q].
Proof.
  assert (∃ w', NoiseTunnel_attribute (NoiseTunnel_init counting_attributor)
            (Single [[1]]%Q) "smoothgrad" 3 (Some 2) (VFloat 1%Q) false ∅ w0
          = (Ok (Bare (Single [[6 # 3]]%Q)), w')) as [w' Hmean].
  { eexists. vm_compute. reflexivity. }
  assert (NoiseTunnel_attribute (NoiseTunnel_init counting_attributor)
            (Single [[1]]%Q) "smoothgrad_sq" 3 (Some 2) (VFloat 1%Q) false
            ∅ w0
          = (Ok (Bare (Single [[14 # 3]]%Q)), w')) as Hsq.
  { vm_compute in Hmean. injection Hmean as <-. vm_compute. reflexivity. }
  destruct (vargrad_is_mean_of_squares_minus_squared_mean _ _ _ _ _ _ _ _ _ _
              _ _ Hmean Hsq)
    as (st & o_var & Hrun & _ & _ & Hvar & Hrel & Hform & Hdelta
        & (sums & sums_sq & Hsums & Hsums_sq & Hm & Hms) & _).
  exists w'. split; [done|]. split; [done|].
  cbn [attributions_of _format_tensor_into_tuples zip_with] in Hrel, Hm, Hms.
  destruct sums as [|s [|??]]; try discriminate.
  destruct sums_sq as [|q [|??]]; try discriminate.
  destruct o_var as [[v|v]|]; try done.
  cbn [attributions_of _format_tensor_into_tuples] in Hrel.
  injection Hrel as ->.
  split; [exact Hvar|]. split; [reflexivity|].
  exists st. split; [exact Hrun|].
  rewrite Hsums, Hsums_sq.
  vm_compute in Hrun. by injection Hrun as <- _.
Defined.

(** C4 on two examples with two replicas each. *)
Lemma two_replicas_of_two_examples :
  (0 < 2)%nat
  ∧ length ([[1]; [2]; [3]; [4]]%Q : Tensor Q) = (2 * 2)%nat
  ∧ repeat_interleave 2 x23 !! (1 * 2 + 0)%nat = x23 !! 1%nat
  ∧ update_sum_attribution_and_sq [None] [None] [[1]; [2]; [3]; [4]]%Q 0 2
    = Ok ([Some [[1 + 2]; [3 + 4]]%Q],
          [Some [[1 * 1 + 2 * 2]; [3 * 3 + 4 * 4]]%Q]).
Proof.
  split; [lia|]. split; [reflexivity|].
  destruct (@replicas_example_major_and_folded_per_example Q _ World unit _)
    as (Hrep & _ & Hfold).
  split; [by apply Hrep; lia|].
  destruct (Hfold [None] [None] [[1]; [2]; [3]; [4]]%Q 0%nat 2%nat 2%nat
              None None)
    as (cur & cur_sq & Hlen & Hlen_sq & Hchar & Heq);
    [lia|reflexivity|reflexivity|reflexivity|].
  change (Z.of_nat 2) with 2 in Heq. rewrite Heq. clear Heq.
  destruct (Hchar 0%nat) as (H0 & H0sq & _); [lia|].
  destruct (Hchar 1%nat) as (H1 & H1sq & _); [lia|].
  destruct cur as [|c0 [|c1 [|??]]]; try discriminate.
  destruct cur_sq as [|q0 [|q1 [|??]]]; try discriminate.
  injection H0 as ->. injection H1 as ->.
  injection H0sq as ->. injection H1sq as ->. reflexivity.
Defined.

(** C5 on the counting attributor, with the delta requested. *)
Lemma single_noiseless_trial_of_counting_attributor :
  (NoiseTunnel_attribute (NoiseTunnel_init counting_attributor) (Single x23)
     "smoothgrad" 1 None (VFloat fzero) false rcd_true w0).1
  = (attribute counting_attributor (Single x23) rcd_true w0).1
  ∧ (attribute counting_attributor (Single x23) rcd_true w0).1
    = Ok (WithDelta (Single x23) (Some [[0]; [0]]%Q)).
Proof.
  split; [|reflexivity].
  apply (single_noiseless_trial_is_direct_call counting_attributor
           (Single x23) rcd_true rcd_true None false).
  - exact Q_add_zero.
  - exact Q_times_one_over_one.
  - intros w. by exists (next_seed w).
  - reflexivity.
  - repeat constructor.
  - intros w. by exists w.
  - reflexivity.
  - reflexivity.
  - intros w out [= <-]. split; [reflexivity|]. by eexists.
Defined.

(** C6 on two examples: coefficients 1/4 and 3/4. *)
Lemma coefficients_of_two_examples :
  ∃ (cs : list Q) (w2 : World) (points : list (Tensor Q)),
    np_random_uniform fzero fone 2 w0 = (Ok cs, w2)
    ∧ cs = [1 # 4; 3 # 4]%Q
    ∧ points
      = [[[(1 # 4) * 1 + (1 - (1 # 4)) * 0; (1 # 4) * 2 + (1 - (1 # 4)) * 1;
           (1 # 4) * 3 + (1 - (1 # 4)) * 0];
          [(3 # 4) * 4 + (1 - (3 # 4)) * 0; (3 # 4) * 5 + (1 - (3 # 4)) * 1;
           (3 # 4) * 6 + (1 - (3 # 4)) * 0]]]%Q.
Proof.
  destruct (one_coefficient_per_example (InputBaselineXGradient_init tt true)
              (Single x23) (VTensor zeros13) VNone VNone (VBool false)
              w0 w0 [x23] [BTensor zeros13] x23)
    as (cs & w2 & points & Hcs & Hlen & Hpoints & _).
  - reflexivity.
  - reflexivity.
  - intros x b Hin. apply list_elem_of_singleton in Hin as [= -> ->].
    split; [reflexivity|]. by eexists.
  - exists cs, w2, points. split; [done|].
    assert (cs = [1 # 4; 3 # 4]%Q) as ->.
    { vm_compute in Hcs. congruence. }
    split; [done|].
    apply Forall2_cons_inv_l in Hpoints
      as (p & ps & (bt & Hbt & Hp & Hrows) & Hnil & ->).
    apply Forall2_nil_inv_l in Hnil as ->.
    injection Hbt as <-.
    pose proof (Hrows 0%nat _ _ _ eq_refl eq_refl eq_refl) as Hr0.
    pose proof (Hrows 1%nat _ _ _ eq_refl eq_refl eq_refl) as Hr1.
    destruct p as [|r0 [|r1 [|??]]]; try discriminate.
    injection Hr0 as ->. injection Hr1 as ->. reflexivity.
Defined.

(** C7 on the model [forward(x) = sum(x)], whose gradient is one. *)
Lemma gradient_times_input_minus_baseline :
  ∃ attributions : list (Tensor Q),
    InputBaselineXGradient_attribute (InputBaselineXGradient_init tt true)
      (Single x23) (VTensor zeros13) VNone VNone (VBool false) w0
    = (Ok (Bare (Single [[1 * (1 - 0); 1 * (2 - 1); 1 * (3 - 0)];
                         [1 * (4 - 0); 1 * (5 - 1); 1 * (6 - 0)]]%Q)),
       {| seed := 2; calls := [] |})
    ∧ attributions
      = [[[1 * (1 - 0); 1 * (2 - 1); 1 * (3 - 0)];
          [1 * (4 - 0); 1 * (5 - 1); 1 * (6 - 0)]]]%Q.
Proof.
  destruct (np_random_uniform fzero fone (shape0 x23) w0)
    as [[cs|e] w2] eqn:Hcs; [|by vm_compute in Hcs].
  destruct (mapM (λ '(input, baseline), _scale_input input baseline cs)
              (zip [x23] [BTensor zeros13]))
    as [points|e] eqn:Hpoints.
  2:{ vm_compute in Hcs. injection Hcs as <- _. by vm_compute in Hpoints. }
  destruct (ibxg_gradient_func (InputBaselineXGradient_init tt true)
              (ibxg_forward_func (InputBaselineXGradient_init tt true))
              points VNone VNone w2)
    as [[grads|e] w3] eqn:Hgrads; [|by vm_compute in Hgrads].
  assert (w3 = {| seed := 2; calls := [] |}
          ∧ grads = [[[1; 1; 1]; [1; 1; 1]]]%Q) as [-> ->].
  { vm_compute in Hcs. injection Hcs as <- <-.
    vm_compute in Hpoints. injection Hpoints as <-.
    vm_compute in Hgrads. by injection Hgrads as <- <-. }
  assert (_format_input_baseline (Single x23) (VTensor zeros13) w0
          = (Ok ([x23], [BTensor zeros13]), w0)) as Hfmt by reflexivity.
  assert ([x23] !! 0%nat = Some x23) as Hx0 by reflexivity.
  destruct (multiply_by_inputs_selects_attributions
              (InputBaselineXGradient_init tt true) (Single x23)
              (VTensor zeros13) VNone VNone (VBool false)
              w0 w0 w2 _ [x23] points _ [BTensor zeros13] x23 cs
              Q_mul_comm Hfmt Hx0 Hcs Hpoints Hgrads)
    as (attributions & Hrun & _ & Hmul & _).
  { intros _. by repeat constructor. }
  specialize (Hmul eq_refl).
  apply Forall2_cons_inv_l in Hmul as (a & rest & (bt & Hbt & ->) & Hnil & ->).
  apply Forall2_nil_inv_l in Hnil as ->. injection Hbt as <-.
  eexists. split; [|reflexivity]. rewrite Hrun. reflexivity.
Defined.

(** C8 on all-ones inputs and a pool of all-zero baselines. *)
Lemma gradient_shap_of_sum_model :
  _format_callable_baseline (BaselineValue (VTensor pool43)) (Single ones23)
    w0 = (Ok (VTuple [VTensor pool43]), w0)
  ∧ first_is_tensor (VTuple [VTensor pool43] : Value Q) = Ok true
  ∧ GradientShap_attribute (GradientShap_init tt true) (Single ones23)
      (BaselineValue (VTensor pool43)) 5 (VFloat 0%Q) VNone VNone
      (VBool false) w0
    = NoiseTunnel_attribute
        (NoiseTunnel_init
           (InputBaselineXGradient_as_Attribution
              (InputBaselineXGradient_init tt true)))
        (Single ones23) "smoothgrad" 5 None (VFloat 0%Q) true
        (<["baselines"%string := VTuple [VTensor pool43]]>
           (<["target"%string := VNone]>
              (<["additional_forward_args"%string := VNone]>
                 (<["return_convergence_delta"%string := VBool false]> ∅))))
        w0.
Proof.
  split; [reflexivity|]. split; [reflexivity|].
  apply (gradient_shap_delegates_to_noise_tunnel (GradientShap_init tt true)
           (Single ones23) (BaselineValue (VTensor pool43)) 5 (VFloat 0%Q)
           VNone VNone (VBool false) w0 w0 (VTuple [VTensor pool43]));
    reflexivity.
Defined.

(** With no noise, GradientShap of [forward(x) = sum(x)] on all-ones
    inputs against all-zero baselines is all ones ([5 / 5]). *)
Example gradient_shap_of_sum_model_is_ones :
  GradientShap_attribute (GradientShap_init tt true) (Single ones23)
    (BaselineValue (VTensor pool43)) 5 (VFloat 0%Q) VNone VNone
    (VBool false) w0
  = (Ok (Bare (Single [[5 # 5; 5 # 5; 5 # 5]; [5 # 5; 5 # 5; 5 # 5]]%Q)),
     {| seed := 41; calls := [] |}).
Proof. vm_compute. reflexivity. Qed.

(** ** Runs for the further properties *)

(** X1 on an int where a float is expected: [stdevs=1] is rejected. *)
Lemma int_stdevs_rejected :
  add_noise_to_inputs [x23] (VInt 1) 2 w0 = (Err AssertionError, w0).
Proof. by apply add_noise_to_inputs_rejects_stdevs. Defined.

(** X2 on two replicas of the two examples of [x23]. *)
Lemma noisy_x23_has_four_slices :
  ∃ y w',
    add_noise_to_inputs [x23] (VFloat 1%Q) 2 w0 = (Ok [y], w')
    ∧ shape0 y = 4%nat
    ∧ length <$> y = [3; 3; 3; 3]%nat.
Proof.
  destruct (add_noise_to_inputs [x23] (VFloat 1%Q) 2 w0)
    as [[noisy|e] w'] eqn:Hrun; [|by vm_compute in Hrun].
  destruct (add_noise_to_inputs_shapes _ _ _ _ _ _ Hrun) as (Hlen & _ & Hsh).
  destruct noisy as [|y [|??]]; try discriminate.
  exists y, w'. split; [done|].
  by destruct (Hsh 0%nat x23 y eq_refl eq_refl) as [-> ->].
Defined.

(** X3 on three replicas of [x23]. *)
Lemma zero_stdev_repeats_x23 :
  ∃ w',
    add_noise_to_inputs [x23] (VFloat 0%Q) 3 w0
    = (Ok [[[1; 2; 3]; [1; 2; 3]; [1; 2; 3];
            [4; 5; 6]; [4; 5; 6]; [4; 5; 6]]%Q], w').
Proof.
  assert (∀ w, ∃ w', torch_normal1 fzero fzero w = (Ok fzero, w')) as Hdraw.
  { intros w. exists (next_seed w). reflexivity. }
  assert (Forall rectangular [x23]) as Hrect by repeat constructor.
  destruct (zero_stdev_adds_no_noise [x23] 3 w0 Q_add_zero Hdraw ltac:(lia)
              Hrect) as [w' Hw].
  exists w'. exact Hw.
Defined.

(** X4 on a second sub-batch of two replicas of two examples. *)
Lemma second_sub_batch_is_added :
  ∃ sums' sums_sq' dl',
    update_partial_attribution_and_delta (NoiseTunnel_init counting_attributor)
      (VBool true) [[[1]; [2]; [3]; [4]]%Q] (Some [[0]]%Q)
      [Some [[10]; [20]]%Q] [Some [[100]; [400]]%Q] [] 2
    = Ok (sums', sums_sq', dl')
    ∧ sums' = [Some [[10 + (1 + 2)]; [20 + (3 + 4)]]%Q]
    ∧ sums_sq' = [Some [[100 + (1 * 1 + 2 * 2)]; [400 + (3 * 3 + 4 * 4)]]%Q]
    ∧ dl' = [Some [[0]]%Q].
Proof.
  destruct (update_partial_attribution_and_delta
              (NoiseTunnel_init counting_attributor)
              (VBool true) [[[1]; [2]; [3]; [4]]%Q] (Some [[0]]%Q)
              [Some [[10]; [20]]%Q] [Some [[100]; [400]]%Q] [] 2)
    as [[[sums' sums_sq'] dl']|e] eqn:Hrun; [|by vm_compute in Hrun].
  exists sums', sums_sq', dl'. split; [done|].
  destruct (accumulators_updated_slotwise _ _ _ _ _ _ _ _ _ _ _ Hrun)
    as (Hl & Hlq & _ & Hset & wanted & Hw & ->).
  destruct (Hset 0%nat _ eq_refl)
    as (v & old & old_sq & new & new_sq & Hv & Ho & Hoq & Hn & Hnq & Hs & Hq).
  injection Hv as <-. injection Ho as <-. injection Hoq as <-.
  injection Hn as <-. injection Hnq as <-. injection Hw as <-.
  destruct sums' as [|s [|??]]; try discriminate.
  destruct sums_sq' as [|q [|??]]; try discriminate.
  injection Hs as ->. injection Hq as ->. done.
Defined.

(** X5 on seven noisy trials of the counting attributor. *)
Lemma variance_of_7_trials_computable :
  ∃ st w' e q a,
    run_trials (NoiseTunnel_init counting_attributor) (Single x23) "vargrad"
      7 (Some 3) (VFloat 1%Q) false (VBool false) ∅ w0 = (Ok st, w')
    ∧ expected_of 7 (sum_attributions st) = Ok e
    ∧ expected_of 7 (sum_attributions_sq st) = Ok q
    ∧ compute_smoothing "vargrad" e q = Ok a
    ∧ length a = length (sum_attributions st).
Proof.
  destruct (run_trials (NoiseTunnel_init counting_attributor) (Single x23)
              "vargrad" 7 (Some 3) (VFloat 1%Q) false (VBool false) ∅ w0)
    as [[st|err] w'] eqn:Hrun; [|by vm_compute in Hrun].
  destruct (smoothing_never_fails_after_trials _ _ _ _ _ _ _ _ _ _ _ _ Hrun)
    as (_ & _ & e & q & a & He & Hq & _ & Ha & Hl).
  by exists st, w', e, q, a.
Defined.

(** X6 for the mean and the variance of the same seven trials. *)
Lemma mean_and_variance_leave_one_world :
  (NoiseTunnel_attribute (NoiseTunnel_init counting_attributor)
     (Single x23) "smoothgrad" 7 (Some 3) (VFloat 1%Q) false rcd_true w0).2
  = (NoiseTunnel_attribute (NoiseTunnel_init counting_attributor)
       (Single x23) "vargrad" 7 (Some 3) (VFloat 1%Q) false rcd_true w0).2.
Proof.
  apply (smoothing_mode_does_not_affect_outcome
           (NoiseTunnel_init counting_attributor) (Single x23)
           "smoothgrad" "vargrad" 7 (Some 3) (VFloat 1%Q) false rcd_true w0).
  - exact smoothgrad_supported.
  - exact vargrad_supported.
Defined.


(** X8 at [nt_samples = 0]. *)
Lemma zero_samples_divide_by_zero :
  NoiseTunnel_attribute (NoiseTunnel_init counting_attributor)
    (Single x23) "smoothgrad" 0 None (VFloat 1%Q) false ∅ w0
  = (Err ZeroDivisionError, w0).
Proof.
  apply (zero_sub_batch_size_divides_by_zero
           (NoiseTunnel_init counting_attributor) (Single x23) "smoothgrad"
           0 None (VFloat 1%Q) false ∅ w0).
  left. split; [reflexivity|]. by left.
Defined.

(** X9 at [nt_samples = 5], [nt_samples_batch_size = -2]. *)
Lemma negative_batch_size_is_unbound_local :
  NoiseTunnel_attribute (NoiseTunnel_init counting_attributor)
    (Single x23) "smoothgrad" 5 (Some (-2)) (VFloat 1%Q) false ∅ w0
  = (Err UnboundLocalError, w0)
  ∧ calls w0 = [].
Proof.
  split; [|reflexivity].
  apply (negative_sub_batch_size_runs_no_trial
           (NoiseTunnel_init counting_attributor) (Single x23) "smoothgrad"
           5 (-2) (VFloat 1%Q) false ∅ ∅ w0 w0).
  - lia.
  - lia.
  - exact smoothgrad_supported.
  - reflexivity.
  - reflexivity.
Defined.

(** X10 on an int [stdevs]: the counting attributor is not called. *)
Lemma int_stdevs_stop_attribute :
  NoiseTunnel_attribute (NoiseTunnel_init counting_attributor)
    (Single x23) "smoothgrad" 7 (Some 3) (VInt 1) false ∅ w0
  = (Err AssertionError, w0)
  ∧ calls w0 = [].
Proof.
  split; [|reflexivity].
  apply (noise_failure_precedes_wrapped_call
           (NoiseTunnel_init counting_attributor) (Single x23) "smoothgrad"
           7 (Some 3) (VInt 1) false ∅ ∅ w0 w0 w0).
  - lia.
  - intros s [= <-]. lia.
  - exact smoothgrad_supported.
  - reflexivity.
  - reflexivity.
Defined.

(** X11 on a wrapped method without delta that returns its inputs. *)
Lemma tuple_in_tuple_out :
  ∃ a w',
    NoiseTunnel_attribute
      (NoiseTunnel_init
         {| forward_func := tt;
            attribute := λ x _, mret (Bare x);
            has_convergence_delta := false;
            multiplies_by_inputs := false;
            is_GradientAttribution := false |})
      (Tuple [x23; ones23]) "smoothgrad" 2 None (VFloat 1%Q) false ∅ w0
    = (Ok (Bare (Tuple a)), w').
Proof.
  destruct (NoiseTunnel_attribute
              (NoiseTunnel_init
                 {| forward_func := tt;
                    attribute := λ x _, mret (Bare x);
                    has_convergence_delta := false;
                    multiplies_by_inputs := false;
                    is_GradientAttribution := false |})
              (Tuple [x23; ones23]) "smoothgrad" 2 None (VFloat 1%Q) false
              ∅ w0)
    as [[o|e] w'] eqn:Hrun; [|by vm_compute in Hrun].
  assert (_is_tuple (attributions_of o) = true) as Hform.
  { apply (noise_tunnel_preserves_input_form _ _ _ _ _ _ _ _ _ _ _)
      with (2 := Hrun).
    by intros arg kw w out w1 [= <- _]. }
  destruct o as [[t|a]|[t|a] d]; try discriminate.
  by exists a, w'.
Defined.

(** X12 on integer scalars: three coefficients for two examples are
    rejected; with two coefficients a baseline of one element per
    example is broadcast along the examples. *)
Lemma column_baseline_is_broadcast :
  @_scale_input Z Z_Scalar [[1; 2; 3]; [4; 5; 6]] (BTensor [[7]; [8]])
    [1; 0; 1] = Err RuntimeError
  ∧ @broadcast_baseline Z [[1; 2; 3]; [4; 5; 6]] (BTensor [[7]; [8]])
    = Ok [[7; 7; 7]; [8; 8; 8]]
  ∧ ∃ p, @_scale_input Z Z_Scalar [[1; 2; 3]; [4; 5; 6]]
           (BTensor [[7]; [8]]) [1; 0] = Ok p
         ∧ length <$> p = [3; 3]%nat
         ∧ p = [[1 * 1 + (1 - 1) * 7; 1 * 2 + (1 - 1) * 7; 1 * 3 + (1 - 1) * 7];
                [0 * 4 + (1 - 0) * 8; 0 * 5 + (1 - 0) * 8;
                 0 * 6 + (1 - 0) * 8]].
Proof.
  destruct (@scale_input_returns_input_shape Z Z_Scalar
              [[1; 2; 3]; [4; 5; 6]] (BTensor [[7]; [8]]) [1; 0; 1])
    as (Hbad & _ & _).
  destruct (@scale_input_returns_input_shape Z Z_Scalar
              [[1; 2; 3]; [4; 5; 6]] (BTensor [[7]; [8]]) [1; 0])
    as (_ & Hok & Hcol).
  split; [by apply Hbad|]. split; [by apply (Hcol [7; 8])|].
  destruct (Hok [[7; 7; 7]; [8; 8; 8]] eq_refl eq_refl) as (p & Hp & Hs).
  exists p. split; [done|]. split; [done|].
  vm_compute in Hp. by injection Hp as <-.
Defined.

(** X13 on integer scalars: coefficients one give the input, zero the
    broadcast baseline. *)
Lemma endpoints_of_two_examples :
  @_scale_input Z Z_Scalar [[1; 2; 3]; [4; 5; 6]] (BTensor [[7; 8; 9]])
    [1; 1] = Ok [[1; 2; 3]; [4; 5; 6]]
  ∧ @_scale_input Z Z_Scalar [[1; 2; 3]; [4; 5; 6]] (BTensor [[7; 8; 9]])
      [0; 0] = Ok [[7; 8; 9]; [7; 8; 9]].
Proof.
  apply (@scale_input_endpoints Z Z_Scalar [[1; 2; 3]; [4; 5; 6]]
           (BTensor [[7; 8; 9]]) [[7; 8; 9]; [7; 8; 9]]).
  - intros v. apply Z.mul_1_l.
  - reflexivity.
  - reflexivity.
  - reflexivity.
  - intros v. apply Z.add_0_r.
  - reflexivity.
  - reflexivity.
Defined.

(** X14 on a second input tensor with three examples instead of two. *)
Lemma three_examples_beside_two :
  ∃ cs w2,
    np_random_uniform fzero fone 2 w0 = (Ok cs, w2)
    ∧ InputBaselineXGradient_attribute
        (InputBaselineXGradient_init tt true)
        (Tuple [x23; [[1]; [2]; [3]]%Q]) VNone VNone VNone (VBool false) w0
      = (Err RuntimeError, w2).
Proof.
  apply (misaligned_inputs_fail_before_gradient
           (InputBaselineXGradient_init tt true)
           (Tuple [x23; [[1]; [2]; [3]]%Q]) VNone VNone VNone (VBool false)
           w0 w0 [x23; [[1]; [2]; [3]]%Q] [BScalar 0%Q; BScalar 0%Q]
           x23 [[1]; [2]; [3]]%Q (BScalar 0%Q) 1%nat).
  - reflexivity.
  - reflexivity.
  - reflexivity.
  - reflexivity.
  - discriminate.
  - intros [|i] xi bi Hi; [|lia]. intros [= <-] [= <-].
    split; [done|]. by eexists.
Defined.

(** X15 on a float baseline. *)
Lemma float_baseline_rejected :
  GradientShap_attribute (GradientShap_init tt true) (Single x23)
    (BaselineValue (VFloat 0%Q)) 5 (VFloat 0%Q) VNone VNone (VBool false) w0
  = (Err AssertionError, w0).
Proof.
  apply (gradient_shap_rejects_non_tensor_baseline
           (GradientShap_init tt true) (Single x23)
           (BaselineValue (VFloat 0%Q)) 5 (VFloat 0%Q) VNone VNone
           (VBool false) w0 w0 (VFloat 0%Q) []).
  - reflexivity.
  - discriminate.
Defined.

(** X16 on the sum model with the delta requested. *)
Lemma gradient_shap_pair_when_requested :
  ∃ a t w',
    GradientShap_attribute (GradientShap_init tt true) (Single x23)
      (BaselineValue (VTensor pool43)) 5 (VFloat 0%Q) VNone VNone
      (VBool true) w0
    = (Ok (WithDelta a (Some t)), w').
Proof.
  destruct (GradientShap_attribute (GradientShap_init tt true) (Single x23)
              (BaselineValue (VTensor pool43)) 5 (VFloat 0%Q) VNone VNone
              (VBool true) w0)
    as [[o|e] w'] eqn:Hrun; [|by vm_compute in Hrun].
  pose proof (gradient_shap_returns_delta_iff_requested _ _ _ _ _ _ _ _ _ _
                _ Hrun) as Hd.
  destruct o as [a|a d]; [discriminate|].
  destruct Hd as (_ & t & ->). by exists a, t, w'.
Defined.
